(** * CacheF3r: a shallow embedding of the cache-poisoning detection core

    The development follows [cachef3r.py]: URL normalisation, target
    validation, payload generation, reflection detection, response
    comparison, scope-limited URL discovery, the 302-poisoning verifier, the
    per-URL test driver, the numbering of the findings in the report and the
    reading of the target file.

    Conventions of the embedding.
    - Python [str] values are [string]s of ASCII characters; [str.lower],
      [str.strip] and the regular expressions are modelled on ASCII text.
    - A Python exception is a value of [exn]; effectful functions run in the
      monad [M], which threads a [world] (event log, request and entropy
      counters) and either returns or raises.
    - The network is an oracle: the [i]-th request of a run is answered by
      [net i request], so two identical requests may be answered differently.
    - [set] is [gset string]. *)

From Stdlib Require Import ZArith QArith Strings.String Strings.Ascii List Lia.
From stdpp Require Import base decidable option list sets gmap strings pretty.

Local Open Scope string_scope.

(** ** Python built-ins on ASCII strings *)

Module Py.

Definition code (c : ascii) : N := Ascii.N_of_ascii c.

(** [str.isspace] on the ASCII range: TAB..CR, FS..US and the space. *)
Definition is_space (c : ascii) : bool :=
  let n := code c in
  ((9 <=? n) && (n <=? 13) || (28 <=? n) && (n <=? 32))%N.

Definition is_upper (c : ascii) : bool :=
  let n := code c in ((65 <=? n) && (n <=? 90))%N.

Definition is_alpha (c : ascii) : bool :=
  let n := code c in
  ((65 <=? n) && (n <=? 90) || (97 <=? n) && (n <=? 122))%N.

Definition is_digit (c : ascii) : bool :=
  let n := code c in ((48 <=? n) && (n <=? 57))%N.

Definition lower_char (c : ascii) : ascii :=
  if is_upper c then Ascii.ascii_of_N (code c + 32) else c.

(** [s.lower()] *)
Fixpoint lower (s : string) : string :=
  match s with
  | EmptyString => EmptyString
  | String c s' => String (lower_char c) (lower s')
  end.

(** [s.lstrip()] / [s.lstrip(chars)] with the stripped class as a predicate *)
Fixpoint lstrip_with (p : ascii -> bool) (s : string) : string :=
  match s with
  | EmptyString => EmptyString
  | String c s' => if p c then lstrip_with p s' else s
  end.

(** [s.rstrip()] / [s.rstrip(chars)] *)
Fixpoint rstrip_with (p : ascii -> bool) (s : string) : string :=
  match s with
  | EmptyString => EmptyString
  | String c s' =>
      match rstrip_with p s' with
      | EmptyString => if p c then EmptyString else String c EmptyString
      | r => String c r
      end
  end.

(** [s.strip()] *)
Definition strip (s : string) : string :=
  rstrip_with is_space (lstrip_with is_space s).

(** [s.startswith(p)] *)
Fixpoint startswith (s p : string) {struct p} : bool :=
  match p with
  | EmptyString => true
  | String a p' =>
      match s with
      | EmptyString => false
      | String b s' => Ascii.eqb a b && startswith s' p'
      end
  end.

(** [s[n:]] for [n >= 0] *)
Fixpoint drop (n : nat) (s : string) : string :=
  match n, s with
  | O, _ => s
  | S _, EmptyString => EmptyString
  | S n', String _ s' => drop n' s'
  end.

(** [s[:n]] for [n >= 0] *)
Fixpoint take (n : nat) (s : string) : string :=
  match n, s with
  | O, _ => EmptyString
  | S _, EmptyString => EmptyString
  | S n', String c s' => String c (take n' s')
  end.

(** [needle in hay] *)
Fixpoint contains (needle hay : string) : bool :=
  startswith hay needle ||
  match hay with
  | EmptyString => false
  | String _ hay' => contains needle hay'
  end.

(** [c in s] for a single character *)
Fixpoint has_char (c : ascii) (s : string) : bool :=
  match s with
  | EmptyString => false
  | String d s' => Ascii.eqb c d || has_char c s'
  end.

(** truthiness of a [str]: [bool(s)] *)
Definition truthy (s : string) : bool :=
  match s with EmptyString => false | _ => true end.

(** [s.split(c)] for a one-character separator: never empty. *)
Fixpoint split (c : ascii) (s : string) : list string :=
  match s with
  | EmptyString => [EmptyString]
  | String d s' =>
      if Ascii.eqb c d then EmptyString :: split c s'
      else match split c s' with
           | [] => [String d EmptyString]
           | w :: ws => String d w :: ws
           end
  end.

(** [sep.join(l)] *)
Fixpoint join (sep : string) (l : list string) : string :=
  match l with
  | [] => EmptyString
  | [w] => w
  | w :: ws => w +:+ sep +:+ join sep ws
  end.

(** [s.partition(c)]: the text before the first [c], and, when there is
    one, the text after it. *)
Fixpoint partition (c : ascii) (s : string) : string * option string :=
  match s with
  | EmptyString => (EmptyString, None)
  | String d s' =>
      if Ascii.eqb c d then (EmptyString, Some s')
      else let '(a, b) := partition c s' in (String d a, b)
  end.

End Py.

(** ** [normalize_url] *)

(** [re.sub(r'^https?://', '', url)]: the pattern is anchored at the start,
    so at most one occurrence, at index 0, is removed. *)
Definition strip_scheme (url : string) : string :=
  if Py.startswith url "https://" then Py.drop 8 url
  else if Py.startswith url "http://" then Py.drop 7 url
  else url.

Definition normalize_url (url : string) : string :=
  let url := Py.strip url in
  let url := strip_scheme url in
  "https://" +:+ url.

(** ** Exceptions and the effect monad *)

Inductive exn : Type :=
  | ValueError (msg : string)
  | TypeError (msg : string)
  | RequestException (msg : string)
  | OSError (msg : string)
  | RecursionError.

Inductive result (A : Type) : Type :=
  | Ok (a : A)
  | Raise (e : exn).
Arguments Ok {A} a.
Arguments Raise {A} e.

(** ** The standard-library functions the scanner calls

    [urllib.parse] and [difflib] are not part of the repository.  The scanner
    is written against the interface below; [cpython_urllib] further down is
    a reference instance that follows CPython's [urllib/parse.py] on ASCII
    text.  [None] stands for a [ValueError] raised by the parser. *)

Record ParseResult : Type := mkParse {
  scheme : string;
  netloc : string;
  path : string;
  params : string;
  query : string;
  fragment : string
}.

Class UrlLib : Type := {
  urlparse : string -> option ParseResult;
  urljoin : string -> string -> option string
}.

(** [difflib.SequenceMatcher(None, a, b).ratio()]; the score is a float in
    the source and an exact rational here. *)
Class DiffLib : Type := {
  ratio : string -> string -> Q
}.

Module urllib.

Definition uses_relative : list string :=
  [""; "ftp"; "http"; "gopher"; "nntp"; "imap"; "wais"; "file"; "https";
   "shttp"; "mms"; "prospero"; "rtsp"; "rtspu"; "sftp"; "svn"; "svn+ssh";
   "ws"; "wss"].

Definition uses_netloc : list string :=
  [""; "ftp"; "http"; "gopher"; "nntp"; "telnet"; "imap"; "wais"; "file";
   "mms"; "https"; "shttp"; "snews"; "prospero"; "rtsp"; "rtspu"; "rsync";
   "svn"; "svn+ssh"; "sftp"; "nfs"; "git"; "git+ssh"; "ws"; "wss"].

Definition uses_params : list string :=
  [""; "ftp"; "hdl"; "prospero"; "http"; "imap"; "https"; "shttp"; "rtsp";
   "rtspu"; "sip"; "sips"; "mms"; "sftp"; "tel"].

Definition mem (s : string) (l : list string) : bool :=
  existsb (String.eqb s) l.

Definition scheme_char (c : ascii) : bool :=
  Py.is_alpha c || Py.is_digit c ||
  Ascii.eqb c "+" || Ascii.eqb c "-" || Ascii.eqb c ".".

Fixpoint all_chars (p : ascii -> bool) (s : string) : bool :=
  match s with
  | EmptyString => true
  | String c s' => p c && all_chars p s'
  end.

(** TAB, CR and LF are removed from the URL *)
Fixpoint remove_unsafe (s : string) : string :=
  match s with
  | EmptyString => EmptyString
  | String c s' =>
      let n := Py.code c in
      if ((n =? 9) || (n =? 10) || (n =? 13))%N then remove_unsafe s'
      else String c (remove_unsafe s')
  end.

Definition c0_or_space (c : ascii) : bool := (Py.code c <=? 32)%N.

Definition netloc_delim (c : ascii) : bool :=
  Ascii.eqb c "/" || Ascii.eqb c "?" || Ascii.eqb c "#".

(** [_splitnetloc(url, 2)] on the text after the two slashes: the domain
    part runs to the first of [/], [?], [#]. *)
Fixpoint splitnetloc (s : string) : string * string :=
  match s with
  | EmptyString => (EmptyString, EmptyString)
  | String c s' =>
      if netloc_delim c then (EmptyString, s)
      else let '(d, rest) := splitnetloc s' in (String c d, rest)
  end.

(** Bracket check of [urlsplit]: an unmatched bracket is a [ValueError].
    (Releases from 3.11.4 on also reject a bracketed host that is not an
    IPv6 or IPvFuture literal; the reference instance accepts it.) *)
Definition brackets_ok (netloc : string) : bool :=
  Bool.eqb (Py.has_char "[" netloc) (Py.has_char "]" netloc).

Definition urlsplit (url default_scheme : string)
  : option (string * string * string * string * string) :=
  let url := Py.lstrip_with c0_or_space url in
  let url := remove_unsafe url in
  let '(sch, url) :=
    match Py.partition ":" url with
    | (String c0 before', Some after) =>
        let before := String c0 before' in
        if Py.is_alpha c0 && all_chars scheme_char before
        then (Py.lower before, after)
        else (default_scheme, url)
    | _ => (default_scheme, url)
    end in
  let '(nl, url) :=
    if Py.startswith url "//" then splitnetloc (Py.drop 2 url)
    else (EmptyString, url) in
  if negb (brackets_ok nl) then None
  else
    let '(url, frag) :=
      match Py.partition "#" url with
      | (u, Some f) => (u, f)
      | (u, None) => (u, EmptyString)
      end in
    let '(url, qry) :=
      match Py.partition "?" url with
      | (u, Some q) => (u, q)
      | (u, None) => (u, EmptyString)
      end in
    Some (sch, nl, url, qry, frag).

(** [s.rfind(c)], with [-1] when absent *)
Fixpoint rfind (c : ascii) (s : string) : Z :=
  match s with
  | EmptyString => (-1)%Z
  | String d s' =>
      let r := rfind c s' in
      if (0 <=? r)%Z then (r + 1)%Z
      else if Ascii.eqb c d then 0%Z else (-1)%Z
  end.

(** [s.find(c)], with [-1] when absent *)
Fixpoint find (c : ascii) (s : string) : Z :=
  match s with
  | EmptyString => (-1)%Z
  | String d s' =>
      if Ascii.eqb c d then 0%Z
      else let r := find c s' in
           if (r <? 0)%Z then (-1)%Z else (r + 1)%Z
  end.

(** [s.find(c, start)] for [start >= 0] *)
Definition find_from (c : ascii) (start : Z) (s : string) : Z :=
  let r := find c (Py.drop (Z.to_nat start) s) in
  if (r <? 0)%Z then (-1)%Z else (r + start)%Z.

Definition splitparams (url : string) : string * string :=
  if Py.has_char "/" url then
    let i := find_from ";" (rfind "/" url) url in
    if (i <? 0)%Z then (url, EmptyString)
    else (Py.take (Z.to_nat i) url, Py.drop (Z.to_nat i + 1) url)
  else
    let i := find ";" url in
    (Py.take (Z.to_nat i) url, Py.drop (Z.to_nat i + 1) url).

Definition urlparse_with (url default_scheme : string) : option ParseResult :=
  match urlsplit url default_scheme with
  | None => None
  | Some (sch, nl, url, qry, frag) =>
      let '(url, prm) :=
        if mem sch uses_params && Py.has_char ";" url then splitparams url
        else (url, EmptyString) in
      Some (mkParse sch nl url prm qry frag)
  end.

Definition urlunsplit (sch nl url qry frag : string) : string :=
  let url :=
    if Py.truthy nl ||
       (Py.truthy sch && mem sch uses_netloc && negb (Py.startswith url "//"))
    then
      let url :=
        if Py.truthy url && negb (Py.startswith url "/") then "/" +:+ url
        else url in
      "//" +:+ nl +:+ url
    else url in
  let url := if Py.truthy sch then sch +:+ ":" +:+ url else url in
  let url := if Py.truthy qry then url +:+ "?" +:+ qry else url in
  if Py.truthy frag then url +:+ "#" +:+ frag else url.

Definition urlunparse (p : ParseResult) : string :=
  let url :=
    if Py.truthy (params p) then path p +:+ ";" +:+ params p else path p in
  urlunsplit (scheme p) (netloc p) url (query p) (fragment p).

(** [segments[1:-1] = filter(None, segments[1:-1])] *)
Definition filter_inner (segments : list string) : list string :=
  match segments with
  | [] => []
  | first :: rest =>
      match List.rev rest with
      | [] => [first]
      | final :: inner_rev =>
          (first :: List.filter Py.truthy (List.rev inner_rev) ++ [final])%list
      end
  end.

(** The loop of [urljoin] over the segments; [resolved_path.pop()] on an
    empty list is the ignored [IndexError]. *)
Fixpoint resolve (segments resolved_path : list string) : list string :=
  match segments with
  | [] => resolved_path
  | seg :: segments' =>
      if String.eqb seg ".." then
        resolve segments' (List.removelast resolved_path)
      else if String.eqb seg "." then resolve segments' resolved_path
      else resolve segments' (resolved_path ++ [seg])%list
  end.

Definition urljoin_impl (base url : string) : option string :=
  if negb (Py.truthy base) then Some url
  else if negb (Py.truthy url) then Some base
  else
    match urlparse_with base "" with
    | None => None
    | Some b =>
        match urlparse_with url (scheme b) with
        | None => None
        | Some u =>
            if negb (String.eqb (scheme u) (scheme b)) ||
               negb (mem (scheme u) uses_relative)
            then Some url
            else if mem (scheme u) uses_netloc && Py.truthy (netloc u)
            then Some (urlunparse u)
            else
              let nl := if mem (scheme u) uses_netloc then netloc b
                        else netloc u in
              if negb (Py.truthy (path u)) && negb (Py.truthy (params u))
              then
                let qry := if negb (Py.truthy (query u)) then query b
                           else query u in
                Some (urlunparse (mkParse (scheme u) nl (path b) (params b)
                                          qry (fragment u)))
              else
                let base_parts := Py.split "/" (path b) in
                let base_parts :=
                  if negb (String.eqb (List.last base_parts "") "")
                  then List.removelast base_parts else base_parts in
                let segments :=
                  if Py.startswith (path u) "/" then Py.split "/" (path u)
                  else filter_inner (base_parts ++ Py.split "/" (path u))%list in
                let resolved_path := resolve segments [] in
                let resolved_path :=
                  let final := List.last segments "" in
                  if String.eqb final "." || String.eqb final ".."
                  then (resolved_path ++ [""])%list else resolved_path in
                let joined := Py.join "/" resolved_path in
                let joined := if Py.truthy joined then joined else "/" in
                Some (urlunparse (mkParse (scheme u) nl joined (params u)
                                          (query u) (fragment u)))
        end
    end.

End urllib.

#[export] Instance cpython_urllib : UrlLib := {
  urlparse url := urllib.urlparse_with url "";
  urljoin := urllib.urljoin_impl
}.

(** [os.path.splitext(p)[1]] as in [posixpath]: the extension runs from the
    last dot of the last path component, leading dots not counted. *)
Definition splitext_ext (p : string) : string :=
  let sepIndex := urllib.rfind "/" p in
  let dotIndex := urllib.rfind "." p in
  if (sepIndex <? dotIndex)%Z then
    let filename_head :=
      Py.drop (Z.to_nat (sepIndex + 1)) (Py.take (Z.to_nat dotIndex) p) in
    if urllib.all_chars (Ascii.eqb ".") filename_head then EmptyString
    else Py.drop (Z.to_nat dotIndex) p
  else EmptyString.

(** ** Constants *)

Definition MAX_URLS : nat := 1000.

Definition USER_AGENT : string :=
  "Mozilla/5.0 (Windows NT 10.0; Win64; x64) AppleWebKit/537.36 (KHTML, like Gecko) Chrome/112.0.0.0 Safari/537.36".

(** ** Reflection detection *)

Record reflection_details : Type := mkDetails {
  is_reflected : bool;
  location_reflection : bool;
  context : option string
}.

(** [validate_response_reflection] returns two shapes of value: the tuple
    [(False, None)] on a falsy payload, and the [reflection_details] dict
    otherwise. *)
Inductive reflection_ret : Type :=
  | Tuple_False_None
  | Details (d : reflection_details).

Definition validate_response_reflection
    (response_text payload_value : string) (location_header : option string)
  : reflection_ret :=
  if negb (Py.truthy payload_value) then Tuple_False_None
  else
    let reflection_details := mkDetails false false None in
    let reflection_details :=
      match location_header with
      | Some location =>
          if Py.truthy location then
            if Py.contains (Py.lower payload_value) (Py.lower location) then
              mkDetails (is_reflected reflection_details) true
                        (Some ("Location: " +:+ location))
            else reflection_details
          else reflection_details
      | None => reflection_details
      end in
    Details reflection_details.

(** What a caller reads as the Location-reflection verdict: the flag of the
    dict, and [False] (the first component) of the tuple. *)
Definition reported_reflection (r : reflection_ret) : bool :=
  match r with
  | Tuple_False_None => false
  | Details d => location_reflection d
  end.

(** ** Response comparison *)

(** The dicts handed to [compare_responses]: keys ['status'], ['length'],
    ['headers'] and ['content']. *)
Record captured : Type := mkCaptured {
  status : Z;
  length : Z;
  headers : gmap string string;
  content : string
}.

Record differences : Type := mkDifferences {
  status_changed : bool;
  length_changed : bool;
  content_changed : bool;
  headers_changed : bool;
  reflection_found : bool;
  similarity_score : Q
}.

Definition important_headers : list string :=
  ["server"; "x-powered-by"; "x-cache"; "cache-control"; "location"].

Definition Qltb (a b : Q) : bool := negb (Qle_bool b a).

Definition default_threshold : Q := 85 # 100.

(** [baseline_value != test_value] on the results of [dict.get] *)
Definition header_differs (b t : gmap string string) (header : string) : bool :=
  negb (bool_decide (b !! header = t !! header)).

Definition compare_responses `{DiffLib}
    (baseline test_response : captured) (payload_value : string) (threshold : Q)
  : result (bool * differences) :=
  let status_diff := Z.abs (status baseline - status test_response) in
  let status_changed := (100 <=? status_diff)%Z in
  let length_changed :=
    if (0 <? length baseline)%Z then
      let length_diff_percent :=
        (inject_Z (Z.abs (length test_response - length baseline))
         / inject_Z (length baseline))%Q in
      Qltb (15 # 100) length_diff_percent
    else false in
  let header_changes :=
    List.filter (header_differs (headers baseline) (headers test_response))
                important_headers in
  let headers_changed := (0 <? List.length header_changes)%nat in
  (* is_reflected, reflection_context = validate_response_reflection(...) *)
  match validate_response_reflection (content test_response) payload_value
                                     (Some (content baseline)) with
  | Details _ => Raise (ValueError "too many values to unpack (expected 2)")
  | Tuple_False_None =>
      let is_reflected := false in
      let similarity_score :=
        if Py.truthy (content baseline) && Py.truthy (content test_response)
        then ratio (Py.take 1000 (content baseline))
                   (Py.take 1000 (content test_response))
        else 1%Q in
      let is_different :=
        status_changed || length_changed ||
        (is_reflected && Qltb similarity_score threshold) ||
        ((2 <=? List.length header_changes)%nat
         && Qltb similarity_score threshold) in
      Ok (is_different,
          mkDifferences status_changed length_changed false headers_changed
                        is_reflected similarity_score)
  end.

(** ** Requests, responses and the world *)

Record request : Type := mkRequest {
  req_url : string;
  req_headers : list (string * string);
  req_timeout : Z;
  allow_redirects : bool
}.

Record response : Type := mkResponse {
  status_code : Z;
  resp_headers : list (string * string);
  text : string
}.

(** [response.headers.get(name, default)]: header names compare without
    regard to case. *)
Fixpoint headers_get (h : list (string * string)) (name default : string)
  : string :=
  match h with
  | [] => default
  | (k, v) :: h' =>
      if String.eqb (Py.lower k) (Py.lower name) then v
      else headers_get h' name default
  end.

(** One recorded probe success of the verifier (the dict appended to
    [results]). *)
Record probe : Type := mkProbe {
  p_url : string;
  p_status_code : Z;
  p_location : string;
  p_reflection : reflection_details;
  p_headers : list (string * string)
}.

(** The record written to the finding log. *)
Record vulnerability_data : Type := mkVuln {
  v_url : string;
  v_header : string;
  v_status_code : Z;
  v_location : string;
  v_reflection_details : reflection_details;
  v_verification_status : string;
  v_verification_type : string
}.

Inductive event : Type :=
  | EGet (r : request)               (* requests.get(...) *)
  | ESleep (seconds : Q)             (* time.sleep(...) *)
  | EAdd (url : string)              (* discovered_urls.add(url) *)
  | EAppend (file : string) (v : vulnerability_data)
  | ELog (level msg : string).

(** The state threaded through a run: what has been done so far, how many
    requests and entropy draws were made, and the [discovered_urls] set of
    the running [discover_urls]. *)
Record world : Type := mkWorld {
  events : list event;
  nreq : nat;
  ndraw : nat;
  discovered_urls : gset string
}.

Definition world0 : world := mkWorld [] 0 0 ∅.

(** The ['headers'] mapping of [payloads.json], in file order. *)
Definition catalog : Type := list (string * list string).

(** The environment of a run: the answer to the [i]-th request (a response,
    or the [RequestException] the transport raised), the [k]-th
    reading of [int(time.time())] and of [os.urandom(4).hex()], and the
    content of the payload files. *)
Inductive transport : Type :=
  | Answer (r : response)
  | Failure (msg : string).          (* a [RequestException] *)

Class Env : Type := {
  net : nat -> request -> transport;
  clock : nat -> N;
  urandom_hex : nat -> string;
  payload_files : string -> result catalog
}.

Definition M (A : Type) : Type := world -> result A * world.

Definition ret {A} (a : A) : M A := fun w => (Ok a, w).

Definition bind {A B} (c : M A) (k : A -> M B) : M B :=
  fun w =>
    match c w with
    | (Ok a, w') => k a w'
    | (Raise e, w') => (Raise e, w')
    end.

Definition raise {A} (e : exn) : M A := fun w => (Raise e, w).

Declare Scope m_scope.
Delimit Scope m_scope with M.
Notation "x <- c ;; k" := (bind c (fun x => k))
  (at level 100, c at next level, right associativity) : m_scope.
Notation "c ;; k" := (bind c (fun _ => k))
  (at level 100, right associativity) : m_scope.
Local Open Scope m_scope.

Definition emit (e : event) : M unit :=
  fun w => (Ok tt, mkWorld (events w ++ [e])%list (nreq w) (ndraw w)
                           (discovered_urls w)).

Definition sleep (seconds : Q) : M unit := emit (ESleep seconds).

Definition log (level msg : string) : M unit := emit (ELog level msg).

Definition get_discovered : M (gset string) :=
  fun w => (Ok (discovered_urls w), w).

(** [discovered_urls.add(url)] *)
Definition add_discovered (url : string) : M unit :=
  fun w => (Ok tt, mkWorld (events w ++ [EAdd url])%list (nreq w) (ndraw w)
                           ({[url]} ∪ discovered_urls w)).

(** [discovered_urls = set()] *)
Definition reset_discovered : M unit :=
  fun w => (Ok tt, mkWorld (events w) (nreq w) (ndraw w) ∅).

(** [requests.get(url, timeout=..., headers=..., allow_redirects=...)] *)
Definition requests_get `{Env} (r : request) : M response :=
  fun w =>
    (match net (nreq w) r with
     | Answer resp => Ok resp
     | Failure msg => Raise (RequestException msg)
     end,
     mkWorld (events w ++ [EGet r])%list (S (nreq w)) (ndraw w)
             (discovered_urls w)).

(** One draw of [int(time.time())] and [os.urandom(4).hex()] *)
Definition draw_entropy `{Env} : M (N * string) :=
  fun w =>
    (Ok (clock (ndraw w), urandom_hex (ndraw w)),
     mkWorld (events w) (nreq w) (S (ndraw w)) (discovered_urls w)).

(** [try: body  except RequestException as e: handler(str(e))] *)
Definition try_except_request {A} (body : M A) (handler : string -> M A) : M A :=
  fun w =>
    match body w with
    | (Raise (RequestException msg), w') => handler msg w'
    | r => r
    end.

(** [try: body  except Exception as e: handler(e)] *)
Definition try_except {A} (body : M A) (handler : exn -> M A) : M A :=
  fun w =>
    match body w with
    | (Raise e, w') => handler e w'
    | r => r
    end.

(** [for x in l: body(x)] *)
Fixpoint for_each {A} (l : list A) (body : A -> M unit) : M unit :=
  match l with
  | [] => ret tt
  | x :: l' => body x ;; for_each l' body
  end.

(** A value of the library interface, or the [ValueError] it raised. *)
Definition or_value_error {A} (o : option A) : M A :=
  match o with
  | Some a => ret a
  | None => raise (ValueError "Invalid IPv6 URL")
  end.

(** [str(e)] *)
Definition exn_str (e : exn) : string :=
  match e with
  | ValueError msg | TypeError msg | RequestException msg | OSError msg => msg
  | RecursionError => "maximum recursion depth exceeded"
  end.

(** ** The three link scans of [crawl_url]

    [re.findall] returns the captured group of every non-overlapping match,
    leftmost first.  In each pattern the group is a greedy run of characters
    that are not quotes, closed by a quote, so a match at a position is
    unique. *)

Module Scan.

Definition dquote : ascii := "034"%char.
Definition squote : ascii := "039"%char.
Definition backtick : ascii := "096"%char.

(** the class of the two quotes of the attribute pattern *)
Definition quote2 (c : ascii) : bool := Ascii.eqb c dquote || Ascii.eqb c squote.

(** the alternation of the three quotes of the script patterns *)
Definition quote3 (c : ascii) : bool :=
  Ascii.eqb c dquote || Ascii.eqb c squote || Ascii.eqb c backtick.

Fixpoint span (p : ascii -> bool) (s : string) : string * string :=
  match s with
  | EmptyString => (EmptyString, EmptyString)
  | String c s' =>
      if p c then let '(a, b) := span p s' in (String c a, b)
      else (EmptyString, s)
  end.

(** A quote, the literal [lead], one or more non-quote characters, a quote.
    Returns the group [lead ++ body] and the length of the whole match. *)
Definition quoted_group (is_quote : ascii -> bool) (lead s : string)
  : option (string * nat) :=
  match s with
  | String q r =>
      if is_quote q && Py.startswith r lead then
        let '(body, after) :=
          span (fun c => negb (is_quote c)) (Py.drop (String.length lead) r) in
        match body, after with
        | String _ _, String q' _ =>
            if is_quote q'
            then Some (lead +:+ body,
                       (1 + String.length lead + String.length body + 1)%nat)
            else None
        | _, _ => None
        end
      else None
  | EmptyString => None
  end.

(** The attribute pattern at the head of [s]: one of href, src, action,
    url; an equals sign; a quoted group with quotes from [quote2]. *)
Definition match_attr (s : string) : option (string * nat) :=
  let try_kw (kw : string) :=
    if Py.startswith s (kw +:+ "=") then
      match quoted_group quote2 "" (Py.drop (String.length kw + 1) s) with
      | Some (g, n) => Some (g, (String.length kw + 1 + n)%nat)
      | None => None
      end
    else None in
  match try_kw "href" with
  | Some m => Some m
  | None =>
      match try_kw "src" with
      | Some m => Some m
      | None =>
          match try_kw "action" with
          | Some m => Some m
          | None => try_kw "url"
          end
      end
  end.

(** The script pattern at the head of [s]: a quoted group that starts
    with a slash, with quotes from [quote3]. *)
Definition match_js (s : string) : option (string * nat) :=
  quoted_group quote3 "/" s.

(** The API pattern at the head of [s]: a quoted group that starts with
    /api/, with quotes from [quote3]. *)
Definition match_api (s : string) : option (string * nat) :=
  quoted_group quote3 "/api/" s.

(** [re.findall]: [skip] characters are still covered by the last match. *)
Fixpoint findall_from (m : string -> option (string * nat)) (skip : nat)
    (s : string) : list string :=
  match s with
  | EmptyString => []
  | String _ s' =>
      match skip with
      | S k => findall_from m k s'
      | O =>
          match m s with
          | Some (g, n) => g :: findall_from m (n - 1) s'
          | None => findall_from m 0 s'
          end
      end
  end.

Definition findall (m : string -> option (string * nat)) (s : string)
  : list string := findall_from m 0 s.

(** The list [urls] of [crawl_url] after both [extend] calls. *)
Definition extract_urls (text : string) : list string :=
  (findall match_attr text ++ findall match_js text
     ++ findall match_api text)%list.

End Scan.

(** ** URL discovery *)

Definition common_endpoints : list string :=
  [""; "api"; "v1"; "v2"; "admin"; "portal"; "graphql"; "wp-json";
   ".well-known"; "actuator"; "metrics"; "health"; "status"; "api-docs";
   "swagger"; "openapi"; "docs"; "help"; "debug"; "internal"; "private";
   "public"; "auth"; "login"; "user"; "admin"; "dashboard"; "console";
   "management"; "monitor"; "static"; "assets"; "images"; "css"; "js"; "lib";
   "vendor"; "includes"; "upload"; "uploads"; "files"; "temp"; "cache"].

Definition excluded_extensions : list string :=
  [".jpg"; ".jpeg"; ".png"; ".gif"; ".css"; ".js"; ".svg"; ".ico"; ".woff";
   ".ttf"; ".eot"].

Section Discovery.
Context `{UrlLib} `{Env}.

(** The closures of [discover_urls] take [target] and [target_domain] as
    arguments.  A bare [except:] turns any parser error into the fallback
    value. *)
Definition is_same_domain (target_domain url : string) : bool :=
  match urlparse url with
  | Some parsed =>
      String.eqb (netloc parsed) target_domain
      || Py.startswith (path parsed) "/"
  | None => false
  end.

Definition normalize_path (target url : string) : string :=
  match urlparse url with
  | Some parsed =>
      let path := Py.rstrip_with (Ascii.eqb "/") (path parsed) in
      let path := if Py.truthy path then path else "/" in
      match urljoin target path with
      | Some joined => joined
      | None => url
      end
  | None => url
  end.

(** [crawl_url(url, depth, max_depth)].  The progress bar is display only
    and is left out.  [fuel] bounds the nesting of calls; [max_depth - depth]
    is enough (lemma [crawl_url_fuel]). *)
Fixpoint crawl_url (fuel : nat) (target target_domain : string) (timeout : Z)
    (url : string) (depth max_depth : nat) : M unit :=
  if (max_depth <=? depth)%nat then ret tt
  else
    match fuel with
    | O => raise RecursionError
    | S fuel' =>
        try_except_request
          (response <- requests_get
              (mkRequest url [("User-Agent", USER_AGENT)] timeout true) ;;
           if (status_code response =? 200)%Z then
             let urls := Scan.extract_urls (text response) in
             for_each urls (fun found_url =>
               full_url <-
                 (if Py.startswith found_url "/" then
                    or_value_error (urljoin target found_url)
                  else if Py.startswith found_url "http://"
                          || Py.startswith found_url "https://" then
                    ret found_url
                  else or_value_error (urljoin url found_url)) ;;
               discovered <- get_discovered ;;
               if is_same_domain target_domain full_url
                  && negb (bool_decide (full_url ∈ discovered)) then
                 add_discovered (normalize_path target full_url) ;;
                 discovered <- get_discovered ;;
                 if (size discovered <? MAX_URLS)%nat then
                   if (depth <? max_depth - 1)%nat then
                     crawl_url fuel' target target_domain timeout full_url
                               (depth + 1) max_depth
                   else ret tt
                 else ret tt
               else ret tt)
           else ret tt)
          (fun _ => ret tt)
    end.

(** The filtering loop of [discover_urls], over the URLs in the order the
    set is iterated. *)
Fixpoint filter_loop (target_domain : string) (urls : list string)
    (filtered_urls : gset string) : gset string :=
  match urls with
  | [] => filtered_urls
  | url :: urls' =>
      let filtered_urls :=
        match urlparse url with
        | Some parsed =>
            let ext := Py.lower (splitext_ext (path parsed)) in
            if negb (urllib.mem ext excluded_extensions)
               && is_same_domain target_domain url
               && (size filtered_urls <? MAX_URLS)%nat
            then {[url]} ∪ filtered_urls
            else filtered_urls
        | None => filtered_urls
        end in
      filter_loop target_domain urls' filtered_urls
  end.

(** [discover_urls(target, output_dir, timeout)].  Writing
    [filtered_urls.txt] and the log lines are left out.  [elements] fixes
    one iteration order of the set; CPython's is unspecified, and
    [filter_loop] is stated for any order. *)
Definition discover_urls (target : string) (timeout : Z) : M (list string) :=
  reset_discovered ;;
  parsed_target <- or_value_error (urlparse target) ;;
  let target_domain := netloc parsed_target in
  for_each common_endpoints (fun endpoint =>
    add_discovered (normalize_path target (target +:+ "/" +:+ endpoint +:+ "/"))) ;;
  crawl_url 2 target target_domain timeout target 0 2 ;;
  discovered <- get_discovered ;;
  let filtered_urls := filter_loop target_domain (elements discovered) ∅ in
  ret (elements filtered_urls).

End Discovery.

(** ** The 302-poisoning verifier *)

(** [(result, None)] is [Verified result]; [(None, reason)] is
    [Rejected reason]. *)
Inductive verdict : Type :=
  | Verified (result : probe)
  | Rejected (reason : string).

(** The dict literal with the keys ["User-Agent"] and [header_name]: a later
    equal key replaces the earlier value. *)
Definition probe_headers (header_name header_value : string)
  : list (string * string) :=
  if String.eqb header_name "User-Agent" then [("User-Agent", header_value)]
  else [("User-Agent", USER_AGENT); (header_name, header_value)].

(** [len(set(locations)) == 1] *)
Definition locations_identical (results : list probe) : bool :=
  (size (list_to_set (List.map p_location results) : gset string) =? 1)%nat.

(** The decision on the recorded probes (lines 610-617). *)
Definition validate_results (results : list probe) : verdict :=
  if (2 <=? List.length results)%nat then
    if locations_identical results then
      match results with
      | first :: _ => Verified first
      | [] => Rejected "Inconsistent or insufficient 302 responses"
      end
    else Rejected "Inconsistent or insufficient 302 responses"
  else Rejected "Inconsistent or insufficient 302 responses".

Section Verifier.
Context `{Env}.

(** [f"verify_{int(time.time())}_{i}_{os.urandom(4).hex()}"] *)
Definition cache_buster (i : nat) : M string :=
  th <- draw_entropy ;;
  let '(t, h) := th in
  ret ("verify_" +:+ pretty t +:+ "_" +:+ pretty i +:+ "_" +:+ h).

(** One turn of the loop over [cache_busters[1:]]; [results] is the list
    built so far. *)
Definition probe_once (url header_name header_value : string) (timeout : Z)
    (results : list probe) (cache_buster : string) : M (list probe) :=
  let test_url := url +:+ "?" +:+ cache_buster in
  try_except_request
    (response <- requests_get
        (mkRequest test_url (probe_headers header_name header_value)
                   timeout false) ;;
     results <-
       (if (status_code response =? 302)%Z then
          let location := headers_get (resp_headers response) "Location" "" in
          match validate_response_reflection (text response) header_value
                                             (Some location) with
          | Tuple_False_None =>
              (* reflection['location_reflection'] on a tuple *)
              raise (TypeError
                       "tuple indices must be integers or slices, not str")
          | Details reflection =>
              if location_reflection reflection then
                ret (results ++ [mkProbe test_url (status_code response)
                                   location reflection
                                   (resp_headers response)])%list
              else ret results
          end
        else ret results) ;;
     sleep 1 ;;
     ret results)
    (fun _ => ret results).

Fixpoint probe_loop (url header_name header_value : string) (timeout : Z)
    (results : list probe) (cache_busters : list string) : M (list probe) :=
  match cache_busters with
  | [] => ret results
  | cb :: cbs =>
      results <- probe_once url header_name header_value timeout results cb ;;
      probe_loop url header_name header_value timeout results cbs
  end.

Definition verify_302_poisoning (url header_name header_value : string)
    (timeout : Z) : M verdict :=
  cb0 <- cache_buster 0 ;;
  cb1 <- cache_buster 1 ;;
  cb2 <- cache_buster 2 ;;
  try_except_request
    (baseline <- requests_get
        (mkRequest (url +:+ "?cb=" +:+ cb0) [("User-Agent", USER_AGENT)]
                   timeout false) ;;
     let baseline_location :=
       headers_get (resp_headers baseline) "Location" "" in
     if (status_code baseline =? 302)%Z
        && Py.contains (Py.lower header_value) (Py.lower baseline_location)
     then ret (Rejected "Baseline already contains payload in redirect")
     else
       results <- probe_loop url header_name header_value timeout []
                             [cb1; cb2] ;;
       ret (validate_results results))
    (fun msg => ret (Rejected ("Error during verification: " +:+ msg))).

End Verifier.

(** ** The per-URL test driver *)

Inductive scan_mode : Type := standard | aggressive | stealth.

Section Driver.
Context `{Env}.

(** The body run for one header value.  The progress-bar branch is display
    only and is left out. *)
Definition test_value (url output_file header_name header_value : string)
    (timeout : Z) : M unit :=
  v <- verify_302_poisoning url header_name header_value timeout ;;
  match v with
  | Verified result =>
      emit (EAppend output_file
              (mkVuln url (header_name +:+ ": " +:+ header_value)
                      (p_status_code result) (p_location result)
                      (p_reflection result) "verified" "302_redirect")) ;;
      log "SUCCESS" ("Found 302 cache poisoning: " +:+ header_name +:+ ": "
                     +:+ header_value) ;;
      log "INFO" ("→ Redirects to: " +:+ Py.take 60 (p_location result)
                  +:+ "...")
  | Rejected _ => ret tt
  end ;;
  sleep (1 # 2).

Definition test_cache_poisoning (url payloads_file output_file : string)
    (mode : scan_mode) (timeout : Z) : M unit :=
  try_except
    (payloads <- (fun w => (payload_files payloads_file, w)) ;;
     for_each payloads (fun '(header_name, header_values) =>
       for_each header_values (fun header_value =>
         test_value url output_file header_name header_value timeout)))
    (fun e => log "ERROR" ("Error testing " +:+ url +:+ ": " +:+ exn_str e)).

End Driver.

(** ** Notions used in the statements *)

(** [needle] occurs in [hay] up to letter case: some substring of [hay] and
    [needle] have the same lower-case form. *)
Definition ci_substring (needle hay : string) : Prop :=
  exists pre mid post,
    hay = pre +:+ mid +:+ post /\ Py.lower mid = Py.lower needle.

(** [rstrip] leaves nothing to strip from [s]. *)
Definition rstripped (p : ascii -> bool) (s : string) : Prop :=
  Py.rstrip_with p s = s.

(** The URLs added by [discovered_urls.add] in a run of events. *)
Fixpoint adds (evs : list event) : gset string :=
  match evs with
  | [] => ∅
  | EAdd u :: evs' => {[u]} ∪ adds evs'
  | _ :: evs' => adds evs'
  end.

(** The requests issued in a run of events, in order. *)
Fixpoint gets (evs : list event) : list request :=
  match evs with
  | [] => []
  | EGet r :: evs' => r :: gets evs'
  | _ :: evs' => gets evs'
  end.

(** From the set [D] on, the events [evs] never issue a request once the
    discovered set has reached [MAX_URLS]. *)
Definition capped (D : gset string) (evs : list event) : Prop :=
  forall pre post,
    evs = (pre ++ post)%list ->
    (MAX_URLS <= size (adds pre ∪ D))%nat ->
    gets post = [].

(** The computation [c], run from [w], extends the event log by some [evs]
    that satisfy [Q], and changes [discovered_urls] by the additions in [evs]
    only. *)
Definition tracks {A} (c : M A) (w : world)
    (Q : gset string -> list event -> Prop) : Prop :=
  exists evs,
    events (snd (c w)) = (events w ++ evs)%list
    /\ discovered_urls (snd (c w)) = adds evs ∪ discovered_urls w
    /\ Q (discovered_urls w) evs.

(** The events of one call of [crawl_url]: nothing, or its own request
    followed by events that respect the cap. *)
Definition crawl_shape (D : gset string) (evs : list event) : Prop :=
  evs = [] \/ exists r evs', evs = EGet r :: evs' /\ capped D evs'.

(** The computation [c] never runs out of fuel. *)
Definition fuelled {A} (c : M A) : Prop :=
  forall w, fst (c w) <> Raise RecursionError.

(** What the verifier records as a probe success: a 302 whose Location
    holds the injected value, by the test of the source. *)
Definition reflecting (header_value : string) (p : probe) : Prop :=
  p_status_code p = 302%Z
  /\ Py.contains (Py.lower header_value) (Py.lower (p_location p)) = true.

(** A rejection decided at the baseline stage of the verifier. *)
Definition baseline_rejection (v : verdict) : Prop :=
  v = Rejected "Baseline already contains payload in redirect"
  \/ exists msg, v = Rejected ("Error during verification: " +:+ msg).

(** ** Transport stubs for the concrete runs *)

Module Stub.

Definition unreachable_elsewhere (root page : string) : Env := {|
  net := fun _ r =>
    if String.eqb (req_url r) root then Answer (mkResponse 200 [] page)
    else Failure "unreachable";
  clock := fun _ => 1700000000%N;
  urandom_hex := fun _ => "deadbeef";
  payload_files := fun _ => Raise (OSError "No such file or directory")
|}.

(** The root page links to another host. *)
Definition page_foreign_link : string :=
  "<a href='https://evil.com/y'>y</a>".

Definition env_foreign_link : Env :=
  unreachable_elsewhere "https://example.com" page_foreign_link.

(** The root page links to a path of the target that starts with two
    slashes. *)
Definition page_double_slash : string :=
  "<a href='https://example.com//evil.com/x'>x</a>".

Definition env_double_slash : Env :=
  unreachable_elsewhere "https://example.com" page_double_slash.

(** The root page carries 1000 distinct links /p0 .. /p999. *)
Definition page_many_links : string :=
  String.concat ""
    (List.map (fun n : nat => "<a href='/p" +:+ pretty n +:+ "'>")
              (List.seq 0 1000)).

Definition env_many_links : Env :=
  unreachable_elsewhere "https://example.com" page_many_links.

(** Baseline 200, then every probe a 302 to the same Location. *)
Definition env_poisoned : Env := {|
  net := fun i _ =>
    match i with
    | O => Answer (mkResponse 200 [] "ok")
    | _ => Answer (mkResponse 302
                     [("Location", "https://evil.com/dashboard")] "")
    end;
  clock := fun _ => 1700000000%N;
  urandom_hex := fun _ => "deadbeef";
  payload_files := fun _ => Ok [("X-Forwarded-Host", ["evil.com"])]
|}.

(** The baseline already redirects to the payload host. *)
Definition env_ambient : Env := {|
  net := fun _ _ =>
    Answer (mkResponse 302 [("location", "https://Evil.com/")] "");
  clock := fun _ => 1700000000%N;
  urandom_hex := fun _ => "deadbeef";
  payload_files := fun _ => Ok [("X-Forwarded-Host", ["evil.com"])]
|}.

End Stub.


(** ** Further notions for the crawl *)

Section CrawlBody.
Context `{UrlLib} `{Env}.

(** The body of the loop over the found URLs in [crawl_url], for the call
    [crawl_url(url, depth, max_depth)] that has [fuel] left for the nested
    calls. *)
Definition crawl_body (fuel : nat) (target target_domain : string)
    (timeout : Z) (url : string) (depth max_depth : nat) (found_url : string)
  : M unit :=
  full_url <-
    (if Py.startswith found_url "/" then
       or_value_error (urljoin target found_url)
     else if Py.startswith found_url "http://"
             || Py.startswith found_url "https://" then
       ret found_url
     else or_value_error (urljoin url found_url)) ;;
  discovered <- get_discovered ;;
  if is_same_domain target_domain full_url
     && negb (bool_decide (full_url ∈ discovered)) then
    add_discovered (normalize_path target full_url) ;;
    discovered <- get_discovered ;;
    if (size discovered <? MAX_URLS)%nat then
      if (depth <? max_depth - 1)%nat then
        crawl_url fuel target target_domain timeout full_url
                  (depth + 1) max_depth
      else ret tt
    else ret tt
  else ret tt.

(** The URL a found reference is resolved to. *)
Definition resolve (target url found_url : string) : option string :=
  if Py.startswith found_url "/" then urljoin target found_url
  else if Py.startswith found_url "http://"
          || Py.startswith found_url "https://" then Some found_url
  else urljoin url found_url.

End CrawlBody.

(** The computation [c] never lets a [RequestException] escape. *)
Definition contained {A} (c : M A) : Prop :=
  forall w msg, fst (c w) <> Raise (RequestException msg).

(** The request [crawl_url] makes for [url]. *)
Definition crawl_request (url : string) (timeout : Z) : request :=
  mkRequest url [("User-Agent", USER_AGENT)] timeout true.

(** [resolve] with the empty string for a reference that does not resolve. *)
Definition resolved `{UrlLib} (target url found_url : string) : string :=
  match resolve target url found_url with
  | Some full_url => full_url
  | None => EmptyString
  end.

(** The checks behind the run on the page with 1000 links, as booleans. *)
Definition resolves_off_root `{UrlLib} (root found_url : string) : bool :=
  match resolve root root found_url with
  | Some full_url => negb (String.eqb full_url root)
  | None => false
  end.

Definition kept_as_is `{UrlLib} (root target_domain found_url : string) : bool :=
  match resolve root root found_url with
  | Some full_url =>
      is_same_domain target_domain full_url
      && String.eqb (normalize_path root full_url) full_url
  | None => false
  end.

(** ** The report and the target file *)

(** [s.split(sep, 1)] for a non-empty [sep]: the text before and after the
    leftmost occurrence of [sep], or [s] alone when there is none. *)
Fixpoint split1 (sep s : string) : list string :=
  if Py.startswith s sep then [EmptyString; Py.drop (String.length sep) s]
  else
    match s with
    | EmptyString => [EmptyString]
    | String c s' =>
        match split1 sep s' with
        | [a; b] => [String c a; b]
        | _ => [s]
        end
    end.

(** [header_name, header_value = vuln['header'].split(': ', 1)] of
    [generate_report] *)
Definition split_header (header : string) : result (string * string) :=
  match split1 ": " header with
  | [header_name; header_value] => Ok (header_name, header_value)
  | _ => Raise (ValueError "not enough values to unpack (expected 2, got 1)")
  end.

(** [range(i, n, step)] for [step >= 1], as the list of its values; [fuel]
    bounds the number of values, and [n - i] is enough. *)
Fixpoint range_from (fuel i n step : nat) : list nat :=
  match fuel with
  | O => []
  | S fuel' =>
      if (i <? n)%nat then i :: range_from fuel' (i + step) n step else []
  end.

(** [v[i:j]] for [0 <= i <= j] *)
Definition slice {A} (v : list A) (i j : nat) : list A :=
  List.firstn (j - i) (List.skipn i v).

(** [enumerate(l, start)] *)
Definition enumerate {A} (l : list A) (start : nat) : list (nat * A) :=
  List.combine (List.seq start (List.length l)) l.

(** The detail blocks [generate_report] writes, as the pairs [(j, vuln)] of
    the inner loop, in the order they are written. *)
Definition numbered_findings {A} (vulnerabilities : list A) : list (nat * A) :=
  let batch_size := Nat.max 1 (List.length vulnerabilities / 3) in
  List.flat_map
    (fun i =>
       let batch := slice vulnerabilities i (i + batch_size) in
       enumerate batch (i + 1))
    (range_from (List.length vulnerabilities) 0 (List.length vulnerabilities)
                batch_size).

(** The list comprehension of [main] over the lines of the target file. *)
Definition read_targets (lines : list string) : list string :=
  List.map Py.strip
    (List.filter
       (fun line =>
          Py.truthy (Py.strip line)
          && negb (Py.startswith (Py.strip line) "#"))
       lines).

(** ** The requests of the verifier *)

Section VerifierRequests.
Context `{Env}.

(** The cache buster with index [i] of a run of [verify_302_poisoning] that
    starts after [k] entropy draws. *)
Definition buster (k i : nat) : string :=
  "verify_" +:+ pretty (clock (i + k)) +:+ "_" +:+ pretty i +:+ "_"
  +:+ urandom_hex (i + k).

(** The baseline request of that run. *)
Definition baseline_request (url : string) (timeout : Z) (k : nat) : request :=
  mkRequest (url +:+ "?cb=" +:+ buster k 0) [("User-Agent", USER_AGENT)]
            timeout false.

(** The request of its [i]-th probe. *)
Definition probe_request (url header_name header_value : string) (timeout : Z)
    (k i : nat) : request :=
  mkRequest (url +:+ "?" +:+ buster k i)
            (probe_headers header_name header_value) timeout false.

(** What the loop over the cache busters records for the probe with index
    [i], when that probe is request number [n] of the transport: the dict
    of lines 597-603 if the answer is a 302 and the detector reports the
    header value in its Location, and nothing otherwise. *)
Definition recorded (url header_name header_value : string) (timeout : Z)
    (k n i : nat) : list probe :=
  let rq := probe_request url header_name header_value timeout k i in
  match net n rq with
  | Answer response =>
      if (status_code response =? 302)%Z then
        let location := headers_get (resp_headers response) "Location" "" in
        match validate_response_reflection (text response) header_value
                                           (Some location) with
        | Details reflection =>
            if location_reflection reflection
            then [mkProbe (req_url rq) (status_code response) location
                          reflection (resp_headers response)]
            else []
        | Tuple_False_None => []
        end
      else []
  | Failure _ => []
  end.

End VerifierRequests.

(** The string [s] holds decimal digits only. *)
Definition digits (s : string) : Prop :=
  forall c, Py.has_char c s = true -> Py.is_digit c = true.

(** ** Notions for the test driver *)

(** The run from [w] to [w'] appended some events to the log, all of which
    satisfy [Q]. *)
Definition emitting (Q : event -> Prop) (w w' : world) : Prop :=
  exists evs, events w' = (events w ++ evs)%list /\ Forall Q evs.

(** The run from [w] to [w'] made at most [n] requests. *)
Definition spent (n : nat) (w w' : world) : Prop :=
  (nreq w <= nreq w' <= nreq w + n)%nat.

(** The events of the verifier: requests and the pause of one second after
    an answered probe. *)
Definition probing (e : event) : Prop :=
  match e with
  | EGet _ => True
  | ESleep seconds => seconds = 1%Q
  | _ => False
  end.

(** A finding written to [output_file] for [url] comes from a header value
    of the payload file, with the constant fields of the source. *)
Definition sound_record `{Env} (url payloads_file output_file : string)
    (e : event) : Prop :=
  match e with
  | EAppend file v =>
      file = output_file
      /\ v_url v = url
      /\ v_status_code v = 302%Z
      /\ v_verification_status v = "verified"
      /\ v_verification_type v = "302_redirect"
      /\ location_reflection (v_reflection_details v) = true
      /\ exists payloads header_name header_values header_value,
           payload_files payloads_file = Ok payloads
           /\ In (header_name, header_values) payloads
           /\ In header_value header_values
           /\ v_header v = header_name +:+ ": " +:+ header_value
           /\ ci_substring header_value (v_location v)
  | _ => True
  end.

(** The number of header values of a payload file. *)
Definition total_headers (payloads : catalog) : nat :=
  list_sum (List.map (fun '(_, header_values) => List.length header_values)
                     payloads).

(** ** Notions for the discovery results *)

Section FilterTest.
Context `{UrlLib}.

(** The test of the filtering loop of [discover_urls] without the cap: the
    URL parses, its extension is not excluded and [is_same_domain] accepts
    it. *)
Definition keeps (target_domain url : string) : bool :=
  match urlparse url with
  | Some parsed =>
      negb (urllib.mem (Py.lower (splitext_ext (path parsed)))
                       excluded_extensions)
      && is_same_domain target_domain url
  | None => false
  end.

End FilterTest.

(** Whatever the computation [c] raises satisfies [P]. *)
Definition raises_only {A} (P : exn -> Prop) (c : M A) : Prop :=
  forall w e, fst (c w) = Raise e -> P e.

(** The errors of the URL library and of a crawl that runs out of fuel. *)
Definition crawl_error (e : exn) : Prop :=
  (exists msg, e = ValueError msg) \/ e = RecursionError.

(** The events of a crawl: requests that follow redirects and carry the
    User-Agent header only, additions to the discovered set, log lines. *)
Definition crawling (timeout : Z) (e : event) : Prop :=
  match e with
  | EGet r => r = crawl_request (req_url r) timeout
  | EAdd _ | ELog _ _ => True
  | ESleep _ | EAppend _ _ => False
  end.

(** The number of references on the page that answers the request for [url]
    made as the next request after [w]; 0 when that request fails or is not
    answered with status 200. *)
Definition links_at `{Env} (url : string) (timeout : Z) (w : world) : nat :=
  match net (nreq w) (crawl_request url timeout) with
  | Answer response =>
      if (status_code response =? 200)%Z
      then List.length (Scan.extract_urls (text response))
      else 0%nat
  | Failure _ => 0%nat
  end.

(** ** Target validation and payload generation *)

(** The HEAD request of [validate_domain]. *)
Definition head_request (url : string) (timeout : Z) : request :=
  mkRequest url [("User-Agent", USER_AGENT)] timeout true.

(** [validate_domain(url, timeout)], with the answer of the transport to
    the HEAD request given by [head]; [None] is Python's [None].  The log
    lines are left out. *)
Definition validate_domain (head : request -> transport) (url : string)
    (timeout : Z) : option string :=
  let url := normalize_url url in
  match head (head_request url timeout) with
  | Answer response =>
      if (200 <=? status_code response)%Z && (status_code response <? 400)%Z
      then Some url
      else None
  | Failure _ => None
  end.

(** The random draws of [generate_payloads], in the order they are made. *)
Record payload_entropy : Type := mkEntropy {
  random_port : Z;                 (* random.randint(1024, 65535) *)
  random_subdomain : string;       (* eight lower-case letters *)
  attacker_id : Z;                 (* random.randint(1000, 9999) *)
  octet1 : Z;                      (* random.randint(0, 255), three times *)
  octet2 : Z;
  octet3 : Z
}.

(** The ["headers"] mapping [generate_payloads] writes for the host
    [domain], in the order of the dict literal.  The ["cache_busters"] list
    of the file is never read back and is left out. *)
Definition payload_headers (domain : string) (r : payload_entropy) : catalog :=
  let random_port := pretty (random_port r) in
  let random_subdomain := random_subdomain r in
  [ ("X-Forwarded-Host",
     [domain; "evil.com"; domain +:+ ":" +:+ random_port; "localhost";
      "127.0.0.1"; random_subdomain +:+ "." +:+ domain;
      domain +:+ ".evil.com";
      "attacker-" +:+ pretty (attacker_id r) +:+ ".com"]);
    ("X-Original-URL",
     ["/admin"; "/wp-admin"; "/.env"; "/api/internal"; "/graphql";
      "/actuator"; "/private"; "/dashboard"; "/" +:+ random_subdomain;
      "/api/v1/admin"]);
    ("X-HTTP-Host-Override",
     [domain; "evil.com"; random_subdomain +:+ "." +:+ domain;
      domain +:+ ":" +:+ random_port]);
    ("X-Forwarded-Scheme", ["http"; "https"; "ws"; "wss"]);
    ("X-Forwarded-Proto", ["http"; "https"; "ws"; "wss"]);
    ("X-Forwarded-For",
     ["127.0.0.1"; "192.168.0.1"; "10.0.0.1"; "172.16.0.1";
      "169.254.169.254";
      "10." +:+ pretty (octet1 r) +:+ "." +:+ pretty (octet2 r) +:+ "."
      +:+ pretty (octet3 r)]);
    ("X-Real-IP", ["127.0.0.1"; "localhost"; "192.168.0.1"; "169.254.169.254"]);
    ("X-Custom-IP-Authorization", ["127.0.0.1"; "192.168.0.1"; "10.0.0.1"]);
    ("X-Original-Host",
     [domain; "evil.com"; random_subdomain +:+ "." +:+ domain;
      domain +:+ ".evil.com"]);
    ("X-Originating-IP", ["127.0.0.1"; "192.168.0.1"; "169.254.169.254"]);
    ("CF-Connecting-IP", ["127.0.0.1"; "192.168.0.1"]);
    ("X-Cache-Control", ["no-cache"; "no-store"; "max-age=0"; "must-revalidate"]);
    ("X-Rewrite-URL",
     ["/admin"; "/internal"; "/api/private"; "/" +:+ random_subdomain]);
    ("X-Override-URL",
     ["/admin"; "/internal"; "/private"; "/" +:+ random_subdomain]);
    ("X-Client-IP", ["127.0.0.1"; "192.168.0.1"; "10.0.0.1"]);
    ("Client-IP", ["127.0.0.1"; "192.168.0.1"; "10.0.0.1"]);
    ("True-Client-IP", ["127.0.0.1"; "192.168.0.1"; "10.0.0.1"]) ].

(** [generate_payloads(target, output_file)], as the mapping it writes to
    [output_file]; [urlparse] may raise. *)
Definition generate_payloads `{UrlLib} (target : string) (r : payload_entropy)
  : option catalog :=
  match urlparse target with
  | Some parsed => Some (payload_headers (netloc parsed) r)
  | None => None
  end.

(** A line of the log that reports an error. *)
Definition error_line (e : event) : bool :=
  match e with
  | ELog level _ => String.eqb level "ERROR"
  | _ => false
  end.

(** The pause [test_cache_poisoning] makes after each header value. *)
Definition rate_pause (e : event) : bool :=
  match e with
  | ESleep seconds => (Qnum seconds =? 1)%Z && (Qden seconds =? 2)%positive
  | _ => false
  end.

(** The run from [w] to [w'] logged no error, made [n] rate-limiting pauses
    and at least one and at most three requests for each of them. *)
Definition tested (n : nat) (w w' : world) : Prop :=
  exists evs,
    events w' = (events w ++ evs)%list
    /\ List.filter error_line evs = []
    /\ List.length (List.filter rate_pause evs) = n
    /\ (nreq w + n <= nreq w' <= nreq w + 3 * n)%nat.

(** A transport that answers every request with status 200, and the
    payload file generated for the host example.com. *)
Definition env_generated : Env := {|
  net := fun _ _ => Answer (mkResponse 200 [] "ok");
  clock := fun _ => 1700000000%N;
  urandom_hex := fun _ => "deadbeef";
  payload_files := fun _ =>
    Ok (payload_headers "example.com" (mkEntropy 8080 "abcdefgh" 1234 1 2 3))
|}.

(** * Properties *)

#[local] Arguments String.append !_ _ / : simpl nomatch.

(** ** Strings *)

Section StringFacts.

Lemma append_assoc (a b c : string) : (a +:+ b) +:+ c = a +:+ (b +:+ c).
Proof. induction a as [|x a IH]; simpl; [reflexivity | now rewrite IH]. Qed.

Lemma append_nil_r (a : string) : a +:+ "" = a.
Proof. induction a as [|x a IH]; simpl; [reflexivity | now rewrite IH]. Qed.

Lemma lower_append (a b : string) :
  Py.lower (a +:+ b) = Py.lower a +:+ Py.lower b.
Proof. induction a as [|x a IH]; simpl; [reflexivity | now rewrite IH]. Qed.

(** A split of the lower-case form is the lower-case form of a split. *)
Lemma lower_split (s a b : string) :
  Py.lower s = a +:+ b ->
  exists s1 s2, s = s1 +:+ s2 /\ Py.lower s1 = a /\ Py.lower s2 = b.
Proof.
  revert s; induction a as [|x a IH]; intros s Hs.
  - exists "", s. auto.
  - destruct s as [|c s]; simpl in Hs; [discriminate|].
    injection Hs as Hc Hs. destruct (IH _ Hs) as (s1 & s2 & -> & H1 & H2).
    exists (String c s1), s2. simpl. now rewrite Hc, H1.
Qed.

Lemma startswith_spec (s p : string) :
  Py.startswith s p = true <-> exists post, s = p +:+ post.
Proof.
  revert s; induction p as [|x p IH]; intros s; simpl.
  - split; [intros _; now exists s | reflexivity].
  - destruct s as [|c s].
    + split; [discriminate | intros [post H]; discriminate].
    + rewrite andb_true_iff, Ascii.eqb_eq, IH. split.
      * intros [-> [post ->]]. now exists post.
      * intros [post H]. injection H as -> ->. eauto.
Qed.

(** [Py.contains] decides the substring relation. *)
Lemma contains_spec (needle hay : string) :
  Py.contains needle hay = true <->
  exists pre post, hay = pre +:+ needle +:+ post.
Proof.
  induction hay as [|c hay IH]; simpl.
  - rewrite orb_false_r, startswith_spec. split.
    + intros [post H]. now exists "", post.
    + intros (pre & post & H). destruct pre; simpl in H; [eauto | discriminate].
  - rewrite orb_true_iff, startswith_spec, IH. split.
    + intros [[post H] | (pre & post & H)].
      * now exists "", post.
      * exists (String c pre), post. simpl. now rewrite H.
    + intros (pre & post & H). destruct pre as [|x pre]; simpl in H.
      * left. eauto.
      * right. injection H as _ H. eauto.
Qed.

(** The test of the source, [payload.lower() in location.lower()], is the
    case-insensitive substring relation. *)
Lemma contains_lower_spec (needle hay : string) :
  Py.contains (Py.lower needle) (Py.lower hay) = true <->
  ci_substring needle hay.
Proof.
  rewrite contains_spec. unfold ci_substring. split.
  - intros (pre & post & H).
    apply lower_split in H as (s1 & s23 & -> & H1 & H23).
    apply lower_split in H23 as (s2 & s3 & -> & H2 & H3).
    now exists s1, s2, s3.
  - intros (pre & mid & post & -> & Hm).
    exists (Py.lower pre), (Py.lower post).
    now rewrite !lower_append, Hm.
Qed.

Lemma ci_substring_empty (hay : string) : ci_substring "" hay.
Proof. now exists "", "", hay. Qed.

Lemma not_ci_substring_of_empty (needle : string) :
  needle <> "" -> ~ ci_substring needle "".
Proof.
  intros Hne (pre & mid & post & H & Hm).
  destruct pre; [|discriminate]. destruct mid; [|discriminate].
  destruct needle; [congruence | discriminate].
Qed.

Lemma truthy_true (s : string) : Py.truthy s = true <-> s <> "".
Proof. destruct s; simpl; split; congruence. Qed.

Lemma truthy_false (s : string) : Py.truthy s = false <-> s = "".
Proof. destruct s; simpl; split; congruence. Qed.

Lemma rstripped_cons p c s : rstripped p s -> s <> "" -> rstripped p (String c s).
Proof.
  unfold rstripped; intros Hs Hne; simpl. rewrite Hs.
  destruct s; [congruence | reflexivity].
Qed.

Lemma rstripped_tail p c s : rstripped p (String c s) -> rstripped p s.
Proof.
  unfold rstripped; simpl. destruct (Py.rstrip_with p s) as [|d r] eqn:E.
  - destruct (p c); [discriminate|]. intros H; now injection H as <-.
  - intros H; now injection H.
Qed.

Lemma rstripped_drop p n s : rstripped p s -> rstripped p (Py.drop n s).
Proof.
  revert s; induction n as [|n IH]; intros s Hs; simpl; [assumption|].
  destruct s as [|c s]; [assumption|]. apply IH. eapply rstripped_tail, Hs.
Qed.

Lemma rstrip_rstripped p s : rstripped p (Py.rstrip_with p s).
Proof.
  induction s as [|c s IH]; [reflexivity|]. simpl.
  destruct (Py.rstrip_with p s) as [|d r] eqn:E.
  - destruct (p c) eqn:Hc; [reflexivity|]. unfold rstripped; simpl. now rewrite Hc.
  - apply rstripped_cons; [assumption | discriminate].
Qed.

Lemma strip_scheme_rstripped p s : rstripped p s -> rstripped p (strip_scheme s).
Proof.
  intros Hs. unfold strip_scheme.
  destruct (Py.startswith s "https://"); [now apply rstripped_drop|].
  destruct (Py.startswith s "http://"); [now apply rstripped_drop | assumption].
Qed.

Lemma rstripped_https (r : string) :
  rstripped Py.is_space r -> rstripped Py.is_space ("https://" +:+ r).
Proof.
  intros Hr. destruct r as [|c r].
  - reflexivity.
  - simpl. repeat (apply rstripped_cons; [|discriminate]). exact Hr.
Qed.

End StringFacts.

(** ** C8: [normalize_url] *)

Lemma urlsplit_https_scheme (r default_scheme : string) :
  match urllib.urlsplit ("https://" +:+ r) default_scheme with
  | Some (sch, _, _, _, _) => sch = "https"
  | None => True
  end.
Proof.
  unfold urllib.urlsplit.
  replace (Py.lstrip_with urllib.c0_or_space ("https://" +:+ r))
    with ("https://" +:+ r) by reflexivity.
  replace (urllib.remove_unsafe ("https://" +:+ r))
    with ("https://" +:+ urllib.remove_unsafe r) by reflexivity.
  replace (Py.partition ":" ("https://" +:+ urllib.remove_unsafe r))
    with ("https", Some ("//" +:+ urllib.remove_unsafe r)) by reflexivity.
  replace (Py.is_alpha "h" && urllib.all_chars urllib.scheme_char "https")
    with true by reflexivity.
  cbv iota beta.
  destruct (if Py.startswith _ "//" then _ else _) as [nl rest].
  destruct (negb (urllib.brackets_ok nl)); [exact I|].
  destruct (Py.partition "#" rest) as [u [fr|]];
    destruct (Py.partition "?" u) as [u' [q|]]; reflexivity.
Qed.

(** C8. [normalize_url] is idempotent, its result starts with the https
    scheme prefix, and wherever the URL parser accepts the result it reports
    the scheme https. *)
Theorem normalize_url_idempotent_https (T : string) :
  normalize_url (normalize_url T) = normalize_url T
  /\ Py.startswith (normalize_url T) "https://" = true
  /\ match urlparse (normalize_url T) with
     | Some parsed => scheme parsed = "https"
     | None => True
     end.
Proof.
  unfold normalize_url.
  set (r := strip_scheme (Py.strip T)).
  assert (Hr : rstripped Py.is_space r).
  { apply strip_scheme_rstripped, rstrip_rstripped. }
  split; [|split].
  - f_equal. unfold Py.strip.
    change (Py.lstrip_with Py.is_space ("https://" +:+ r)) with ("https://" +:+ r).
    rewrite (rstripped_https r Hr). reflexivity.
  - reflexivity.
  - cbv [urlparse cpython_urllib]. unfold urllib.urlparse_with.
    pose proof (urlsplit_https_scheme r "") as Hs.
    destruct (urllib.urlsplit ("https://" +:+ r) "") as [[[[[sch nl] u] q] f]|];
      [|exact I].
    subst sch. destruct (_ && _); [destruct (urllib.splitparams u)|]; reflexivity.
Qed.

(** ** C6: reflection detection *)

Lemma reflection_flag_spec (response_text payload_value location : string)
    (d : reflection_details) :
  validate_response_reflection response_text payload_value (Some location)
    = Details d ->
  location_reflection d = true <->
  Py.contains (Py.lower payload_value) (Py.lower location) = true.
Proof.
  unfold validate_response_reflection.
  destruct (Py.truthy payload_value) eqn:Hp; simpl; [|discriminate].
  destruct location as [|c l]; simpl Py.truthy; cbv iota.
  - intros [= <-]. cbn [location_reflection]. split; [discriminate|].
    intros Hc. apply contains_lower_spec in Hc.
    apply not_ci_substring_of_empty in Hc; [contradiction|].
    now apply truthy_true.
  - destruct (Py.contains _ _); intros [= <-]; simpl; tauto.
Qed.

(** C6 (as amended).  For a non-empty injected value the detector reports a
    Location reflection exactly when the value is a case-insensitive
    substring of the Location header; for an empty injected value it reports
    none; and it reports none when the Location header is absent or empty. *)
Theorem reflection_detection_spec
    (response_text payload_value : string) (location_header : option string) :
  let reported :=
    reported_reflection
      (validate_response_reflection response_text payload_value location_header) in
  (payload_value <> "" ->
     (reported = true <->
      exists location,
        location_header = Some location /\ ci_substring payload_value location))
  /\ (payload_value = "" -> reported = false)
  /\ (location_header = None \/ location_header = Some "" -> reported = false).
Proof.
  cbv zeta. split; [|split].
  - intros Hne.
    destruct location_header as [location|].
    + destruct (validate_response_reflection response_text payload_value
                  (Some location)) as [|d] eqn:E.
      * unfold validate_response_reflection in E.
        apply truthy_true in Hne. rewrite Hne in E. discriminate.
      * simpl. rewrite (reflection_flag_spec _ _ _ _ E), contains_lower_spec.
        split; [eauto | now intros (l & [= <-] & Hl)].
    + unfold validate_response_reflection.
      apply truthy_true in Hne. rewrite Hne. simpl.
      split; [discriminate | now intros (l & Hl & _)].
  - intros ->. reflexivity.
  - unfold validate_response_reflection.
    destruct (Py.truthy payload_value); [|reflexivity].
    intros [-> | ->]; reflexivity.
Qed.

Lemma reflection_detection_witness :
  "evil.com" <> ""
  /\ reported_reflection
       (validate_response_reflection "" "evil.com"
          (Some "https://EVIL.com/dashboard")) = true.
Proof.
  split; [discriminate|].
  apply (proj1 (reflection_detection_spec "" "evil.com"
                  (Some "https://EVIL.com/dashboard"))).
  - discriminate.
  - exists "https://EVIL.com/dashboard". split; [reflexivity|].
    exists "https://", "EVIL.com", "/dashboard". split; reflexivity.
Defined.

(** C6 as stated fails on the empty injected value: it is a substring of
    every Location header, and no reflection is reported. *)
Lemma reflection_detection_empty_value :
  ~ (reported_reflection
       (validate_response_reflection "" "" (Some "https://example.com/a")) = true
     <-> ci_substring "" "https://example.com/a").
Proof.
  intros [_ H]. specialize (H (ci_substring_empty _)). discriminate H.
Qed.

(** ** C1: comparing a response with itself *)

Section Compare.
Context `{DiffLib}.

(** Any non-empty payload makes the unpacking of the three-key dict fail. *)
Lemma compare_responses_raises (baseline test_response : captured)
    (payload_value : string) (threshold : Q) :
  payload_value <> "" ->
  compare_responses baseline test_response payload_value threshold
  = Raise (ValueError "too many values to unpack (expected 2)").
Proof.
  intros Hne. unfold compare_responses, validate_response_reflection.
  apply truthy_true in Hne. rewrite Hne. reflexivity.
Qed.

(** With the empty payload the comparison goes through, and a response
    compared with itself is not different and scores 1, provided the
    sequence matcher scores 1 on equal texts. *)
Lemma compare_responses_self_empty_payload (r : captured) (threshold : Q) :
  ratio (Py.take 1000 (content r)) (Py.take 1000 (content r)) = 1%Q ->
  exists d,
    compare_responses r r "" threshold = Ok (false, d)
    /\ similarity_score d = 1%Q.
Proof.
  intros Hratio. unfold compare_responses.
  assert (Hh : List.filter (header_differs (headers r) (headers r))
                 important_headers = []).
  { unfold important_headers, header_differs. simpl.
    repeat (rewrite bool_decide_eq_true_2 by reflexivity; simpl). reflexivity. }
  rewrite Hh, !Z.sub_diag.
  assert (Hl : (if (0 <? length r)%Z
                then Qltb (15 # 100)
                       (inject_Z (Z.abs 0) / inject_Z (length r))
                else false) = false).
  { destruct (length r) as [|p|p]; reflexivity. }
  rewrite Hl.
  change (validate_response_reflection (content r) "" (Some (content r)))
    with Tuple_False_None.
  cbv iota zeta. eexists. split; [reflexivity|].
  cbn [similarity_score].
  destruct (Py.truthy (content r)); simpl; [exact Hratio | reflexivity].
Qed.

(** C1.  On the payload value evil.com, comparing a response with itself
    does not return: the unpacking of the detector's result raises
    [ValueError]. *)
Theorem compare_responses_self_raises (r : captured) :
  compare_responses r r "evil.com" default_threshold
  = Raise (ValueError "too many values to unpack (expected 2)").
Proof. apply compare_responses_raises. discriminate. Qed.

End Compare.

(** ** The verifier: C7, C10 *)

Section VerifierFacts.
Context `{Env}.

Lemma gets_app (a b : list event) : gets (a ++ b) = (gets a ++ gets b)%list.
Proof.
  induction a as [|e a IH]; [reflexivity|].
  destruct e; simpl; now rewrite IH.
Qed.

Lemma probe_once_cases (url header_name header_value : string) (timeout : Z)
    (results : list probe) (cb : string) (w : world) :
  let rq := mkRequest (url +:+ "?" +:+ cb)
              (probe_headers header_name header_value) timeout false in
  exists evs,
    events (snd (probe_once url header_name header_value timeout results cb w))
      = (events w ++ EGet rq :: evs)%list
    /\ gets evs = []
    /\ match fst (probe_once url header_name header_value timeout results cb w) with
       | Ok results' =>
           results' = results
           \/ exists p, results' = (results ++ [p])%list
                        /\ reflecting header_value p
       | Raise e =>
           header_value = ""
           /\ e = TypeError "tuple indices must be integers or slices, not str"
       end.
Proof.
  cbv zeta. unfold probe_once, try_except_request, bind, requests_get.
  cbn [events nreq ndraw discovered_urls].
  destruct (net (nreq w) _) as [resp | msg].
  - destruct (status_code resp =? 302)%Z eqn:Hs.
    + destruct (validate_response_reflection (text resp) header_value
                  (Some (headers_get (resp_headers resp) "Location" "")))
        as [|d] eqn:E.
      * exists []. cbn. split; [reflexivity|]. split; [reflexivity|].
        split; [|reflexivity].
        unfold validate_response_reflection in E.
        destruct (Py.truthy header_value) eqn:Ht; [discriminate|].
        now apply truthy_false.
      * destruct (location_reflection d) eqn:Hd.
        -- exists [ESleep 1]. cbn. rewrite <- app_assoc.
           split; [reflexivity|]. split; [reflexivity|].
           right. eexists. split; [reflexivity|]. split; cbn.
           ++ now apply Z.eqb_eq.
           ++ now apply (reflection_flag_spec _ _ _ _ E).
        -- exists [ESleep 1]. cbn. rewrite <- app_assoc.
           split; [reflexivity|]. split; [reflexivity|]. now left.
    + exists [ESleep 1]. cbn. rewrite <- app_assoc.
      split; [reflexivity|]. split; [reflexivity|]. now left.
  - exists []. cbn. split; [reflexivity|]. split; [reflexivity|]. now left.
Qed.

Lemma probe_loop_cases (url header_name header_value : string) (timeout : Z)
    (cbs : list string) :
  forall (results : list probe) (w : world),
  exists evs,
    events (snd (probe_loop url header_name header_value timeout results cbs w))
      = (events w ++ evs)%list
    /\ (cbs <> [] -> gets evs <> [])
    /\ match fst (probe_loop url header_name header_value timeout results cbs w) with
       | Ok results' =>
           exists new, results' = (results ++ new)%list
                       /\ Forall (reflecting header_value) new
       | Raise e =>
           header_value = ""
           /\ e = TypeError "tuple indices must be integers or slices, not str"
       end.
Proof.
  induction cbs as [|cb cbs IH]; intros results w.
  - exists []. cbn. rewrite !app_nil_r. split; [reflexivity|].
    split; [congruence|]. exists []. now rewrite app_nil_r.
  - cbn [probe_loop]. unfold bind.
    destruct (probe_once_cases url header_name header_value timeout results cb w)
      as (evs1 & Hev1 & Hg1 & Hres1).
    destruct (probe_once url header_name header_value timeout results cb w)
      as [[results1 | e] w1]; cbn [fst snd] in *.
    + destruct (IH results1 w1) as (evs2 & Hev2 & _ & Hres2).
      exists (EGet (mkRequest (url +:+ "?" +:+ cb)
                      (probe_headers header_name header_value) timeout false)
              :: evs1 ++ evs2)%list.
      split; [|split].
      * rewrite Hev2, Hev1, <- app_assoc. reflexivity.
      * intros _. discriminate.
      * destruct (fst (probe_loop _ _ _ _ results1 cbs w1)) as [rs | e];
          [|exact Hres2].
        destruct Hres2 as (new & -> & Hnew).
        destruct Hres1 as [-> | (p & -> & Hp)].
        -- now exists new.
        -- exists (p :: new). rewrite <- app_assoc. split; [reflexivity|].
           now constructor.
    + eexists. split; [exact Hev1|]. split; [intros _; discriminate | exact Hres1].
Qed.

Lemma cache_buster_run (i : nat) (w : world) :
  exists cb,
    cache_buster i w
    = (Ok cb, mkWorld (events w) (nreq w) (S (ndraw w)) (discovered_urls w)).
Proof.
  unfold cache_buster, bind, draw_entropy, ret. cbn. eexists. reflexivity.
Qed.


(** The verifier, case by case. *)
Lemma verify_cases (url header_name header_value : string) (timeout : Z)
    (w : world) :
  exists cb0 cb1 cb2,
    let rq0 := mkRequest (url +:+ "?cb=" +:+ cb0)
                 [("User-Agent", USER_AGENT)] timeout false in
    let w1 := mkWorld (events w ++ [EGet rq0])%list (S (nreq w))
                      (S (S (S (ndraw w)))) (discovered_urls w) in
    verify_302_poisoning url header_name header_value timeout w
    = match net (nreq w) rq0 with
      | Failure msg =>
          (Ok (Rejected ("Error during verification: " +:+ msg)), w1)
      | Answer baseline =>
          if (status_code baseline =? 302)%Z
             && Py.contains (Py.lower header_value)
                  (Py.lower (headers_get (resp_headers baseline) "Location" ""))
          then (Ok (Rejected "Baseline already contains payload in redirect"), w1)
          else
            match probe_loop url header_name header_value timeout []
                             [cb1; cb2] w1 with
            | (Ok results, w2) => (Ok (validate_results results), w2)
            | (Raise (RequestException msg), w2) =>
                (Ok (Rejected ("Error during verification: " +:+ msg)), w2)
            | (Raise e, w2) => (Raise e, w2)
            end
      end.
Proof.
  unfold verify_302_poisoning.
  destruct (cache_buster_run 0 w) as [cb0 H0].
  unfold bind at 1. rewrite H0.
  destruct (cache_buster_run 1 (mkWorld (events w) (nreq w) (S (ndraw w))
                                  (discovered_urls w))) as [cb1 H1].
  unfold bind at 1. rewrite H1. cbn [events nreq ndraw discovered_urls].
  unfold bind at 1.
  match goal with |- context [cache_buster 2 ?w2] =>
    destruct (cache_buster_run 2 w2) as [cb2 H2] end.
  rewrite H2. cbn [events nreq ndraw discovered_urls].
  exists cb0, cb1, cb2. cbv zeta.
  unfold try_except_request, bind at 1, requests_get.
  cbn [events nreq ndraw discovered_urls].
  destruct (net (nreq w) _) as [baseline | msg]; [|reflexivity].
  destruct (_ && _); [reflexivity|].
  unfold bind at 1.
  destruct (probe_loop _ _ _ _ _ _ _) as [[rs | e] w2]; [reflexivity|].
  destruct e; reflexivity.
Qed.

Lemma locations_identical_spec (results : list probe) :
  locations_identical results = true <->
  results <> []
  /\ forall a b, a ∈ results -> b ∈ results -> p_location a = p_location b.
Proof.
  unfold locations_identical. rewrite Nat.eqb_eq. split.
  - intros Hsz. split.
    + intros ->. cbn [List.map] in Hsz.
      rewrite list_to_set_nil, size_empty in Hsz. discriminate.
    + apply size_1_elem_of in Hsz as [x Hx].
      assert (Hall : forall a, a ∈ results -> p_location a = x).
      { intros a Ha.
        assert (p_location a ∈ (list_to_set (List.map p_location results)
                                : gset string)) as Hin.
        { apply elem_of_list_to_set, list_elem_of_In, in_map, list_elem_of_In, Ha. }
        rewrite Hx in Hin. now apply elem_of_singleton in Hin. }
      intros a b Ha Hb. now rewrite (Hall a Ha), (Hall b Hb).
  - intros [Hne Hall]. destruct results as [|r rs]; [congruence|].
    assert (Heq : (list_to_set (List.map p_location (r :: rs)) : gset string)
                  = {[p_location r]}).
    { apply set_eq. intros y. rewrite elem_of_list_to_set, elem_of_singleton.
      rewrite list_elem_of_In, in_map_iff. split.
      - intros (a & <- & Ha). apply Hall; [now apply list_elem_of_In | left].
      - intros ->. exists r. split; [reflexivity | now left]. }
    rewrite Heq. apply size_singleton.
Qed.

Lemma validate_results_verified (results : list probe) (r : probe) :
  validate_results results = Verified r <->
  (2 <= List.length results)%nat
  /\ (forall a b, a ∈ results -> b ∈ results -> p_location a = p_location b)
  /\ head results = Some r.
Proof.
  unfold validate_results. split.
  - destruct (2 <=? List.length results)%nat eqn:Hlen; [|discriminate].
    destruct (locations_identical results) eqn:Hid; [|discriminate].
    destruct results as [|r0 rs]; [discriminate|]. intros [= <-].
    apply Nat.leb_le in Hlen. apply locations_identical_spec in Hid as [_ Hid].
    auto.
  - intros (Hlen & Hall & Hhd).
    destruct results as [|r0 rs]; [discriminate|]. injection Hhd as ->.
    apply Nat.leb_le in Hlen. rewrite Hlen.
    assert (locations_identical (r :: rs) = true) as ->; [|reflexivity].
    apply locations_identical_spec. split; [discriminate | exact Hall].
Qed.

Lemma validate_results_rejected (results : list probe) :
  (forall r, validate_results results <> Verified r) ->
  validate_results results
  = Rejected "Inconsistent or insufficient 302 responses".
Proof.
  unfold validate_results.
  destruct (2 <=? List.length results)%nat; [|reflexivity].
  destruct (locations_identical results); [|reflexivity].
  destruct results as [|r rs]; [reflexivity|]. intros Hn. now destruct (Hn r).
Qed.

End VerifierFacts.

(** C10.  A finding returned by the verifier has status code 302, and the
    injected header value is a case-insensitive substring of its location. *)
Theorem verified_finding_is_reflected_302 `{Env}
    (url header_name header_value : string) (timeout : Z) (w w' : world)
    (result : probe) :
  verify_302_poisoning url header_name header_value timeout w
    = (Ok (Verified result), w') ->
  p_status_code result = 302%Z
  /\ ci_substring header_value (p_location result).
Proof.
  intros Hrun.
  destruct (verify_cases url header_name header_value timeout w)
    as (cb0 & cb1 & cb2 & Hv). cbv zeta in Hv. rewrite Hv in Hrun. clear Hv.
  destruct (net (nreq w) _) as [baseline | msg]; [|discriminate].
  destruct (_ && _); [discriminate|].
  match type of Hrun with context [probe_loop ?u ?n ?v ?t ?r ?c ?w1] =>
    destruct (probe_loop_cases u n v t c r w1) as (evs & _ & _ & Hres);
    destruct (probe_loop u n v t r c w1) as [[rs | e] w2] end;
    [|destruct e; discriminate].
  cbn [fst] in Hres. destruct Hres as (new & -> & Hnew).
  injection Hrun as Hval _.
  apply validate_results_verified in Hval as (_ & _ & Hhd).
  cbn [app] in Hhd. destruct new as [|p new]; [discriminate|].
  injection Hhd as ->. apply Forall_inv in Hnew as [Hs Hc].
  split; [exact Hs | now apply contains_lower_spec].
Qed.

Lemma verified_finding_witness :
  exists result w',
    @verify_302_poisoning Stub.env_poisoned "https://example.com/login"
       "X-Forwarded-Host" "evil.com" 10 world0 = (Ok (Verified result), w')
    /\ p_status_code result = 302%Z
    /\ ci_substring "evil.com" (p_location result).
Proof.
  eexists. eexists. split; [vm_compute; reflexivity|].
  eapply (@verified_finding_is_reflected_302 Stub.env_poisoned
            "https://example.com/login" "X-Forwarded-Host" "evil.com" 10 world0).
  vm_compute. reflexivity.
Defined.

(** C7.  The verifier issues the baseline request first, and it issues no
    probe request exactly when the baseline fetch fails or the baseline is a
    302 whose Location holds the payload value without regard to case; in
    both cases the verdict is a rejection, and a run that issues a probe
    never ends in a baseline-stage rejection. *)
Theorem baseline_stage_rejections `{Env}
    (url header_name header_value : string) (timeout : Z) (w : world) :
  let run := verify_302_poisoning url header_name header_value timeout w in
  exists cb0 probes,
    let rq0 := mkRequest (url +:+ "?cb=" +:+ cb0)
                 [("User-Agent", USER_AGENT)] timeout false in
    let ambient baseline :=
      status_code baseline = 302%Z
      /\ ci_substring header_value
           (headers_get (resp_headers baseline) "Location" "") in
    gets (events (snd run)) = (gets (events w) ++ rq0 :: probes)%list
    /\ (probes = [] <->
        (exists msg, net (nreq w) rq0 = Failure msg)
        \/ (exists baseline, net (nreq w) rq0 = Answer baseline
                             /\ ambient baseline))
    /\ (forall msg, net (nreq w) rq0 = Failure msg ->
        fst run = Ok (Rejected ("Error during verification: " +:+ msg)))
    /\ (forall baseline, net (nreq w) rq0 = Answer baseline ->
        ambient baseline ->
        fst run = Ok (Rejected "Baseline already contains payload in redirect"))
    /\ (probes <> [] -> forall v, fst run = Ok v -> ~ baseline_rejection v).
Proof.
  cbv zeta.
  destruct (verify_cases url header_name header_value timeout w)
    as (cb0 & cb1 & cb2 & Hv). cbv zeta in Hv. rewrite Hv. clear Hv.
  exists cb0.
  set (rq0 := mkRequest (url +:+ "?cb=" +:+ cb0) [("User-Agent", USER_AGENT)]
                        timeout false).
  assert (Hcond : forall baseline,
             (status_code baseline =? 302)%Z
             && Py.contains (Py.lower header_value)
                  (Py.lower (headers_get (resp_headers baseline) "Location" ""))
             = true <->
             status_code baseline = 302%Z
             /\ ci_substring header_value
                  (headers_get (resp_headers baseline) "Location" "")).
  { intros b. now rewrite andb_true_iff, Z.eqb_eq, contains_lower_spec. }
  destruct (net (nreq w) rq0) as [baseline | msg] eqn:Hnet.
  - destruct (_ && _) eqn:Hc.
    + exists []. cbn [fst snd events]. rewrite gets_app. cbn [gets].
      apply Hcond in Hc.
      split; [reflexivity|]. split; [|split; [|split]].
      * split; [|reflexivity]. intros _. right. eauto.
      * discriminate.
      * intros; reflexivity.
      * congruence.
    + match goal with |- context [probe_loop ?u ?n ?v ?t ?r ?c ?w1] =>
        destruct (probe_loop_cases u n v t c r w1) as (evs & Hev & Hg & Hres);
        destruct (probe_loop u n v t r c w1) as [[rs | e] w2] end;
        cbn [fst snd events] in Hev, Hres.
      * exists (gets evs). cbn [fst snd]. rewrite Hev, !gets_app. cbn [gets].
        rewrite <- app_assoc. split; [reflexivity|].
        assert (Hne : gets evs <> []) by (apply Hg; discriminate).
        split; [|split; [|split]].
        -- split; [contradiction|].
           intros [[msg Hm] | (b & [= <-] & Hb)]; [discriminate|].
           apply Hcond in Hb. congruence.
        -- discriminate.
        -- intros b [= <-] Hb. apply Hcond in Hb. congruence.
        -- intros _ v [= <-] [Hb | [msg Hb]].
           ++ unfold validate_results in Hb.
              repeat match type of Hb with
                     | context [if ?c then _ else _] => destruct c
                     | context [match ?l with [] => _ | _ :: _ => _ end] =>
                         destruct l
                     end; discriminate.
           ++ unfold validate_results in Hb.
              repeat match type of Hb with
                     | context [if ?c then _ else _] => destruct c
                     | context [match ?l with [] => _ | _ :: _ => _ end] =>
                         destruct l
                     end; discriminate.
      * destruct Hres as [-> ->].
        exists (gets evs). cbn [fst snd]. rewrite Hev, !gets_app. cbn [gets].
        rewrite <- app_assoc. split; [reflexivity|].
        assert (Hne : gets evs <> []) by (apply Hg; discriminate).
        split; [|split; [|split]].
        -- split; [contradiction|].
           intros [[msg Hm] | (b & [= <-] & Hb)]; [discriminate|].
           apply Hcond in Hb. congruence.
        -- discriminate.
        -- intros b [= <-] Hb. apply Hcond in Hb. congruence.
        -- intros _ v. discriminate.
  - exists []. cbn [fst snd events]. rewrite gets_app. cbn [gets].
    split; [reflexivity|]. split; [|split; [|split]].
    + split; [|reflexivity]. intros _. left. eauto.
    + now intros msg' [= <-].
    + discriminate.
    + congruence.
Qed.

Lemma baseline_stage_witness :
  "evil.com" <> ""
  /\ exists cb0 probes,
       gets (events (snd (@verify_302_poisoning Stub.env_ambient
                            "https://example.com/login" "X-Forwarded-Host"
                            "evil.com" 10 world0)))
       = mkRequest ("https://example.com/login" +:+ "?cb=" +:+ cb0)
                   [("User-Agent", USER_AGENT)] 10 false :: probes
       /\ probes = [].
Proof.
  split; [discriminate|].
  destruct (@baseline_stage_rejections Stub.env_ambient
              "https://example.com/login" "X-Forwarded-Host" "evil.com" 10 world0)
    as (cb0 & probes & Hg & Hiff & _).
  exists cb0, probes. split; [exact Hg|].
  apply Hiff. right. eexists. split; [reflexivity|].
  split; [reflexivity|].
  exists "https://", "Evil.com", "/". split; reflexivity.
Defined.

(** C9.  The scan mode has no influence on a run of [test_cache_poisoning]:
    with the same URL, files, timeout, environment and starting world, two
    modes give the same result and the same final world, hence the same
    requests, delays, appended records and log lines. *)
Theorem scan_mode_invariance `{Env}
    (url payloads_file output_file : string) (timeout : Z)
    (mode1 mode2 : scan_mode) (w : world) :
  test_cache_poisoning url payloads_file output_file mode1 timeout w
  = test_cache_poisoning url payloads_file output_file mode2 timeout w.
Proof. reflexivity. Qed.

(** ** URL discovery: C2, C3, C5 *)

#[local] Set Warnings "-clear-no-such-hyp".

Section Traces.

Lemma adds_app (a b : list event) : adds (a ++ b) = adds a ∪ adds b.
Proof.
  induction a as [|e a IH]; cbn [app adds].
  - set_solver.
  - destruct e; rewrite ?IH; set_solver.
Qed.

Lemma size_adds (evs : list event) : (size (adds evs) <= List.length evs)%nat.
Proof.
  induction evs as [|e evs IH]; cbn [adds List.length].
  - rewrite size_empty. lia.
  - destruct e; try lia.
    rewrite size_union_alt, size_singleton.
    assert (size (adds evs ∖ {[url]}) <= size (adds evs))%nat
      by (apply subseteq_size; set_solver).
    lia.
Qed.

Lemma capped_nil (D : gset string) : capped D [].
Proof.
  intros pre post Heq _. symmetry in Heq.
  apply app_eq_nil in Heq as [_ ->]. reflexivity.
Qed.

Lemma capped_app (D : gset string) (e1 e2 : list event) :
  capped D e1 -> capped (adds e1 ∪ D) e2 -> capped D (e1 ++ e2).
Proof.
  intros H1 H2 pre post Heq Hsz.
  apply app_eq_app in Heq as [l [[-> ->] | [-> ->]]].
  - (* the cut lies in [e1] *)
    rewrite gets_app. rewrite (H1 pre l eq_refl Hsz). cbn [app].
    apply (H2 [] e2 eq_refl). cbn [adds].
    etransitivity; [exact Hsz|]. apply subseteq_size.
    rewrite adds_app. set_solver.
  - (* the cut lies in [e2] *)
    apply (H2 l post eq_refl).
    rewrite adds_app in Hsz.
    replace (adds l ∪ (adds e1 ∪ D)) with (adds e1 ∪ adds l ∪ D)
      by set_solver.
    exact Hsz.
Qed.

Lemma capped_add (D : gset string) (u : string) : capped D [EAdd u].
Proof.
  intros pre post Heq _.
  destruct pre as [|e pre]; cbn [app] in Heq.
  - now subst post.
  - injection Heq as _ Heq. symmetry in Heq.
    apply app_eq_nil in Heq as [_ ->]. reflexivity.
Qed.

Lemma capped_get (D : gset string) (r : request) (evs : list event) :
  (size D < MAX_URLS)%nat -> capped D evs -> capped D (EGet r :: evs).
Proof.
  intros Hsz Hc pre post Heq Hcap.
  destruct pre as [|e pre]; cbn [app] in Heq.
  - cbn [adds] in Hcap.
    replace (∅ ∪ D) with D in Hcap by set_solver. lia.
  - injection Heq as <- ->. cbn [adds] in Hcap. now apply (Hc pre post).
Qed.

End Traces.

Section DiscoveryFacts.
Context `{UrlLib} `{Env}.

Lemma tracks_silent {A} (c : M A) (w : world) :
  snd (c w) = w -> tracks c w capped.
Proof.
  intros Hw. exists []. rewrite Hw, app_nil_r. cbn [adds].
  split; [reflexivity|]. split; [set_solver | apply capped_nil].
Qed.

Lemma tracks_bind {A B} (c : M A) (k : A -> M B) (w : world) :
  tracks c w capped ->
  (forall a w1, c w = (Ok a, w1) -> tracks (k a) w1 capped) ->
  tracks (bind c k) w capped.
Proof.
  intros (e1 & Hev1 & Hd1 & Hc1) Hk. unfold tracks, bind.
  destruct (c w) as [[a | e] w1] eqn:Hcw; cbn [snd] in *; cbv beta iota.
  - destruct (Hk a w1 eq_refl) as (e2 & Hev2 & Hd2 & Hc2).
    exists (e1 ++ e2)%list. split; [|split].
    + rewrite Hev2, Hev1, app_assoc. reflexivity.
    + rewrite Hd2, Hd1, adds_app. set_solver.
    + apply capped_app; [exact Hc1|]. now rewrite <- Hd1.
  - exists e1. auto.
Qed.

Lemma tracks_for_each {A} (body : A -> M unit) (l : list A) :
  (forall x w, tracks (body x) w capped) ->
  forall w, tracks (for_each l body) w capped.
Proof.
  intros Hbody. induction l as [|x l IH]; intros w; cbn [for_each].
  - now apply tracks_silent.
  - apply tracks_bind; [apply Hbody | intros _ w1 _; apply IH].
Qed.

Lemma tracks_add (u : string) (w : world) : tracks (add_discovered u) w capped.
Proof.
  exists [EAdd u]. cbn. split; [reflexivity|].
  split; [set_solver | apply capped_add].
Qed.

Lemma crawl_shape_capped (D : gset string) (evs : list event) :
  (size D < MAX_URLS)%nat -> crawl_shape D evs -> capped D evs.
Proof.
  intros Hsz [-> | (r & evs' & -> & Hc)];
    [apply capped_nil | now apply capped_get].
Qed.

Lemma tracks_try_pass {A} (body : M A) (a : A) (w : world)
    (Q : gset string -> list event -> Prop) :
  tracks body w Q -> tracks (try_except_request body (fun _ => ret a)) w Q.
Proof.
  unfold tracks, try_except_request.
  destruct (body w) as [[x | e] w1]; [auto|]. destruct e; auto.
Qed.

Lemma tracks_get_then (rq : request) (k : response -> M unit) (w : world) :
  (forall response w1, tracks (k response) w1 capped) ->
  tracks (bind (requests_get rq) k) w crawl_shape.
Proof.
  intros Hk. unfold tracks, bind, requests_get.
  set (w1 := mkWorld (events w ++ [EGet rq]) (S (nreq w)) (ndraw w)
                     (discovered_urls w)).
  destruct (net (nreq w) rq) as [response | msg]; cbv beta iota.
  - destruct (Hk response w1) as (e2 & Hev & Hd & Hc).
    exists (EGet rq :: e2). split; [|split].
    + rewrite Hev. subst w1. cbn [events]. now rewrite <- app_assoc.
    + rewrite Hd. reflexivity.
    + right. eauto.
  - exists [EGet rq]. cbn. split; [reflexivity|].
    split; [set_solver|]. right. eexists _, []. split; [reflexivity|].
    apply capped_nil.
Qed.

(** Every call of [crawl_url] issues its own request at most, then only
    requests made below the cap. *)
Lemma crawl_url_tracks (target target_domain : string) (timeout : Z)
    (fuel : nat) :
  forall (url : string) (depth max_depth : nat) (w : world),
    tracks (crawl_url fuel target target_domain timeout url depth max_depth)
           w crawl_shape.
Proof.
  induction fuel as [|fuel IH]; intros url depth max_depth w; cbn [crawl_url];
    destruct (max_depth <=? depth)%nat.
  1-3: exists []; cbn; rewrite app_nil_r;
       (split; [reflexivity|]); (split; [set_solver | now left]).
  apply tracks_try_pass, tracks_get_then. intros response w1.
    destruct (status_code response =? 200)%Z; [|now apply tracks_silent].
    apply tracks_for_each. intros found_url w2.
    apply tracks_bind.
    { apply tracks_silent.
      destruct (Py.startswith found_url "/");
        [destruct (urljoin target found_url); reflexivity|].
      destruct (_ || _); [reflexivity|].
      destruct (urljoin url found_url); reflexivity. }
    intros full_url w3 _.
    apply tracks_bind; [now apply tracks_silent|].
    intros discovered w4 [= _ <-].
    destruct (_ && _); [|now apply tracks_silent].
    apply tracks_bind; [apply tracks_add|].
    intros _ w5 _.
    apply tracks_bind; [now apply tracks_silent|].
    intros discovered' w6 [= <- <-].
    destruct (size (discovered_urls w5) <? MAX_URLS)%nat eqn:Hsz;
      [|now apply tracks_silent].
    destruct (depth <? max_depth - 1)%nat; [|now apply tracks_silent].
    apply Nat.ltb_lt in Hsz.
    destruct (IH full_url (depth + 1)%nat max_depth w5) as (evs & Hev & Hd & Hs).
    exists evs. split; [exact Hev|]. split; [exact Hd|].
    now apply crawl_shape_capped.
Qed.


Lemma bind_run {A B} (c : M A) (k : A -> M B) (w : world) :
  bind c k w
  = match c w with
    | (Ok a, w') => k a w'
    | (Raise e, w') => (Raise e, w')
    end.
Proof. reflexivity. Qed.

(** The loop over [common_endpoints] only adds. *)
Lemma seed_loop_run (f : string -> string) (l : list string) :
  forall w, exists evs w',
    for_each l (fun endpoint => add_discovered (f endpoint)) w = (Ok tt, w')
    /\ events w' = (events w ++ evs)%list
    /\ discovered_urls w' = adds evs ∪ discovered_urls w
    /\ gets evs = []
    /\ List.length evs = List.length l.
Proof.
  induction l as [|x l IH]; intros w; cbn [for_each].
  - exists [], w. rewrite app_nil_r. cbn.
    split; [reflexivity|]. split; [reflexivity|]. split; [set_solver | auto].
  - rewrite bind_run. unfold add_discovered at 1.
    match goal with |- context [for_each l _ ?w1] =>
      destruct (IH w1) as (evs & w' & Hrun & Hev & Hd & Hg & Hlen) end.
    exists (EAdd (f x) :: evs), w'. rewrite Hrun, Hev, Hd. cbn.
    rewrite <- app_assoc, Hg, Hlen.
    split; [reflexivity|]. split; [reflexivity|]. split; [set_solver | auto].
Qed.

Lemma capped_silent (D : gset string) (evs : list event) :
  gets evs = [] -> capped D evs.
Proof.
  intros Hg pre post -> _. rewrite gets_app in Hg.
  now apply app_eq_nil in Hg as [_ ?].
Qed.

(** The event log and the discovered set of a whole [discover_urls] run. *)
Lemma seed_size (evs : list event) :
  List.length evs = List.length common_endpoints ->
  (size (adds evs ∪ ∅) < MAX_URLS)%nat.
Proof.
  intros Hlen. rewrite union_empty_r_L.
  pose proof (size_adds evs) as Hle. rewrite Hlen in Hle.
  change (List.length common_endpoints) with 43%nat in Hle.
  unfold MAX_URLS. lia.
Qed.

(** What follows the reset of the set in [discover_urls]. *)
Lemma after_reset_tracks (target : string) (timeout : Z) (w0 : world) :
  discovered_urls w0 = ∅ ->
  tracks
    (bind (or_value_error (urlparse target)) (fun parsed_target =>
       bind (for_each common_endpoints (fun endpoint =>
               add_discovered
                 (normalize_path target
                    (target +:+ "/" +:+ endpoint +:+ "/"))))
         (fun _ =>
            bind (crawl_url 2 target (netloc parsed_target) timeout target 0 2)
              (fun _ =>
                 bind get_discovered (fun discovered =>
                   ret (elements
                          (filter_loop (netloc parsed_target)
                             (elements discovered) ∅)))))))
    w0 capped.
Proof.
  intros Hempty. apply tracks_bind.
  { apply tracks_silent. destruct (urlparse target); reflexivity. }
  intros parsed_target w1 Hrun1.
  assert (w1 = w0) as ->.
  { unfold or_value_error, ret, raise in Hrun1.
    destruct (urlparse target); [now injection Hrun1 | discriminate]. }
  clear Hrun1. apply tracks_bind.
  { apply tracks_for_each. intros endpoint w. apply tracks_add. }
  intros [] w2 Hrun2.
  destruct (seed_loop_run
              (fun endpoint =>
                 normalize_path target (target +:+ "/" +:+ endpoint +:+ "/"))
              common_endpoints w0)
    as (evs1 & w' & Hrun & _ & Hd1 & _ & Hlen1).
  rewrite Hrun in Hrun2. injection Hrun2 as ->. clear Hrun.
  rewrite Hempty in Hd1.
  assert (Hsz : (size (discovered_urls w2) < MAX_URLS)%nat)
    by (rewrite Hd1; now apply seed_size).
  apply tracks_bind.
  { destruct (crawl_url_tracks target (netloc parsed_target) timeout 2 target
                0 2 w2) as (evs2 & Hev2 & Hd2 & Hs2).
    exists evs2. split; [exact Hev2|]. split; [exact Hd2|].
    now apply crawl_shape_capped. }
  intros _ w3 _. apply tracks_bind; [now apply tracks_silent|].
  intros discovered w4 _. now apply tracks_silent.
Qed.

(** The event log and the discovered set of a whole [discover_urls] run. *)
Lemma discover_urls_tracks (target : string) (timeout : Z) (w : world) :
  exists evs,
    events (snd (discover_urls target timeout w)) = (events w ++ evs)%list
    /\ discovered_urls (snd (discover_urls target timeout w)) = adds evs
    /\ capped ∅ evs.
Proof.
  destruct (after_reset_tracks target timeout
              (mkWorld (events w) (nreq w) (ndraw w) ∅) eq_refl)
    as (evs & Hev & Hd & Hc).
  exists evs. cbn [events discovered_urls] in Hev, Hd, Hc.
  rewrite union_empty_r_L in Hd.
  split; [exact Hev|]. split; [exact Hd | exact Hc].
Qed.

Lemma size_add_le (u : string) (X : gset string) :
  (size ({[u]} ∪ X) <= S (size X))%nat.
Proof.
  rewrite size_union_alt, size_singleton.
  assert (size (X ∖ {[u]}) <= size X)%nat by (apply subseteq_size; set_solver).
  lia.
Qed.

(** The filtering loop never lets the kept set grow past the cap, in
    whatever order the discovered URLs are visited. *)
Lemma filter_loop_bounded (target_domain : string) (urls : list string) :
  forall filtered_urls : gset string,
    (size filtered_urls <= MAX_URLS)%nat ->
    (size (filter_loop target_domain urls filtered_urls) <= MAX_URLS)%nat.
Proof.
  induction urls as [|url urls IH]; intros filtered_urls Hsz;
    cbn [filter_loop]; [exact Hsz|].
  apply IH. destruct (urlparse url) as [parsed|]; [|exact Hsz].
  destruct (size filtered_urls <? MAX_URLS)%nat eqn:Hlt.
  - destruct (_ && _); [|exact Hsz].
    cbn [andb]. apply Nat.ltb_lt in Hlt.
    pose proof (size_add_le url filtered_urls). lia.
  - rewrite andb_false_r. exact Hsz.
Qed.

(** The list returned by [discover_urls] has at most [MAX_URLS] entries. *)
Lemma discover_urls_bounded (target : string) (timeout : Z) (w : world)
    (urls : list string) :
  fst (discover_urls target timeout w) = Ok urls ->
  (List.length urls <= MAX_URLS)%nat.
Proof.
  unfold discover_urls. rewrite bind_run. unfold reset_discovered at 1.
  rewrite bind_run.
  destruct (or_value_error (urlparse target) _) as [[parsed_target | e] w0];
    [|discriminate].
  rewrite bind_run. destruct (for_each common_endpoints _ w0) as [[[] | e] w1];
    [|discriminate].
  rewrite bind_run. destruct (crawl_url _ _ _ _ _ _ _ w1) as [[[] | e] w2];
    [|discriminate].
  rewrite bind_run. unfold get_discovered, ret. cbn [fst].
  intros [= <-].
  change (List.length (elements ?X)) with (size X).
  apply filter_loop_bounded. rewrite size_empty. unfold MAX_URLS. lia.
Qed.

End DiscoveryFacts.

Section Fuel.
Context `{UrlLib} `{Env}.

Lemma fuelled_ret {A} (a : A) : fuelled (ret a).
Proof. intros w. discriminate. Qed.

Lemma fuelled_bind {A B} (c : M A) (k : A -> M B) :
  fuelled c -> (forall a, fuelled (k a)) -> fuelled (bind c k).
Proof.
  intros Hc Hk w. unfold bind. pose proof (Hc w) as Hcw.
  destruct (c w) as [[a | e] w1]; [apply Hk|].
  cbn [fst] in *. intros [= ->]. now apply Hcw.
Qed.

Lemma fuelled_try {A} (body : M A) (handler : string -> M A) :
  fuelled body -> (forall msg, fuelled (handler msg)) ->
  fuelled (try_except_request body handler).
Proof.
  intros Hb Hh w. unfold try_except_request. pose proof (Hb w) as Hbw.
  destruct (body w) as [[a | e] w1]; [exact Hbw|].
  destruct e; first [exact Hbw | apply Hh].
Qed.

Lemma fuelled_for_each {A} (body : A -> M unit) (l : list A) :
  (forall x, fuelled (body x)) -> fuelled (for_each l body).
Proof.
  intros Hbody. induction l as [|x l IH]; cbn [for_each].
  - apply fuelled_ret.
  - apply fuelled_bind; [apply Hbody | intros _; exact IH].
Qed.

Lemma fuelled_or_value_error {A} (o : option A) : fuelled (or_value_error o).
Proof. intros w. destruct o; discriminate. Qed.

Lemma fuelled_requests_get (rq : request) : fuelled (requests_get rq).
Proof. intros w. unfold requests_get. cbn [fst]. destruct (net _ _); discriminate. Qed.

(** [max_depth - depth] units of fuel are enough: the calls never nest
    deeper, so [crawl_url] does not run out of fuel. *)
Lemma crawl_url_fuel (target target_domain : string) (timeout : Z)
    (fuel : nat) :
  forall (url : string) (depth max_depth : nat),
    (max_depth - depth <= fuel)%nat ->
    fuelled (crawl_url fuel target target_domain timeout url depth max_depth).
Proof.
  induction fuel as [|fuel IH]; intros url depth max_depth Hfuel;
    cbn [crawl_url]; destruct (max_depth <=? depth)%nat eqn:Hd.
  - apply fuelled_ret.
  - apply Nat.leb_gt in Hd. lia.
  - apply fuelled_ret.
  - apply fuelled_try; [|intros _; apply fuelled_ret].
    apply fuelled_bind; [apply fuelled_requests_get|]. intros response.
    destruct (status_code response =? 200)%Z; [|apply fuelled_ret].
    apply fuelled_for_each. intros found_url.
    apply fuelled_bind.
    { destruct (Py.startswith found_url "/");
        [apply fuelled_or_value_error|].
      destruct (_ || _); [apply fuelled_ret | apply fuelled_or_value_error]. }
    intros full_url. apply fuelled_bind; [intros w; discriminate|].
    intros discovered. destruct (_ && _); [|apply fuelled_ret].
    apply fuelled_bind; [intros w; discriminate|]. intros _.
    apply fuelled_bind; [intros w; discriminate|]. intros discovered'.
    destruct (size discovered' <? MAX_URLS)%nat; [|apply fuelled_ret].
    destruct (depth <? max_depth - 1)%nat eqn:Hdeep; [|apply fuelled_ret].
    apply IH. apply Nat.ltb_lt in Hdeep. lia.
Qed.

End Fuel.

(** C3 (as amended).  In every run of [discover_urls], the discovered set is
    exactly what the logged additions built, and once it holds [MAX_URLS] or
    more URLs no page is requested any more, so nothing found later is
    expanded. *)
Theorem cap_stops_expansion `{UrlLib} `{Env}
    (target : string) (timeout : Z) (w : world) :
  exists evs,
    events (snd (discover_urls target timeout w)) = (events w ++ evs)%list
    /\ discovered_urls (snd (discover_urls target timeout w)) = adds evs
    /\ forall pre post,
         evs = (pre ++ post)%list ->
         (MAX_URLS <= size (adds pre))%nat ->
         gets post = [].
Proof.
  destruct (discover_urls_tracks target timeout w) as (evs & Hev & Hd & Hc).
  exists evs. split; [exact Hev|]. split; [exact Hd|].
  intros pre post Heq Hsz. apply (Hc pre post Heq).
  rewrite union_empty_r_L. exact Hsz.
Qed.


(** ** What a crawl collects *)

Section Collect.
Context `{UrlLib} `{Env}.

Lemma crawl_url_unfold (fuel : nat) (target target_domain : string)
    (timeout : Z) (url : string) (depth max_depth : nat) :
  crawl_url (S fuel) target target_domain timeout url depth max_depth
  = if (max_depth <=? depth)%nat then ret tt
    else
      try_except_request
        (bind (requests_get (crawl_request url timeout)) (fun response =>
           if (status_code response =? 200)%Z then
             for_each (Scan.extract_urls (text response))
               (crawl_body fuel target target_domain timeout url depth
                           max_depth)
           else ret tt))
        (fun _ => ret tt).
Proof. reflexivity. Qed.

Lemma tracks_grows {A} (c : M A) (w : world)
    (Q : gset string -> list event -> Prop) :
  tracks c w Q -> discovered_urls w ⊆ discovered_urls (snd (c w)).
Proof. intros (evs & _ & Hd & _). rewrite Hd. clear. set_solver. Qed.

Lemma crawl_body_tracks (fuel : nat) (target target_domain : string)
    (timeout : Z) (url : string) (depth max_depth : nat) (found_url : string)
    (w : world) :
  tracks (crawl_body fuel target target_domain timeout url depth max_depth
                     found_url) w capped.
Proof.
  unfold crawl_body. apply tracks_bind.
  { apply tracks_silent.
    destruct (Py.startswith found_url "/");
      [destruct (urljoin target found_url); reflexivity|].
    destruct (_ || _); [reflexivity|].
    destruct (urljoin url found_url); reflexivity. }
  intros full_url w3 _.
  apply tracks_bind; [now apply tracks_silent|].
  intros discovered w4 [= _ <-].
  destruct (_ && _); [|now apply tracks_silent].
  apply tracks_bind; [apply tracks_add|].
  intros _ w5 _.
  apply tracks_bind; [now apply tracks_silent|].
  intros discovered' w6 [= <- <-].
  destruct (size (discovered_urls w5) <? MAX_URLS)%nat eqn:Hsz;
    [|now apply tracks_silent].
  destruct (depth <? max_depth - 1)%nat; [|now apply tracks_silent].
  apply Nat.ltb_lt in Hsz.
  destruct (crawl_url_tracks target target_domain timeout fuel full_url
              (depth + 1)%nat max_depth w5) as (evs & Hev & Hd & Hs).
  exists evs. split; [exact Hev|]. split; [exact Hd|].
  now apply crawl_shape_capped.
Qed.

(** A loop keeps what each turn establishes, when every turn preserves it. *)
Lemma for_each_invariant {A} (body : A -> M unit) (I : A -> world -> Prop) :
  (forall x w w1, body x w = (Ok tt, w1) -> I x w1) ->
  (forall x y w w1, I x w -> body y w = (Ok tt, w1) -> I x w1) ->
  forall l w w', for_each l body w = (Ok tt, w') ->
  forall x, In x l -> I x w'.
Proof.
  intros Hest Hpres. induction l as [|y l IH]; intros w w' Hrun x Hx;
    [destruct Hx|].
  cbn [for_each] in Hrun. rewrite bind_run in Hrun.
  destruct (body y w) as [[[] | e] w1] eqn:Hy; [|discriminate].
  assert (Hkeep : forall z, I z w1 -> I z w').
  { clear x Hx Hy IH. revert w1 Hrun.
    induction l as [|y' l IHl]; intros w1 Hrun z Hz.
    - cbn in Hrun. injection Hrun as <-. exact Hz.
    - cbn [for_each] in Hrun. rewrite bind_run in Hrun.
      destruct (body y' w1) as [[[] | e] w2] eqn:Hy'; [|discriminate].
      apply (IHl w2 Hrun). eapply Hpres; eauto. }
  destruct Hx as [-> | Hx].
  - apply Hkeep. eapply Hest; eauto.
  - eapply IH; eauto.
Qed.

Lemma crawl_body_collects (fuel : nat) (target target_domain : string)
    (timeout : Z) (url : string) (depth max_depth : nat) (found_url : string)
    (w w1 : world) (full_url : string) :
  crawl_body fuel target target_domain timeout url depth max_depth found_url w
    = (Ok tt, w1) ->
  resolve target url found_url = Some full_url ->
  is_same_domain target_domain full_url = true ->
  normalize_path target full_url = full_url ->
  full_url ∈ discovered_urls w1.
Proof.
  intros Hrun Hres Hsame Hnorm. unfold crawl_body in Hrun.
  rewrite bind_run in Hrun.
  assert (Hfull : (if Py.startswith found_url "/"
                   then or_value_error (urljoin target found_url)
                   else if Py.startswith found_url "http://"
                           || Py.startswith found_url "https://"
                        then ret found_url
                        else or_value_error (urljoin url found_url)) w
                  = (Ok full_url, w)).
  { unfold resolve in Hres. destruct (Py.startswith found_url "/").
    - rewrite Hres. reflexivity.
    - destruct (_ || _); [now injection Hres as -> | rewrite Hres; reflexivity]. }
  rewrite Hfull in Hrun. clear Hfull.
  rewrite bind_run in Hrun. unfold get_discovered at 1 in Hrun.
  rewrite Hsame in Hrun. cbn [andb] in Hrun.
  destruct (bool_decide (full_url ∈ discovered_urls w)) eqn:Hin;
    cbn [negb] in Hrun.
  - injection Hrun as <-. now apply bool_decide_eq_true in Hin.
  - rewrite bind_run in Hrun. unfold add_discovered at 1 in Hrun.
    rewrite Hnorm in Hrun. rewrite bind_run in Hrun.
    unfold get_discovered at 1 in Hrun. cbn [discovered_urls] in Hrun.
    set (w2 := mkWorld (events w ++ [EAdd full_url]) (nreq w) (ndraw w)
                       ({[full_url]} ∪ discovered_urls w)) in *.
    assert (Hw2 : full_url ∈ discovered_urls w2)
      by (subst w2; cbn; clear; set_solver).
    destruct (size _ <? MAX_URLS)%nat; [|now injection Hrun as <-].
    destruct (depth <? max_depth - 1)%nat; [|now injection Hrun as <-].
    pose proof (tracks_grows _ w2 _
                  (crawl_url_tracks target target_domain timeout fuel full_url
                     (depth + 1)%nat max_depth w2)) as Hgrow.
    rewrite Hrun in Hgrow. cbn [snd] in Hgrow. clear Hrun. set_solver.
Qed.

Lemma crawl_body_grows (fuel : nat) (target target_domain : string)
    (timeout : Z) (url : string) (depth max_depth : nat) (found_url : string)
    (w w1 : world) (r : result unit) :
  crawl_body fuel target target_domain timeout url depth max_depth found_url w
    = (r, w1) ->
  discovered_urls w ⊆ discovered_urls w1.
Proof.
  intros Hrun.
  pose proof (tracks_grows _ w _
                (crawl_body_tracks fuel target target_domain timeout url depth
                   max_depth found_url w)) as Hgrow.
  now rewrite Hrun in Hgrow.
Qed.


Lemma contained_ret {A} (a : A) : contained (ret a).
Proof. intros w msg. discriminate. Qed.

Lemma contained_bind {A B} (c : M A) (k : A -> M B) :
  contained c -> (forall a, contained (k a)) -> contained (bind c k).
Proof.
  intros Hc Hk w msg. unfold bind. pose proof (Hc w msg) as Hcw.
  destruct (c w) as [[a | e] w1]; [apply Hk|].
  cbn [fst] in *. intros [= ->]. now apply Hcw.
Qed.

Lemma contained_for_each {A} (body : A -> M unit) (l : list A) :
  (forall x, contained (body x)) -> contained (for_each l body).
Proof.
  intros Hbody. induction l as [|x l IH]; cbn [for_each].
  - apply contained_ret.
  - apply contained_bind; [apply Hbody | intros _; exact IH].
Qed.

Lemma contained_or_value_error {A} (o : option A) :
  contained (or_value_error o).
Proof. intros w msg. destruct o; discriminate. Qed.

(** A handler that returns swallows every [RequestException]. *)
Lemma contained_try {A} (body : M A) (a : A) :
  contained (try_except_request body (fun _ => ret a)).
Proof.
  intros w msg. unfold try_except_request.
  destruct (body w) as [[x | e] w1]; [discriminate|].
  destruct e; discriminate.
Qed.

Lemma crawl_url_contained (fuel : nat) (target target_domain : string)
    (timeout : Z) (url : string) (depth max_depth : nat) :
  contained (crawl_url fuel target target_domain timeout url depth max_depth).
Proof.
  destruct fuel as [|fuel]; cbn [crawl_url];
    destruct (max_depth <=? depth)%nat.
  - apply contained_ret.
  - intros w msg. discriminate.
  - apply contained_ret.
  - apply contained_try.
Qed.

Lemma crawl_body_contained (fuel : nat) (target target_domain : string)
    (timeout : Z) (url : string) (depth max_depth : nat) (found_url : string) :
  contained (crawl_body fuel target target_domain timeout url depth max_depth
                        found_url).
Proof.
  unfold crawl_body. apply contained_bind.
  { destruct (Py.startswith found_url "/"); [apply contained_or_value_error|].
    destruct (_ || _); [apply contained_ret | apply contained_or_value_error]. }
  intros full_url. apply contained_bind; [intros w msg; discriminate|].
  intros discovered. destruct (_ && _); [|apply contained_ret].
  apply contained_bind; [intros w msg; discriminate|]. intros _.
  apply contained_bind; [intros w msg; discriminate|]. intros discovered'.
  destruct (size discovered' <? MAX_URLS)%nat; [|apply contained_ret].
  destruct (depth <? max_depth - 1)%nat; [|apply contained_ret].
  apply crawl_url_contained.
Qed.

(** A call of [crawl_url] that fetched a 200 page and returned has put every
    link of the page that resolves to a fixed point of [normalize_path]
    inside the scope test into the discovered set. *)
Lemma crawl_url_collects (fuel : nat) (target target_domain : string)
    (timeout : Z) (url : string) (depth max_depth : nat) (w w' : world)
    (response : response) :
  crawl_url (S fuel) target target_domain timeout url depth max_depth w
    = (Ok tt, w') ->
  (depth < max_depth)%nat ->
  net (nreq w) (crawl_request url timeout) = Answer response ->
  status_code response = 200%Z ->
  forall found_url full_url,
    In found_url (Scan.extract_urls (text response)) ->
    resolve target url found_url = Some full_url ->
    is_same_domain target_domain full_url = true ->
    normalize_path target full_url = full_url ->
    full_url ∈ discovered_urls w'.
Proof.
  intros Hrun Hdepth Hnet Hstatus found_url full_url Hin Hres Hsame Hnorm.
  rewrite crawl_url_unfold in Hrun.
  apply Nat.leb_gt in Hdepth. rewrite Hdepth in Hrun.
  unfold try_except_request in Hrun. rewrite bind_run in Hrun.
  unfold requests_get at 1 in Hrun. rewrite Hnet, Hstatus in Hrun.
  cbn [Z.eqb Pos.eqb] in Hrun.
  match type of Hrun with context [for_each ?l ?b ?w1] =>
    pose proof (contained_for_each b l
                  (crawl_body_contained fuel target target_domain timeout url
                     depth max_depth) w1) as Hcont;
    destruct (for_each l b w1) as [[[] | e] w2] eqn:Hloop end.
  - injection Hrun as <-.
    refine (for_each_invariant _
              (fun u w0 => forall f,
                 resolve target url u = Some f ->
                 is_same_domain target_domain f = true ->
                 normalize_path target f = f -> f ∈ discovered_urls w0)
              _ _ _ _ _ Hloop found_url Hin full_url Hres Hsame Hnorm).
    + intros x w0 w1 Hx f Hf1 Hf2 Hf3.
      eapply crawl_body_collects; eauto.
    + intros x y w0 w1 Hx Hy f Hf1 Hf2 Hf3.
      apply (crawl_body_grows _ _ _ _ _ _ _ _ _ _ _ Hy). eauto.
  - destruct e; try discriminate. exfalso. eapply Hcont. reflexivity.
Qed.

(** The loop over [common_endpoints] puts every seed into the set. *)
Lemma seed_loop_members (f : string -> string) (l : list string)
    (w w' : world) :
  for_each l (fun endpoint => add_discovered (f endpoint)) w = (Ok tt, w') ->
  forall endpoint, In endpoint l -> f endpoint ∈ discovered_urls w'.
Proof.
  intros Hrun.
  refine (for_each_invariant (fun endpoint => add_discovered (f endpoint))
            (fun endpoint w0 => f endpoint ∈ discovered_urls w0) _ _ l w w' Hrun).
  - intros x w0 w1 [= <-]. cbn. clear. set_solver.
  - intros x y w0 w1 Hx [= <-]. cbn. clear -Hx. set_solver.
Qed.

Lemma seed_loop_nreq (f : string -> string) (l : list string) :
  forall (w w' : world) (r : result unit),
    for_each l (fun endpoint => add_discovered (f endpoint)) w = (r, w') ->
    nreq w' = nreq w.
Proof.
  induction l as [|x l IH]; intros w w' r Hrun.
  - now injection Hrun as _ <-.
  - cbn [for_each] in Hrun. rewrite bind_run in Hrun.
    unfold add_discovered at 1 in Hrun. now apply IH in Hrun.
Qed.

(** What [discover_urls] has collected when it returns: every seed, and every
    link of a 200 root page that resolves to a fixed point of
    [normalize_path] inside the scope test. *)
Lemma discover_urls_collects (target : string) (timeout : Z) (w : world)
    (urls : list string) (parsed_target : ParseResult) :
  urlparse target = Some parsed_target ->
  fst (discover_urls target timeout w) = Ok urls ->
  (forall endpoint, In endpoint common_endpoints ->
     normalize_path target (target +:+ "/" +:+ endpoint +:+ "/")
     ∈ discovered_urls (snd (discover_urls target timeout w)))
  /\ (forall response found_url full_url,
        net (nreq w) (crawl_request target timeout) = Answer response ->
        status_code response = 200%Z ->
        In found_url (Scan.extract_urls (text response)) ->
        resolve target target found_url = Some full_url ->
        is_same_domain (netloc parsed_target) full_url = true ->
        normalize_path target full_url = full_url ->
        full_url ∈ discovered_urls (snd (discover_urls target timeout w))).
Proof.
  intros Hparse.
  destruct (discover_urls target timeout w) as [r wf] eqn:Hrun.
  cbn [fst snd]. intros ->.
  unfold discover_urls in Hrun. rewrite bind_run in Hrun.
  unfold reset_discovered at 1 in Hrun. rewrite bind_run in Hrun.
  destruct (or_value_error (urlparse target) _) as [[parsed | e] w0] eqn:Hp;
    [|discriminate Hrun].
  rewrite Hparse in Hp. injection Hp as <- <-.
  rewrite bind_run in Hrun.
  destruct (for_each common_endpoints _ _) as [[[] | e] w1] eqn:Hseeds;
    [|discriminate Hrun].
  assert (Hreq : nreq w1 = nreq w)
    by exact (seed_loop_nreq _ _ _ _ _ Hseeds).
  rewrite bind_run in Hrun.
  destruct (crawl_url 2 target (netloc parsed_target) timeout target 0 2 w1)
    as [[[] | e] w2] eqn:Hcrawl; [|discriminate Hrun].
  rewrite bind_run in Hrun.
  destruct (get_discovered w2) as [[discovered | e] w3] eqn:Hget;
    [|discriminate Hrun].
  injection Hget as _ <-. injection Hrun as _ <-.
  pose proof (tracks_grows _ w1 _
                (crawl_url_tracks target (netloc parsed_target) timeout 2
                   target 0 2 w1)) as Hgrow.
  rewrite Hcrawl in Hgrow. cbn [snd] in Hgrow.
  split.
  - intros endpoint Hin. apply Hgrow.
    now apply (seed_loop_members _ _ _ _ Hseeds).
  - intros response found_url full_url Hnet Hstatus Hin Hres Hsame Hnorm.
    rewrite <- Hreq in Hnet.
    exact (crawl_url_collects 1 target (netloc parsed_target) timeout target
             0 2 w1 w2 response Hcrawl (Nat.lt_0_succ 1) Hnet Hstatus
             found_url full_url Hin Hres Hsame Hnorm).
Qed.

End Collect.

(** ** Runs against a site whose root page alone is reachable *)

Section RootOnly.
Context `{UrlLib}.
Variables (root page : string).

Local Abbreviation site := (Stub.unreachable_elsewhere root page).

Lemma root_only_crawl_returns (fuel : nat) (target target_domain : string)
    (timeout : Z) (url : string) (depth max_depth : nat) (w : world) :
  url <> root ->
  exists w',
    @crawl_url _ site (S fuel) target target_domain timeout url depth max_depth w
    = (Ok tt, w').
Proof.
  intros Hne. rewrite crawl_url_unfold.
  destruct (max_depth <=? depth)%nat; [eexists; reflexivity|].
  unfold try_except_request. rewrite bind_run. unfold requests_get at 1.
  assert (Hnet : @net site (nreq w) (crawl_request url timeout)
                 = Failure "unreachable").
  { cbn. apply String.eqb_neq in Hne. now rewrite Hne. }
  rewrite Hnet. eexists. reflexivity.
Qed.

Lemma root_only_body_returns (fuel : nat) (target target_domain : string)
    (timeout : Z) (url : string) (depth max_depth : nat) (found_url : string)
    (w : world) (full_url : string) :
  resolve target url found_url = Some full_url ->
  full_url <> root ->
  exists w1,
    @crawl_body _ site (S fuel) target target_domain timeout url depth
                max_depth found_url w = (Ok tt, w1).
Proof.
  intros Hres Hne. unfold crawl_body. rewrite bind_run.
  assert (Hfull : (if Py.startswith found_url "/"
                   then or_value_error (urljoin target found_url)
                   else if Py.startswith found_url "http://"
                           || Py.startswith found_url "https://"
                        then ret found_url
                        else or_value_error (urljoin url found_url)) w
                  = (Ok full_url, w)).
  { unfold resolve in Hres. destruct (Py.startswith found_url "/").
    - rewrite Hres. reflexivity.
    - destruct (_ || _); [now injection Hres as -> | rewrite Hres; reflexivity]. }
  rewrite Hfull. rewrite bind_run. unfold get_discovered at 1.
  destruct (_ && _); [|eexists; reflexivity].
  rewrite bind_run. unfold add_discovered at 1. rewrite bind_run.
  unfold get_discovered at 1.
  destruct (size _ <? MAX_URLS)%nat; [|eexists; reflexivity].
  destruct (depth <? max_depth - 1)%nat; [|eexists; reflexivity].
  now apply root_only_crawl_returns.
Qed.

Lemma root_only_loop_returns (fuel : nat) (target target_domain : string)
    (timeout : Z) (url : string) (depth max_depth : nat) (urls : list string) :
  Forall (fun found_url =>
            exists full_url, resolve target url found_url = Some full_url
                             /\ full_url <> root) urls ->
  forall w, exists w',
    for_each urls
      (@crawl_body _ site (S fuel) target target_domain timeout url depth
                   max_depth) w = (Ok tt, w').
Proof.
  induction 1 as [|u urls (f & Hres & Hne) _ IH]; intros w;
    cbn [for_each]; [eexists; reflexivity|].
  rewrite bind_run.
  destruct (root_only_body_returns fuel target target_domain timeout url depth
              max_depth u w f Hres Hne) as [w1 ->].
  apply IH.
Qed.

Lemma incl_firstn_list {A} (n : nat) (l : list A) (x : A) :
  In x (List.firstn n l) -> In x l.
Proof.
  intros Hx. rewrite <- (List.firstn_skipn n l). apply in_or_app. now left.
Qed.

(** When every reference of the root page resolves to a URL other than the
    root, discovery returns. *)
Lemma root_only_discover_returns (timeout : Z) (w : world)
    (parsed_root : ParseResult) :
  urlparse root = Some parsed_root ->
  Forall (fun found_url => resolves_off_root root found_url = true)
         (Scan.extract_urls page) ->
  exists urls wf,
    @discover_urls _ site root timeout w = (Ok urls, wf).
Proof.
  intros Hparse Hall.
  unfold discover_urls. rewrite bind_run. unfold reset_discovered at 1.
  rewrite bind_run, Hparse.
  change (or_value_error (Some parsed_root)) with (@ret ParseResult parsed_root).
  unfold ret at 1. rewrite bind_run.
  match goal with |- context [for_each common_endpoints ?b ?w0] =>
    destruct (seed_loop_run
                (fun endpoint =>
                   normalize_path root (root +:+ "/" +:+ endpoint +:+ "/"))
                common_endpoints w0) as (evs & w1 & -> & _)
  end.
  rewrite bind_run.
  assert (Hcrawl : exists w2,
             @crawl_url _ site 2 root (netloc parsed_root) timeout root 0 2 w1
             = (Ok tt, w2)).
  { rewrite crawl_url_unfold. cbn [Nat.leb].
    unfold try_except_request. rewrite bind_run. unfold requests_get at 1.
    assert (Hnet : @net site (nreq w1) (crawl_request root timeout)
                   = Answer (mkResponse 200 [] page)).
    { cbn. now rewrite String.eqb_refl. }
    rewrite Hnet. cbn [status_code text Z.eqb Pos.eqb].
    match goal with |- context [for_each ?l ?b ?w2] =>
      destruct (root_only_loop_returns 0 root (netloc parsed_root) timeout root
                  0 2 l) with (w := w2) as [w3 Hloop] end.
    { eapply Forall_impl; [exact Hall|]. intros u Hu.
      unfold resolves_off_root in Hu.
      destruct (resolve root root u) as [f|]; [|discriminate].
      exists f. split; [reflexivity|].
      apply String.eqb_neq. now apply negb_true_iff. }
    rewrite Hloop. eexists. reflexivity. }
  destruct Hcrawl as [w2 ->]. rewrite bind_run.
  unfold get_discovered at 1, ret. eexists _, _. reflexivity.
Qed.


(** On such a site the discovered set holds a seed and the first [n]
    references of the root page, when these resolve to pairwise different
    URLs that pass the scope test and are fixed points of [normalize_path]. *)
Lemma root_only_discovered_size (timeout : Z) (w : world)
    (parsed_root : ParseResult) (n : nat) (endpoint : string) :
  urlparse root = Some parsed_root ->
  Forall (fun found_url => resolves_off_root root found_url = true)
         (Scan.extract_urls page) ->
  Forall (fun found_url =>
            kept_as_is root (netloc parsed_root) found_url = true)
         (List.firstn n (Scan.extract_urls page)) ->
  In endpoint common_endpoints ->
  NoDup (normalize_path root (root +:+ "/" +:+ endpoint +:+ "/")
         :: List.map (resolved root root)
              (List.firstn n (Scan.extract_urls page))) ->
  (S (List.length (List.firstn n (Scan.extract_urls page)))
   <= size (discovered_urls
              (snd (@discover_urls _ site root timeout w))))%nat.
Proof.
  intros Hparse Hall Hkept Hend Hnodup.
  destruct (root_only_discover_returns timeout w parsed_root Hparse Hall)
    as (urls & wf & Hrun).
  assert (Hfst : fst (@discover_urls _ site root timeout w) = Ok urls)
    by now rewrite Hrun.
  destruct (@discover_urls_collects _ site root timeout w urls parsed_root
              Hparse Hfst) as [Hseeds Hlinks].
  set (D := discovered_urls (snd (@discover_urls _ site root timeout w))) in *.
  clearbody D. clear Hrun Hfst.
  set (L := normalize_path root (root +:+ "/" +:+ endpoint +:+ "/")
            :: List.map (resolved root root)
                 (List.firstn n (Scan.extract_urls page))) in *.
  assert (Hsub : forall x, In x L -> x ∈ D).
  { intros x [<- | Hx]; [now apply Hseeds|].
    apply in_map_iff in Hx as (u & <- & Hu).
    pose proof (proj1 (List.Forall_forall _ _) Hkept u Hu) as Hk.
    unfold kept_as_is in Hk. unfold resolved.
    destruct (resolve root root u) as [f|] eqn:Hres; [|discriminate].
    apply andb_true_iff in Hk as [Hsame Hnorm].
    apply String.eqb_eq in Hnorm.
    refine (Hlinks (mkResponse 200 [] page) u f _ eq_refl _ Hres Hsame Hnorm).
    - cbn. now rewrite String.eqb_refl.
    - cbn [text]. eapply incl_firstn_list; eauto. }
  assert (Hlen : List.length L
                 = S (List.length (List.firstn n (Scan.extract_urls page))))
    by (subst L; cbn [List.length]; now rewrite List.length_map).
  rewrite <- Hlen. clear Hlen Hlinks Hseeds Hkept Hall.
  rewrite <- (size_list_to_set (C := gset string) L Hnodup).
  apply subseteq_size. intros x Hx. apply elem_of_list_to_set in Hx.
  apply Hsub. now apply list_elem_of_In.
Qed.

End RootOnly.

(** ** The run on the page with 1000 links *)

Lemma forallb_Forall {A} (f : A -> bool) (l : list A) :
  forallb f l = true -> Forall (fun x => f x = true) l.
Proof.
  intros Hf. apply List.Forall_forall. now apply forallb_forall.
Qed.

Lemma many_links_resolve :
  forallb (@resolves_off_root cpython_urllib "https://example.com")
          (Scan.extract_urls Stub.page_many_links) = true.
Proof. vm_compute. reflexivity. Qed.

Lemma many_links_kept :
  forallb (@kept_as_is cpython_urllib "https://example.com" "example.com")
          (List.firstn 1000 (Scan.extract_urls Stub.page_many_links)) = true.
Proof. vm_compute. reflexivity. Qed.

Lemma many_links_count :
  List.length (List.firstn 1000 (Scan.extract_urls Stub.page_many_links))
  = 1000%nat.
Proof. vm_compute. reflexivity. Qed.

Lemma map_list_fmap {A B} (f : A -> B) (l : list A) :
  List.map f l = f <$> l.
Proof. induction l as [|x l IH]; [reflexivity|]. cbn. now rewrite IH. Qed.

Lemma many_links_resolved :
  List.map (@resolved cpython_urllib "https://example.com"
              "https://example.com")
    (List.firstn 1000 (Scan.extract_urls Stub.page_many_links))
  = List.map (fun n : nat => "https://example.com/p" +:+ pretty n)
      (List.seq 0 1000).
Proof. vm_compute. reflexivity. Qed.

Lemma many_links_distinct :
  NoDup (@normalize_path cpython_urllib "https://example.com"
           ("https://example.com" +:+ "/" +:+ "api" +:+ "/")
         :: List.map (@resolved cpython_urllib "https://example.com"
                        "https://example.com")
              (List.firstn 1000 (Scan.extract_urls Stub.page_many_links))).
Proof.
  rewrite many_links_resolved.
  replace (@normalize_path cpython_urllib "https://example.com"
             ("https://example.com" +:+ "/" +:+ "api" +:+ "/"))
    with ("https://example.com/" +:+ "api") by (vm_compute; reflexivity).
  change (fun n : nat => "https://example.com/p" +:+ pretty n)
    with (fun n : nat => "https://example.com/" +:+ ("p" +:+ pretty n)).
  rewrite map_list_fmap. constructor.
  - intros Hin. apply list_elem_of_fmap in Hin as (n & Heq & _).
    apply (inj (String.append "https://example.com/")) in Heq.
    discriminate Heq.
  - apply NoDup_fmap_2_strong; [|apply NoDup_seq].
    intros n m _ _ Heq.
    apply (inj (String.append "https://example.com/")) in Heq.
    apply (inj (String.append "p")) in Heq.
    now apply (inj pretty) in Heq.
Qed.

(** The discovered set of that run holds the seed /api and the 1000 links. *)
Lemma many_links_discovered :
  (1001 <= size (discovered_urls
                   (snd (@discover_urls cpython_urllib Stub.env_many_links
                           "https://example.com" 10 world0))))%nat.
Proof.
  pose proof (@root_only_discovered_size cpython_urllib "https://example.com"
                Stub.page_many_links 10 world0
                (mkParse "https" "example.com" "" "" "" "") 1000 "api"
                eq_refl (forallb_Forall _ _ many_links_resolve)
                (forallb_Forall _ _ many_links_kept)
                (or_intror (or_introl eq_refl)) many_links_distinct) as Hsz.
  rewrite many_links_count in Hsz. exact Hsz.
Qed.

(** On the page with 1000 links the whole log has filled the set past the
    cap, and nothing is requested after it. *)
Lemma cap_stops_expansion_witness :
  exists evs,
    events (snd (@discover_urls cpython_urllib Stub.env_many_links
                   "https://example.com" 10 world0))
    = (events world0 ++ evs)%list
    /\ (MAX_URLS <= size (adds evs))%nat
    /\ gets (@nil event) = [].
Proof.
  destruct (@cap_stops_expansion cpython_urllib Stub.env_many_links
              "https://example.com" 10 world0) as (evs & Hev & Hd & Hcap).
  exists evs. split; [exact Hev|].
  assert (Hsz : (MAX_URLS <= size (adds evs))%nat).
  { rewrite <- Hd. pose proof many_links_discovered as Hbig.
    unfold MAX_URLS. lia. }
  split; [exact Hsz|].
  exact (Hcap evs [] (eq_sym (app_nil_r evs)) Hsz).
Defined.

(** C3 as stated fails: on a root page with 1000 links the discovered set
    grows past [MAX_URLS]. *)
Lemma discovered_set_exceeds_cap :
  (MAX_URLS < size (discovered_urls
                      (snd (@discover_urls cpython_urllib Stub.env_many_links
                              "https://example.com" 10 world0))))%nat.
Proof. pose proof many_links_discovered as Hbig. unfold MAX_URLS. lia. Qed.

(** C2.  On a root page that links to https://evil.com/y the scope test
    accepts the foreign URL, its path is added under the target and the
    foreign URL itself is requested. *)
Theorem foreign_link_is_crawled :
  @is_same_domain cpython_urllib "example.com" "https://evil.com/y" = true
  /\ let w' := snd (@discover_urls cpython_urllib Stub.env_foreign_link
                      "https://example.com" 10 world0) in
     List.map req_url (gets (events w'))
     = ["https://example.com"; "https://evil.com/y"]
     /\ "https://example.com/y" ∈ discovered_urls w'.
Proof.
  split; [vm_compute; reflexivity|]. cbv zeta. split.
  - vm_compute. reflexivity.
  - refine (bool_decide_unpack _ _). vm_compute. exact I.
Qed.

(** C5.  On a root page that links to https://example.com//evil.com/x the
    list returned for the target example.com holds https://evil.com/x, whose
    host is evil.com. *)
Theorem discover_urls_returns_foreign_host :
  exists urls,
    fst (@discover_urls cpython_urllib Stub.env_double_slash
           "https://example.com" 10 world0) = Ok urls
    /\ In "https://evil.com/x" urls
    /\ (netloc <$> @urlparse cpython_urllib "https://evil.com/x") = Some "evil.com"
    /\ (netloc <$> @urlparse cpython_urllib "https://example.com")
       = Some "example.com".
Proof.
  eexists. split; [vm_compute; reflexivity|].
  split; [left; reflexivity|]. split; vm_compute; reflexivity.
Qed.

(** * Further properties of the code *)

(** ** The report and the target file *)

Lemma rstrip_keep (p : ascii -> bool) (c : ascii) (s : string) :
  p c = false ->
  Py.rstrip_with p (String c s) = String c (Py.rstrip_with p s).
Proof.
  intros Hc. cbn [Py.rstrip_with]. rewrite Hc.
  now destruct (Py.rstrip_with p s).
Qed.

(** X1.  The http and the https spelling of a target normalise to the
    same URL, the https one with trailing white space removed. *)
Theorem normalize_url_scheme_insensitive (h : string) :
  normalize_url ("http://" +:+ h) = "https://" +:+ Py.rstrip_with Py.is_space h
  /\ normalize_url ("https://" +:+ h) = normalize_url ("http://" +:+ h).
Proof.
  assert (Hhttp : normalize_url ("http://" +:+ h)
                  = "https://" +:+ Py.rstrip_with Py.is_space h).
  { unfold normalize_url, Py.strip. cbn [String.append Py.lstrip_with].
    replace (Py.is_space "h") with false by reflexivity.
    rewrite !rstrip_keep by reflexivity.
    reflexivity. }
  split; [exact Hhttp|]. rewrite Hhttp.
  unfold normalize_url, Py.strip. cbn [String.append Py.lstrip_with].
  replace (Py.is_space "h") with false by reflexivity.
  rewrite !rstrip_keep by reflexivity.
  reflexivity.
Qed.

Lemma split1_at_separator (name value : string) :
  Py.contains ": " name = false ->
  split1 ": " (name +:+ ": " +:+ value) = [name; value].
Proof.
  induction name as [|c name IH]; intros Hno; [reflexivity|].
  cbn [Py.contains] in Hno. apply orb_false_iff in Hno as [Hhead Htail].
  specialize (IH Htail).
  change (String c name +:+ ": " +:+ value)
    with (String c (name +:+ ": " +:+ value)).
  cbn [split1]. rewrite IH.
  assert (Hsw : Py.startswith (String c (name +:+ ": " +:+ value)) ": " = false).
  { destruct name as [|d name].
    - cbn. now rewrite andb_false_r.
    - cbn in Hhead |- *. now rewrite andb_true_r in *. }
  now rewrite Hsw.
Qed.

Lemma split1_join (sep s : string) :
  match split1 sep s with
  | [a; b] => s = a +:+ sep +:+ b
  | [a] => a = s
  | _ => False
  end.
Proof.
  induction s as [|c s IH]; cbn [split1].
  - destruct (Py.startswith "" sep) eqn:Hsw; [|reflexivity].
    destruct sep; [reflexivity | discriminate Hsw].
  - destruct (Py.startswith (String c s) sep) eqn:Hsw.
    + apply startswith_spec in Hsw as [post Hpost]. rewrite Hpost.
      cbn [String.append]. f_equal. clear.
      induction sep as [|x sep IH]; [reflexivity|]. exact IH.
    + destruct (split1 sep s) as [|a [|b [|? ?]]]; try reflexivity.
      now rewrite IH.
Qed.

Lemma split1_finds (sep s : string) :
  Py.contains sep s = true -> exists a b, split1 sep s = [a; b].
Proof.
  induction s as [|c s IH]; cbn [Py.contains split1]; intros Hc.
  - rewrite orb_false_r in Hc. rewrite Hc. eauto.
  - destruct (Py.startswith (String c s) sep); [eauto|].
    destruct (IH Hc) as (a & b & ->). eauto.
Qed.

(** X2.  The header line of a finding, as [test_cache_poisoning] writes
    it, is always split into two fields by [generate_report], and the fields
    are the header name and value the finding was made with whenever the
    name holds no colon followed by a space. *)
Theorem split_header_round_trip (header_name header_value : string) :
  (exists n v,
     split_header (header_name +:+ ": " +:+ header_value) = Ok (n, v)
     /\ n +:+ ": " +:+ v = header_name +:+ ": " +:+ header_value)
  /\ (Py.contains ": " header_name = false ->
      split_header (header_name +:+ ": " +:+ header_value)
      = Ok (header_name, header_value)).
Proof.
  split.
  - assert (Hc : Py.contains ": " (header_name +:+ ": " +:+ header_value) = true).
    { apply contains_spec. now exists header_name, header_value. }
    destruct (split1_finds _ _ Hc) as (n & v & Hs).
    pose proof (split1_join ": " (header_name +:+ ": " +:+ header_value)) as Hj.
    rewrite Hs in Hj. exists n, v. unfold split_header. rewrite Hs.
    split; [reflexivity | now symmetry].
  - intros Hno. unfold split_header. now rewrite split1_at_separator.
Qed.

Lemma split_header_round_trip_witness :
  Py.contains ": " "X-Forwarded-Host" = false
  /\ split_header ("X-Forwarded-Host" +:+ ": " +:+ "evil.com")
     = Ok ("X-Forwarded-Host", "evil.com").
Proof.
  split; [reflexivity|].
  apply (proj2 (split_header_round_trip "X-Forwarded-Host" "evil.com")).
  reflexivity.
Defined.

Lemma enumerate_app {A} (a b : list A) (start : nat) :
  enumerate (a ++ b)%list start
  = (enumerate a start ++ enumerate b (start + List.length a))%list.
Proof.
  revert start. induction a as [|x a IH]; intros start.
  - cbn. now rewrite Nat.add_0_r.
  - unfold enumerate in *. cbn. f_equal.
    rewrite IH. now rewrite Nat.add_succ_r.
Qed.

Lemma batches_cover {A} (v : list A) (batch_size : nat) :
  (1 <= batch_size)%nat ->
  forall fuel i,
    (List.length v - i <= fuel)%nat ->
    List.flat_map
      (fun i => enumerate (slice v i (i + batch_size)) (i + 1))
      (range_from fuel i (List.length v) batch_size)
    = enumerate (List.skipn i v) (i + 1).
Proof.
  intros Hbs fuel. induction fuel as [|fuel IH]; intros i Hfuel.
  - cbn. rewrite List.skipn_all2 by lia. reflexivity.
  - cbn [range_from]. destruct (Nat.ltb_spec i (List.length v)) as [Hlt | Hge].
    + cbn [List.flat_map]. rewrite IH by lia.
      unfold slice. replace (i + batch_size - i)%nat with batch_size by lia.
      rewrite <- (List.firstn_skipn batch_size (List.skipn i v)) at 2.
      rewrite enumerate_app. f_equal.
      rewrite List.skipn_skipn.
      replace (batch_size + i)%nat with (i + batch_size)%nat by lia.
      destruct (Nat.le_gt_cases batch_size (List.length (List.skipn i v)))
        as [Hfull | Hshort].
      * rewrite List.firstn_length_le by exact Hfull. f_equal. lia.
      * rewrite List.length_skipn in Hshort.
        rewrite (List.skipn_all2 v) by lia. reflexivity.
    + rewrite List.skipn_all2 by lia. reflexivity.
Qed.

(** X3.  In the detailed section of the report every finding gets one
    block, in the order of the result file, numbered from 1 without gaps:
    the batches only pace the progress bar. *)
Theorem report_numbers_every_finding_once {A} (vulnerabilities : list A) :
  numbered_findings vulnerabilities = enumerate vulnerabilities 1
  /\ List.map snd (numbered_findings vulnerabilities) = vulnerabilities
  /\ List.map fst (numbered_findings vulnerabilities)
     = List.seq 1 (List.length vulnerabilities).
Proof.
  assert (Heq : numbered_findings vulnerabilities = enumerate vulnerabilities 1).
  { unfold numbered_findings.
    rewrite (batches_cover vulnerabilities) by lia. reflexivity. }
  rewrite Heq. split; [reflexivity|]. unfold enumerate. split.
  - clear. generalize 1%nat. induction vulnerabilities as [|x l IH]; intros n.
    + reflexivity.
    + cbn. f_equal. apply IH.
  - clear. generalize 1%nat. induction vulnerabilities as [|x l IH]; intros n.
    + reflexivity.
    + cbn. f_equal. apply IH.
Qed.

Lemma lstrip_fixed (p : ascii -> bool) (s : string) :
  Py.lstrip_with p (Py.lstrip_with p s) = Py.lstrip_with p s.
Proof.
  induction s as [|c s IH]; [reflexivity|]. cbn [Py.lstrip_with].
  destruct (p c) eqn:Hc; [exact IH|]. cbn [Py.lstrip_with]. now rewrite Hc.
Qed.

Lemma lstrip_rstrip (p : ascii -> bool) (s : string) :
  Py.lstrip_with p s = s ->
  Py.lstrip_with p (Py.rstrip_with p s) = Py.rstrip_with p s.
Proof.
  destruct s as [|c s]; [reflexivity|]. cbn [Py.lstrip_with].
  destruct (p c) eqn:Hc.
  - intros Heq. exfalso.
    assert (Hlen : (String.length (Py.lstrip_with p s) <= String.length s)%nat).
    { clear. induction s as [|d s IH]; [reflexivity|]. cbn [Py.lstrip_with].
      destruct (p d); cbn [String.length]; lia. }
    rewrite Heq in Hlen. cbn [String.length] in Hlen. lia.
  - intros _. rewrite rstrip_keep by exact Hc. cbn [Py.lstrip_with].
    now rewrite Hc.
Qed.

Lemma strip_fixed (s : string) : Py.strip (Py.strip s) = Py.strip s.
Proof.
  unfold Py.strip.
  rewrite lstrip_rstrip by apply lstrip_fixed.
  apply rstrip_rstripped.
Qed.

(** X4.  Every target read from the target file is a line of the file
    with the surrounding white space removed; it is not empty, is no
    comment line, and stripping it again changes nothing. *)
Theorem read_targets_clean (lines : list string) (domain : string) :
  In domain (read_targets lines) ->
  (exists line, In line lines /\ domain = Py.strip line)
  /\ domain <> ""
  /\ Py.startswith domain "#" = false
  /\ Py.strip domain = domain.
Proof.
  unfold read_targets. intros Hin.
  apply List.in_map_iff in Hin as (line & <- & Hin).
  apply List.filter_In in Hin as [Hin Hkeep].
  apply andb_true_iff in Hkeep as [Hne Hcomment].
  split; [now exists line|]. split; [now apply truthy_true|].
  split; [now apply negb_true_iff|]. apply strip_fixed.
Qed.

Lemma read_targets_clean_witness :
  In "example.com" (read_targets ["# targets"; ""; "  example.com "])
  /\ Py.strip "example.com" = "example.com".
Proof.
  assert (Hin : In "example.com"
                   (read_targets ["# targets"; ""; "  example.com "])).
  { left. reflexivity. }
  split; [exact Hin|].
  exact (proj2 (proj2 (proj2 (read_targets_clean _ _ Hin)))).
Defined.

(** ** The link scans *)

Lemma span_spec (p : ascii -> bool) (s a b : string) :
  Scan.span p s = (a, b) ->
  s = a +:+ b
  /\ (forall c, Py.has_char c a = true -> p c = true)
  /\ match b with String c _ => p c = false | EmptyString => True end.
Proof.
  revert a b. induction s as [|x s IH]; intros a b; cbn [Scan.span].
  - intros [= <- <-]. repeat split. intros c Hc. discriminate Hc.
  - destruct (p x) eqn:Hx.
    + destruct (Scan.span p s) as [a' b'] eqn:Hs. intros [= <- <-].
      destruct (IH a' b' eq_refl) as (-> & Hall & Hb).
      split; [reflexivity|]. split; [|exact Hb].
      intros c Hc. cbn [Py.has_char] in Hc.
      apply orb_true_iff in Hc as [Hc | Hc]; [|now apply Hall].
      apply Ascii.eqb_eq in Hc. now subst c.
    + intros [= <- <-]. repeat split; [|exact Hx].
      intros c Hc. discriminate Hc.
Qed.

Lemma has_char_app (c : ascii) (a b : string) :
  Py.has_char c (a +:+ b) = Py.has_char c a || Py.has_char c b.
Proof.
  induction a as [|x a IH]; [reflexivity|].
  cbn [String.append Py.has_char]. now rewrite IH, orb_assoc.
Qed.

Lemma drop_app_length (a b : string) : Py.drop (String.length a) (a +:+ b) = b.
Proof. induction a as [|x a IH]; [now destruct b | exact IH]. Qed.

Lemma quoted_group_spec (is_quote : ascii -> bool) (lead s g : string)
    (n : nat) :
  Scan.quoted_group is_quote lead s = Some (g, n) ->
  exists q body q' rest,
    s = String q (lead +:+ body +:+ String q' rest)
    /\ g = lead +:+ body
    /\ body <> ""
    /\ (forall c, Py.has_char c body = true -> is_quote c = false)
    /\ is_quote q = true /\ is_quote q' = true.
Proof.
  unfold Scan.quoted_group. destruct s as [|q r]; [discriminate|].
  destruct (is_quote q) eqn:Hq; [|discriminate]. cbn [andb].
  destruct (Py.startswith r lead) eqn:Hlead; [|discriminate].
  apply startswith_spec in Hlead as [post ->]. rewrite drop_app_length.
  destruct (Scan.span _ post) as [body after] eqn:Hspan.
  apply span_spec in Hspan as (-> & Hbody & _).
  destruct body as [|b body]; [discriminate|].
  destruct after as [|q' rest]; [discriminate|].
  destruct (is_quote q') eqn:Hq'; [|discriminate].
  intros [= <- _]. exists q, (String b body), q', rest.
  repeat split; try easy.
  intros c Hc. apply Hbody in Hc. now apply negb_true_iff in Hc.
Qed.

Lemma findall_from_spec (m : string -> option (string * nat)) (s : string) :
  forall (skip : nat) (g : string),
    In g (Scan.findall_from m skip s) ->
    exists pre suf n, s = pre +:+ suf /\ m suf = Some (g, n).
Proof.
  induction s as [|c s IH]; intros skip g; cbn [Scan.findall_from];
    [intros []|].
  assert (Htail : forall k, In g (Scan.findall_from m k s) ->
            exists pre suf n, String c s = pre +:+ suf /\ m suf = Some (g, n)).
  { intros k Hin. destruct (IH k g Hin) as (pre & suf & n & -> & Hm).
    now exists (String c pre), suf, n. }
  destruct skip as [|k]; [|apply Htail].
  destruct (m (String c s)) as [[g' n]|] eqn:Hm; [|apply Htail].
  intros [<- | Hin]; [|now apply (Htail (n - 1)%nat)].
  now exists "", (String c s), n.
Qed.

(** A reference stands in the text between two quote characters. *)
Lemma quoted_in_text (is_quote : ascii -> bool) (lead text u : string) :
  (forall c, is_quote c = true -> Scan.quote3 c = true) ->
  (forall c, Scan.quote2 c = true -> is_quote c = true) ->
  (forall c, Py.has_char c lead = true -> Scan.quote2 c = false) ->
  forall pre suf n,
    text = pre +:+ suf ->
    Scan.quoted_group is_quote lead suf = Some (u, n) ->
    u <> ""
    /\ Py.startswith u lead = true
    /\ (forall c, Scan.quote2 c = true -> Py.has_char c u = false)
    /\ exists q q' before after,
         text = before +:+ String q (u +:+ String q' after)
         /\ Scan.quote3 q = true /\ Scan.quote3 q' = true.
Proof.
  intros H3 H2 Hlead pre suf n -> Hg.
  apply quoted_group_spec in Hg
    as (q & body & q' & rest & -> & -> & Hne & Hbody & Hq & Hq').
  split; [|split; [|split]].
  - destruct lead; [exact Hne | discriminate].
  - apply startswith_spec. now exists body.
  - intros c Hc. rewrite has_char_app. apply orb_false_iff. split.
    + destruct (Py.has_char c lead) eqn:Hl; [|reflexivity].
      apply Hlead in Hl. congruence.
    + destruct (Py.has_char c body) eqn:Hb; [|reflexivity].
      apply Hbody in Hb. apply H2 in Hc. congruence.
  - exists q, q', pre, rest. rewrite append_assoc. auto.
Qed.

Lemma match_attr_spec (s u : string) (n : nat) :
  Scan.match_attr s = Some (u, n) ->
  exists kw m, In kw ["href"; "src"; "action"; "url"]
    /\ s = (kw +:+ "=") +:+ Py.drop (String.length kw + 1) s
    /\ Scan.quoted_group Scan.quote2 "" (Py.drop (String.length kw + 1) s)
       = Some (u, m).
Proof.
  unfold Scan.match_attr.
  assert (Hkw : forall kw r,
    (if Py.startswith s (kw +:+ "=")
     then match Scan.quoted_group Scan.quote2 ""
                  (Py.drop (String.length kw + 1) s) with
          | Some (g, n) => Some (g, (String.length kw + 1 + n)%nat)
          | None => None
          end
     else None) = Some r ->
    exists m, s = (kw +:+ "=") +:+ Py.drop (String.length kw + 1) s
      /\ Scan.quoted_group Scan.quote2 "" (Py.drop (String.length kw + 1) s)
         = Some (fst r, m)).
  { intros kw r. destruct (Py.startswith s (kw +:+ "=")) eqn:Hsw;
      [|discriminate].
    destruct (Scan.quoted_group _ _ _) as [[g k]|] eqn:Hg; [|discriminate].
    intros [= <-]. exists k. split; [|reflexivity].
    apply startswith_spec in Hsw as [post Hpost].
    rewrite Hpost at 2.
    replace (String.length kw + 1)%nat with (String.length (kw +:+ "=")).
    - now rewrite drop_app_length.
    - clear. induction kw as [|x kw IH]; [reflexivity|]. cbn. now rewrite IH. }
  intros Hm.
  match type of Hm with
  | match ?t with Some _ => _ | None => _ end = _ =>
      destruct t as [r|] eqn:E1
  end.
  { injection Hm as ->. apply Hkw in E1 as (m & ? & ?).
    exists "href", m. cbn; auto. }
  match type of Hm with
  | match ?t with Some _ => _ | None => _ end = _ =>
      destruct t as [r|] eqn:E2
  end.
  { injection Hm as ->. apply Hkw in E2 as (m & ? & ?).
    exists "src", m. cbn; auto. }
  match type of Hm with
  | match ?t with Some _ => _ | None => _ end = _ =>
      destruct t as [r|] eqn:E3
  end.
  { injection Hm as ->. apply Hkw in E3 as (m & ? & ?).
    exists "action", m. cbn; auto. }
  apply Hkw in Hm as (m & ? & ?). exists "url", m. cbn; auto 6.
Qed.

(** X5.  Every reference the three scans of [crawl_url] extract is a
    non-empty piece of the page that stands between two quote characters
    and holds no single or double quote itself. *)
Theorem extracted_reference_is_quoted (text u : string) :
  In u (Scan.extract_urls text) ->
  u <> ""
  /\ Py.has_char Scan.dquote u = false
  /\ Py.has_char Scan.squote u = false
  /\ exists q q' before after,
       text = before +:+ String q (u +:+ String q' after)
       /\ Scan.quote3 q = true /\ Scan.quote3 q' = true.
Proof.
  assert (Hattr : forall c, Scan.quote2 c = true -> Scan.quote3 c = true).
  { intros c Hc. unfold Scan.quote3. unfold Scan.quote2 in Hc. now rewrite Hc. }
  assert (Hpack : forall lead is_quote pre suf n,
    (forall c, is_quote c = true -> Scan.quote3 c = true) ->
    (forall c, Scan.quote2 c = true -> is_quote c = true) ->
    (forall c, Py.has_char c lead = true -> Scan.quote2 c = false) ->
    text = pre +:+ suf ->
    Scan.quoted_group is_quote lead suf = Some (u, n) ->
    u <> ""
    /\ Py.has_char Scan.dquote u = false
    /\ Py.has_char Scan.squote u = false
    /\ exists q q' before after,
         text = before +:+ String q (u +:+ String q' after)
         /\ Scan.quote3 q = true /\ Scan.quote3 q' = true).
  { intros lead is_quote pre suf n H3 H2 Hlead Htext Hg.
    destruct (quoted_in_text is_quote lead text u H3 H2 Hlead pre suf n
                Htext Hg) as (Hne & _ & Hq & Hex).
    repeat split; [exact Hne | now apply Hq | now apply Hq | exact Hex]. }
  assert (Hslash : forall lead, lead = "/" \/ lead = "/api/" ->
            forall c, Py.has_char c lead = true -> Scan.quote2 c = false).
  { intros lead Hl c Hc. destruct (Scan.quote2 c) eqn:Hq; [|reflexivity].
    unfold Scan.quote2 in Hq. apply orb_true_iff in Hq.
    destruct Hq as [Hq | Hq]; apply Ascii.eqb_eq in Hq; subst c;
      destruct Hl as [-> | ->]; discriminate Hc. }
  unfold Scan.extract_urls, Scan.findall. intros Hin.
  apply List.in_app_or in Hin as [Hin | Hin];
    [|apply List.in_app_or in Hin as [Hin | Hin]];
    apply findall_from_spec in Hin as (pre & suf & n & Htext & Hm).
  - apply match_attr_spec in Hm as (kw & m & _ & Hsuf & Hg).
    apply (Hpack "" Scan.quote2 (pre +:+ kw +:+ "=")
                 (Py.drop (String.length kw + 1) suf) m); auto.
    + intros c Hc. discriminate Hc.
    + rewrite Htext. rewrite Hsuf at 1. now rewrite !append_assoc.
  - apply (Hpack "/" Scan.quote3 pre suf n); auto. apply Hslash. now left.
  - apply (Hpack "/api/" Scan.quote3 pre suf n); auto. apply Hslash. now right.
Qed.

Lemma extracted_reference_is_quoted_witness :
  In "https://evil.com/y" (Scan.extract_urls Stub.page_foreign_link)
  /\ Py.has_char Scan.squote "https://evil.com/y" = false.
Proof.
  assert (Hin : In "https://evil.com/y"
                   (Scan.extract_urls Stub.page_foreign_link)).
  { left. reflexivity. }
  split; [exact Hin|].
  exact (proj1 (proj2 (proj2 (extracted_reference_is_quoted _ _ Hin)))).
Defined.

(** ** The requests of the verifier *)

Section VerifierRuns.
Context `{Env}.

Lemma probe_once_run (url header_name header_value : string) (timeout : Z)
    (results : list probe) (cb : string) (w : world) :
  let rq := mkRequest (url +:+ "?" +:+ cb)
              (probe_headers header_name header_value) timeout false in
  let w1 := mkWorld (events w ++ [EGet rq])%list (S (nreq w)) (ndraw w)
                    (discovered_urls w) in
  let w2 := mkWorld ((events w ++ [EGet rq]) ++ [ESleep 1])%list (S (nreq w))
                    (ndraw w) (discovered_urls w) in
  probe_once url header_name header_value timeout results cb w
  = match net (nreq w) rq with
    | Failure _ => (Ok results, w1)
    | Answer response =>
        if (status_code response =? 302)%Z then
          let location := headers_get (resp_headers response) "Location" "" in
          match validate_response_reflection (text response) header_value
                                             (Some location) with
          | Tuple_False_None =>
              (Raise (TypeError
                        "tuple indices must be integers or slices, not str"),
               w1)
          | Details reflection =>
              (Ok (if location_reflection reflection
                   then (results ++ [mkProbe (url +:+ "?" +:+ cb)
                                       (status_code response) location
                                       reflection (resp_headers response)])%list
                   else results), w2)
          end
        else (Ok results, w2)
    end.
Proof.
  cbv zeta. unfold probe_once, try_except_request, bind, requests_get.
  cbn [events nreq ndraw discovered_urls].
  destruct (net (nreq w) _) as [resp | msg]; [|reflexivity].
  destruct (status_code resp =? 302)%Z; [|reflexivity].
  destruct (validate_response_reflection _ _ _) as [|d]; [reflexivity|].
  destruct (location_reflection d); reflexivity.
Qed.

Lemma verify_run (url header_name header_value : string) (timeout : Z)
    (w : world) :
  let k := ndraw w in
  let w1 := mkWorld (events w ++ [EGet (baseline_request url timeout k)])%list
                    (S (nreq w)) (S (S (S k))) (discovered_urls w) in
  verify_302_poisoning url header_name header_value timeout w
  = match net (nreq w) (baseline_request url timeout k) with
    | Failure msg =>
        (Ok (Rejected ("Error during verification: " +:+ msg)), w1)
    | Answer baseline =>
        if (status_code baseline =? 302)%Z
           && Py.contains (Py.lower header_value)
                (Py.lower (headers_get (resp_headers baseline) "Location" ""))
        then (Ok (Rejected "Baseline already contains payload in redirect"), w1)
        else
          match probe_loop url header_name header_value timeout []
                           [buster k 1; buster k 2] w1 with
          | (Ok results, w2) => (Ok (validate_results results), w2)
          | (Raise (RequestException msg), w2) =>
              (Ok (Rejected ("Error during verification: " +:+ msg)), w2)
          | (Raise e, w2) => (Raise e, w2)
          end
    end.
Proof.
  cbv zeta. unfold verify_302_poisoning, baseline_request, buster.
  unfold cache_buster, draw_entropy.
  unfold bind at 1. unfold bind at 1. cbn [ret events nreq ndraw discovered_urls].
  unfold bind at 1. unfold bind at 1. cbn [ret events nreq ndraw discovered_urls].
  unfold bind at 1. unfold bind at 1. cbn [ret events nreq ndraw discovered_urls].
  unfold try_except_request, bind at 1, requests_get.
  cbn [events nreq ndraw discovered_urls Nat.add].
  destruct (net (nreq w) _) as [baseline | msg]; [|reflexivity].
  destruct (_ && _); [reflexivity|].
  unfold bind at 1.
  destruct (probe_loop _ _ _ _ _ _ _) as [[rs | e] w2]; [reflexivity|].
  destruct e; reflexivity.
Qed.

(** With the empty header value the verifier does not reach its decision
    when the baseline is no 302 and the first probe is answered with a 302:
    the detector has returned its tuple, and indexing it raises. *)
Lemma empty_value_probe_raises (url header_name : string) (timeout : Z)
    (w : world) (baseline answer1 : response) :
  net (nreq w) (baseline_request url timeout (ndraw w)) = Answer baseline ->
  status_code baseline <> 302%Z ->
  net (S (nreq w)) (probe_request url header_name "" timeout (ndraw w) 1)
    = Answer answer1 ->
  status_code answer1 = 302%Z ->
  fst (verify_302_poisoning url header_name "" timeout w)
  = Raise (TypeError "tuple indices must be integers or slices, not str").
Proof.
  intros Hbase Hstatus Hprobe Hredirect. rewrite verify_run. cbv zeta.
  rewrite Hbase. apply Z.eqb_neq in Hstatus. rewrite Hstatus. cbn [andb].
  cbn [probe_loop]. rewrite bind_run, probe_once_run. cbv zeta.
  cbn [nreq events ndraw discovered_urls].
  fold (probe_request url header_name "" timeout (ndraw w) 1).
  rewrite Hprobe. apply Z.eqb_eq in Hredirect. rewrite Hredirect.
  reflexivity.
Qed.

End VerifierRuns.

(** C4.  The claim fails on the empty header value: when the baseline is
    answered with status 200 and the probes with a 302, the verifier neither
    returns a finding nor the rejection, it raises [TypeError]. *)
Theorem verifier_raises_on_empty_value :
  fst (@verify_302_poisoning Stub.env_poisoned "https://example.com/login"
         "X-Forwarded-Host" "" 10 world0)
  = Raise (TypeError "tuple indices must be integers or slices, not str").
Proof.
  apply (@empty_value_probe_raises Stub.env_poisoned
           "https://example.com/login" "X-Forwarded-Host" 10 world0
           (mkResponse 200 [] "ok")
           (mkResponse 302 [("Location", "https://evil.com/dashboard")] ""));
    try reflexivity.
  discriminate.
Qed.

(** ** Cache busters are told apart by their index *)

Lemma pretty_N_go_digits (x : N) :
  forall s, digits s -> digits (pretty_N_go x s).
Proof.
  induction (N.lt_wf_0 x) as [x _ IH]; intros s Hs.
  assert (x = 0 \/ 0 < x)%N as [-> | Hpos] by lia.
  - now rewrite pretty_N_go_0.
  - rewrite pretty_N_go_step by exact Hpos. apply IH.
    + now apply N.div_lt.
    + intros c Hc. cbn [Py.has_char] in Hc.
      apply orb_true_iff in Hc as [Hc | Hc]; [|now apply Hs].
      apply Ascii.eqb_eq in Hc. subst c.
      unfold pretty_N_char. now repeat case_match.
Qed.

Lemma pretty_N_digits (x : N) : digits (pretty x).
Proof.
  unfold pretty, pretty_N. case_decide.
  - intros c Hc. cbn [Py.has_char] in Hc. rewrite orb_false_r in Hc.
    apply Ascii.eqb_eq in Hc. now subst c.
  - apply pretty_N_go_digits. intros c Hc. discriminate Hc.
Qed.

Lemma pretty_nat_digits (i : nat) : digits (pretty i).
Proof. apply pretty_N_digits. Qed.

Lemma digits_tail (c : ascii) (s : string) : digits (String c s) -> digits s.
Proof.
  intros Hd x Hx. apply Hd. cbn [Py.has_char]. rewrite Hx. apply orb_true_r.
Qed.

Lemma digits_head (c : ascii) (s : string) :
  digits (String c s) -> c <> "_"%char.
Proof.
  intros Hd ->. specialize (Hd "_"%char). cbn in Hd. now specialize (Hd eq_refl).
Qed.

(** A numeral followed by an underscore is read back in one way only. *)
Lemma numeral_field_inj (d1 d2 r1 r2 : string) :
  digits d1 -> digits d2 ->
  d1 +:+ "_" +:+ r1 = d2 +:+ "_" +:+ r2 -> d1 = d2 /\ r1 = r2.
Proof.
  revert d2. induction d1 as [|c d1 IH]; intros [|e d2] H1 H2 Heq.
  - cbn in Heq. now injection Heq as ->.
  - cbn in Heq. injection Heq as <- _. now apply digits_head in H2.
  - cbn in Heq. injection Heq as -> _. now apply digits_head in H1.
  - cbn in Heq. injection Heq as -> Heq.
    destruct (IH d2 (digits_tail _ _ H1) (digits_tail _ _ H2) Heq) as [-> ->].
    split; reflexivity.
Qed.

Section VerifierRequestFacts.
Context `{Env}.

Lemma buster_inj (k i j : nat) : buster k i = buster k j -> i = j.
Proof.
  unfold buster. intros Heq.
  apply (inj (String.append "verify_")) in Heq.
  apply numeral_field_inj in Heq as [_ Heq]; [|apply pretty_N_digits..].
  apply numeral_field_inj in Heq as [Heq _]; [|apply pretty_nat_digits..].
  now apply (inj pretty) in Heq.
Qed.

Lemma probe_url_inj (url hn hv : string) (timeout : Z) (k i j : nat) :
  req_url (probe_request url hn hv timeout k i)
  = req_url (probe_request url hn hv timeout k j) -> i = j.
Proof.
  unfold probe_request. cbn [req_url]. intros Heq.
  apply (inj (String.append url)) in Heq.
  apply (inj (String.append "?")) in Heq.
  now apply buster_inj in Heq.
Qed.

Lemma baseline_url_not_probe (url hn hv : string) (timeout : Z) (k i : nat) :
  req_url (baseline_request url timeout k)
  <> req_url (probe_request url hn hv timeout k i).
Proof.
  unfold baseline_request, probe_request, buster. cbn [req_url]. intros Heq.
  apply (inj (String.append url)) in Heq. cbn in Heq. discriminate Heq.
Qed.

(** What one probe leaves in the world. *)
Lemma probe_once_trace (url hn hv : string) (timeout : Z)
    (results : list probe) (cb : string) (w : world) :
  exists evs,
    gets evs = []
    /\ snd (probe_once url hn hv timeout results cb w)
       = mkWorld (events w
                  ++ EGet (mkRequest (url +:+ "?" +:+ cb) (probe_headers hn hv)
                                     timeout false) :: evs)%list
                 (S (nreq w)) (ndraw w) (discovered_urls w).
Proof.
  rewrite probe_once_run. cbv zeta.
  destruct (net (nreq w) _) as [resp | msg].
  - destruct (status_code resp =? 302)%Z.
    + destruct (validate_response_reflection _ _ _) as [|d].
      * now exists [].
      * exists [ESleep 1]. cbn [snd]. now rewrite <- app_assoc.
    + exists [ESleep 1]. cbn [snd]. now rewrite <- app_assoc.
  - now exists [].
Qed.

(** The requests of a run of the verifier. *)
Lemma verify_requests (url hn hv : string) (timeout : Z) (w : world) :
  let run := verify_302_poisoning url hn hv timeout w in
  let b := baseline_request url timeout (ndraw w) in
  let p := probe_request url hn hv timeout (ndraw w) in
  exists probes,
    gets (events (snd run)) = (gets (events w) ++ b :: probes)%list
    /\ nreq (snd run) = (nreq w + 1 + List.length probes)%nat
    /\ (probes = [] \/ probes = [p 1%nat; p 2%nat]
        \/ (probes = [p 1%nat] /\ hv = "")).
Proof.
  cbv zeta. rewrite verify_run. cbv zeta.
  set (b := baseline_request url timeout (ndraw w)).
  assert (Hstop : forall v w1,
            w1 = mkWorld (events w ++ [EGet b])%list (S (nreq w))
                         (S (S (S (ndraw w)))) (discovered_urls w) ->
            exists probes,
              gets (events (snd (@Ok verdict v, w1)))
              = (gets (events w) ++ b :: probes)%list
              /\ nreq (snd (@Ok verdict v, w1))
                 = (nreq w + 1 + List.length probes)%nat
              /\ (probes = [] \/ probes = [probe_request url hn hv timeout
                                             (ndraw w) 1;
                                           probe_request url hn hv timeout
                                             (ndraw w) 2]
                  \/ (probes = [probe_request url hn hv timeout (ndraw w) 1]
                      /\ hv = ""))).
  { intros v w1 ->. exists []. cbn [snd events nreq List.length].
    rewrite gets_app. cbn [gets]. split; [reflexivity|]. split; [lia | now left]. }
  destruct (net (nreq w) b) as [baseline | msg]; [|now apply Hstop].
  destruct (_ && _); [now apply Hstop|]. clear Hstop.
  set (w1 := mkWorld _ _ _ _).
  assert (Hw1g : gets (events w1) = (gets (events w) ++ [b])%list).
  { subst w1. cbn [events]. now rewrite gets_app. }
  assert (Hw1n : nreq w1 = S (nreq w)) by reflexivity.
  clearbody w1.
  cbn [probe_loop]. rewrite bind_run.
  destruct (probe_once_trace url hn hv timeout [] (buster (ndraw w) 1) w1)
    as (evs1 & Hg1 & Hw2).
  pose proof (probe_once_cases url hn hv timeout [] (buster (ndraw w) 1) w1)
    as (_ & _ & _ & Hres1).
  destruct (probe_once url hn hv timeout [] (buster (ndraw w) 1) w1)
    as [[results1 | e] w2]; cbn [fst snd] in Hw2, Hres1.
  - rewrite bind_run.
    destruct (probe_once_trace url hn hv timeout results1
                (buster (ndraw w) 2) w2) as (evs2 & Hg2 & Hw3).
    destruct (probe_once url hn hv timeout results1 (buster (ndraw w) 2) w2)
      as [[results2 | e] w3]; cbn [fst snd] in Hw3;
      exists [probe_request url hn hv timeout (ndraw w) 1;
              probe_request url hn hv timeout (ndraw w) 2];
      (split; [|split; [|right; now left]]).
    + cbn [ret snd]. subst w3 w2. cbn [events].
      repeat first [rewrite gets_app | progress cbn [gets]].
      rewrite Hw1g, Hg1, Hg2. rewrite <- !app_assoc. reflexivity.
    + cbn [ret snd]. subst w3 w2. cbn [nreq List.length]. lia.
    + destruct e; cbn [snd]; subst w3 w2; cbn [events];
        repeat first [rewrite gets_app | progress cbn [gets]];
        rewrite Hw1g, Hg1, Hg2; rewrite <- !app_assoc; reflexivity.
    + destruct e; cbn [snd]; subst w3 w2; cbn [nreq List.length]; lia.
  - destruct Hres1 as [-> ->].
    exists [probe_request url hn "" timeout (ndraw w) 1].
    cbn [snd]. subst w2. cbn [events nreq List.length].
    split; [|split; [lia | right; right; now split]].
    repeat first [rewrite gets_app | progress cbn [gets]].
    rewrite Hw1g, Hg1. rewrite <- !app_assoc. reflexivity.
Qed.

End VerifierRequestFacts.

Section VerifierRequestTheorems.
Context `{Env}.

(** X6.  One run of the verifier issues the baseline request and then
    no probe, or both probes (one only when the empty header value stops the
    run at the first probe): between one and three requests.  None of them
    follows redirects, all use the given timeout, the baseline carries the
    User-Agent header only and every probe carries the injected header. *)
Theorem verifier_issues_one_to_three_requests
    (url header_name header_value : string) (timeout : Z) (w : world) :
  let run := verify_302_poisoning url header_name header_value timeout w in
  exists baseline probes,
    gets (events (snd run)) = (gets (events w) ++ baseline :: probes)%list
    /\ nreq (snd run) = (nreq w + 1 + List.length probes)%nat
    /\ (List.length probes = 0 \/ List.length probes = 2
        \/ (List.length probes = 1 /\ header_value = ""))%nat
    /\ req_headers baseline = [("User-Agent", USER_AGENT)]
    /\ Forall (fun r => In (header_name, header_value) (req_headers r)) probes
    /\ Forall (fun r => allow_redirects r = false /\ req_timeout r = timeout
                        /\ Py.startswith (req_url r) (url +:+ "?") = true)
              (baseline :: probes).
Proof.
  cbv zeta.
  destruct (verify_requests url header_name header_value timeout w)
    as (probes & Hg & Hn & Hcases).
  exists (baseline_request url timeout (ndraw w)), probes.
  split; [exact Hg|]. split; [exact Hn|].
  assert (Hq : forall s, Py.startswith (url +:+ "?" +:+ s) (url +:+ "?") = true).
  { intros s. apply startswith_spec. exists s. now rewrite append_assoc. }
  assert (Hb : allow_redirects (baseline_request url timeout (ndraw w)) = false
               /\ req_timeout (baseline_request url timeout (ndraw w)) = timeout
               /\ Py.startswith
                    (req_url (baseline_request url timeout (ndraw w)))
                    (url +:+ "?") = true).
  { repeat split. apply (Hq ("cb=" +:+ buster (ndraw w) 0)). }
  assert (Hp : forall i,
            allow_redirects (probe_request url header_name header_value
                               timeout (ndraw w) i) = false
            /\ req_timeout (probe_request url header_name header_value
                              timeout (ndraw w) i) = timeout
            /\ Py.startswith
                 (req_url (probe_request url header_name header_value
                             timeout (ndraw w) i))
                 (url +:+ "?") = true).
  { intros i. repeat split. apply Hq. }
  assert (Hh : forall i,
            In (header_name, header_value)
               (req_headers (probe_request url header_name header_value
                               timeout (ndraw w) i))).
  { intros i. unfold probe_request, probe_headers. cbn [req_headers].
    destruct (String.eqb_spec header_name "User-Agent") as [-> | _].
    - now left.
    - right. now left. }
  destruct Hcases as [-> | [-> | [-> ->]]].
  - split; [now left|]. repeat split; auto.
  - split; [right; now left|]. split; [reflexivity|].
    split; [repeat constructor; apply Hh|]. repeat constructor; apply Hb || apply Hp.
  - split; [right; right; now split|]. split; [reflexivity|].
    split; [repeat constructor; apply Hh|]. repeat constructor; apply Hb || apply Hp.
Qed.

(** X7.  The requests of one run of the verifier go to pairwise distinct
    URLs, whatever the clock and the entropy source return: no request of a
    run can be answered from a cache entry that an earlier request of the
    same run created. *)
Theorem verifier_urls_are_distinct
    (url header_name header_value : string) (timeout : Z) (w : world) :
  exists requests,
    gets (events (snd (verify_302_poisoning url header_name header_value
                         timeout w)))
    = (gets (events w) ++ requests)%list
    /\ NoDup (List.map req_url requests).
Proof.
  destruct (verify_requests url header_name header_value timeout w)
    as (probes & Hg & _ & Hcases). cbv zeta in Hg.
  exists (baseline_request url timeout (ndraw w) :: probes).
  split; [exact Hg|].
  pose proof (baseline_url_not_probe url header_name header_value timeout
                (ndraw w)) as Hb.
  pose proof (probe_url_inj url header_name header_value timeout (ndraw w))
    as Hp.
  destruct Hcases as [-> | [-> | [-> ->]]]; cbn [List.map].
  - repeat constructor. intros Hin. inversion Hin.
  - repeat constructor.
    + intros Hin. apply elem_of_cons in Hin as [Hin | Hin];
        [now apply Hb in Hin|].
      apply elem_of_cons in Hin as [Hin | Hin]; [now apply Hb in Hin|].
      inversion Hin.
    + intros Hin. apply elem_of_cons in Hin as [Hin | Hin];
        [apply Hp in Hin; discriminate Hin | inversion Hin].
    + intros Hin. inversion Hin.
  - repeat constructor.
    + intros Hin. apply elem_of_cons in Hin as [Hin | Hin];
        [now apply Hb in Hin | inversion Hin].
    + intros Hin. inversion Hin.
Qed.

(** X8.  A verified finding means that the baseline request and both
    probes were answered, that the baseline answer was not a 302 whose
    Location holds the injected value, that each probe answer was a 302
    whose Location holds the injected value and that the two Locations are
    equal; the finding reported is the first probe, and the run made exactly
    three requests. *)
Theorem verified_means_both_probes_redirected
    (url header_name header_value : string) (timeout : Z) (w w' : world)
    (result : probe) :
  verify_302_poisoning url header_name header_value timeout w
    = (Ok (Verified result), w') ->
  exists answer0 answer1 answer2,
    net (nreq w) (baseline_request url timeout (ndraw w)) = Answer answer0
    /\ ~ (status_code answer0 = 302%Z
          /\ ci_substring header_value
               (headers_get (resp_headers answer0) "Location" ""))
    /\ net (S (nreq w))
           (probe_request url header_name header_value timeout (ndraw w) 1)
       = Answer answer1
    /\ net (S (S (nreq w)))
           (probe_request url header_name header_value timeout (ndraw w) 2)
       = Answer answer2
    /\ status_code answer1 = 302%Z /\ status_code answer2 = 302%Z
    /\ headers_get (resp_headers answer1) "Location" "" = p_location result
    /\ headers_get (resp_headers answer2) "Location" "" = p_location result
    /\ ci_substring header_value (p_location result)
    /\ p_url result
       = req_url (probe_request url header_name header_value timeout
                    (ndraw w) 1)
    /\ nreq w' = (nreq w + 3)%nat.
Proof.
  rewrite verify_run. cbv zeta.
  destruct (net (nreq w) (baseline_request url timeout (ndraw w)))
    as [baseline | msg] eqn:Hbase; [|discriminate].
  destruct (_ && _) eqn:Hambient; [discriminate|].
  assert (Hclean : ~ (status_code baseline = 302%Z
                      /\ ci_substring header_value
                           (headers_get (resp_headers baseline) "Location" ""))).
  { intros [Hs Hc]. apply Z.eqb_eq in Hs. apply contains_lower_spec in Hc.
    rewrite Hs, Hc in Hambient. discriminate Hambient. }
  clear Hambient.
  cbn [probe_loop]. rewrite bind_run, probe_once_run. cbv zeta.
  cbn [nreq events ndraw discovered_urls].
  fold (probe_request url header_name header_value timeout (ndraw w) 1).
  destruct (net (S (nreq w)) _) as [answer1 | msg1].
  2:{ rewrite bind_run, probe_once_run. cbv zeta.
      cbn [nreq events ndraw discovered_urls].
      destruct (net (S (S (nreq w))) _) as [answer2 | msg2]; [|discriminate].
      destruct (status_code answer2 =? 302)%Z; [|discriminate].
      destruct (validate_response_reflection _ _ _) as [|d2]; [discriminate|].
      destruct (location_reflection d2); discriminate. }
  destruct (status_code answer1 =? 302)%Z eqn:Hs1.
  2:{ rewrite bind_run, probe_once_run. cbv zeta.
      cbn [nreq events ndraw discovered_urls].
      destruct (net (S (S (nreq w))) _) as [answer2 | msg2]; [|discriminate].
      destruct (status_code answer2 =? 302)%Z; [|discriminate].
      destruct (validate_response_reflection _ _ _) as [|d2]; [discriminate|].
      destruct (location_reflection d2); discriminate. }
  destruct (validate_response_reflection (text answer1) _ _) as [|d1] eqn:Hd1;
    [discriminate|].
  rewrite bind_run, probe_once_run. cbv zeta.
  cbn [nreq events ndraw discovered_urls].
  fold (probe_request url header_name header_value timeout (ndraw w) 2).
  destruct (net (S (S (nreq w))) _) as [answer2 | msg2].
  2:{ destruct (location_reflection d1); discriminate. }
  destruct (status_code answer2 =? 302)%Z eqn:Hs2.
  2:{ destruct (location_reflection d1); discriminate. }
  destruct (validate_response_reflection (text answer2) _ _) as [|d2] eqn:Hd2;
    [discriminate|].
  destruct (location_reflection d1) eqn:Hr1;
    destruct (location_reflection d2) eqn:Hr2; try discriminate.
  cbn [ret app]. intros Hrun. injection Hrun as Hv Hw'.
  apply validate_results_verified in Hv as (_ & Hsame & Hhead).
  injection Hhead as <-. cbn [p_location p_url].
  exists baseline, answer1, answer2.
  split; [reflexivity|]. split; [exact Hclean|].
  split; [reflexivity|]. split; [reflexivity|].
  split; [now apply Z.eqb_eq|]. split; [now apply Z.eqb_eq|].
  split; [reflexivity|]. split.
  { symmetry.
    apply (Hsame (mkProbe (url +:+ "?" +:+ buster (ndraw w) 1)
                    (status_code answer1)
                    (headers_get (resp_headers answer1) "Location" "") d1
                    (resp_headers answer1))
                 (mkProbe (url +:+ "?" +:+ buster (ndraw w) 2)
                    (status_code answer2)
                    (headers_get (resp_headers answer2) "Location" "") d2
                    (resp_headers answer2))).
    - apply elem_of_cons. now left.
    - apply elem_of_cons. right. apply elem_of_cons. now left. }
  split.
  { apply contains_lower_spec.
    now apply (reflection_flag_spec _ _ _ _ Hd1). }
  split; [reflexivity|]. subst w'. cbn [nreq]. lia.
Qed.

End VerifierRequestTheorems.

Lemma verified_means_both_probes_redirected_witness :
  exists (result : probe) (w' : world) (answer0 answer2 : response),
    @verify_302_poisoning Stub.env_poisoned "https://example.com/login"
       "X-Forwarded-Host" "evil.com" 10 world0 = (Ok (Verified result), w')
    /\ @net Stub.env_poisoned 0
         (@baseline_request Stub.env_poisoned "https://example.com/login" 10 0)
       = Answer answer0
    /\ @net Stub.env_poisoned 2
         (@probe_request Stub.env_poisoned "https://example.com/login"
            "X-Forwarded-Host" "evil.com" 10 0 2) = Answer answer2
    /\ status_code answer2 = 302%Z
    /\ nreq w' = 3%nat.
Proof.
  destruct (@verify_302_poisoning Stub.env_poisoned "https://example.com/login"
              "X-Forwarded-Host" "evil.com" 10 world0) as [r w'] eqn:Hrun.
  assert (Hr : exists result, r = Ok (Verified result)).
  { apply (f_equal fst) in Hrun. cbn [fst] in Hrun. rewrite <- Hrun.
    vm_compute. eexists. reflexivity. }
  destruct Hr as [result ->].
  destruct (@verified_means_both_probes_redirected Stub.env_poisoned _ _ _ _ _
              _ _ Hrun)
    as (answer0 & answer1 & answer2 & H0 & _ & _ & H2 & _ & Hs2 & _ & _ & _
        & _ & Hn).
  exists result, w', answer0, answer2. repeat split; assumption.
Defined.

(** ** The decision of the verifier on the answers to its probes *)

Section VerifierDecision.
Context `{Env}.

(** With a non-empty header value one turn of the loop appends what
    [recorded] reads off the answer to its request, and nothing else. *)
Lemma probe_once_recorded (url header_name header_value : string)
    (timeout : Z) (results : list probe) (k i : nat) (w : world) :
  header_value <> "" ->
  exists w',
    probe_once url header_name header_value timeout results (buster k i) w
    = (Ok (results
           ++ recorded url header_name header_value timeout k (nreq w) i)%list,
       w')
    /\ nreq w' = S (nreq w).
Proof.
  intros Hne. rewrite probe_once_run. cbv zeta. unfold recorded.
  fold (probe_request url header_name header_value timeout k i).
  cbn [req_url probe_request].
  destruct (net (nreq w) _) as [response | msg].
  - destruct (status_code response =? 302)%Z.
    + destruct (validate_response_reflection _ _ _) as [|d] eqn:Hd.
      * exfalso. unfold validate_response_reflection in Hd.
        apply truthy_true in Hne. rewrite Hne in Hd. discriminate Hd.
      * eexists. split.
        { destruct (location_reflection d); [reflexivity|].
          rewrite app_nil_r. reflexivity. }
        reflexivity.
    + eexists. split; [rewrite app_nil_r; reflexivity | reflexivity].
  - eexists. split; [rewrite app_nil_r; reflexivity | reflexivity].
Qed.

(** X22.  For a non-empty header value and a baseline that is answered and
    is not a 302 whose Location holds the value, the verdict of
    [verify_302_poisoning] is the decision of lines 610-617 on the probe
    successes recorded from the answers to its two probe requests: a
    finding exactly when both are recorded and their Locations are equal,
    the finding being the first of them, and otherwise the rejection as
    inconsistent or insufficient. *)
Theorem verifier_decides_on_recorded_probes
    (url header_name header_value : string) (timeout : Z) (w : world)
    (baseline : response) :
  header_value <> "" ->
  net (nreq w) (baseline_request url timeout (ndraw w)) = Answer baseline ->
  ~ (status_code baseline = 302%Z
     /\ ci_substring header_value
          (headers_get (resp_headers baseline) "Location" "")) ->
  let results :=
    (recorded url header_name header_value timeout (ndraw w) (S (nreq w)) 1
     ++ recorded url header_name header_value timeout (ndraw w)
          (S (S (nreq w))) 2)%list in
  let outcome :=
    fst (verify_302_poisoning url header_name header_value timeout w) in
  outcome = Ok (validate_results results)
  /\ (forall r,
        outcome = Ok (Verified r) <->
        (2 <= List.length results)%nat
        /\ (forall a b, a ∈ results -> b ∈ results ->
                        p_location a = p_location b)
        /\ head results = Some r)
  /\ ((forall r, outcome <> Ok (Verified r)) ->
      outcome = Ok (Rejected "Inconsistent or insufficient 302 responses")).
Proof.
  intros Hne Hbase Hclean. cbv zeta.
  assert (Hrun : fst (verify_302_poisoning url header_name header_value
                        timeout w)
                 = Ok (validate_results
                         (recorded url header_name header_value timeout
                            (ndraw w) (S (nreq w)) 1
                          ++ recorded url header_name header_value timeout
                               (ndraw w) (S (S (nreq w))) 2)%list)).
  { rewrite verify_run. cbv zeta. rewrite Hbase.
    destruct (_ && _) eqn:Hambient.
    { exfalso. apply Hclean. apply andb_true_iff in Hambient as [Hs Hc].
      split; [now apply Z.eqb_eq | now apply contains_lower_spec]. }
    cbn [probe_loop]. rewrite bind_run.
    match goal with |- context [probe_once _ _ _ _ [] _ ?w1] =>
      destruct (probe_once_recorded url header_name header_value timeout []
                  (ndraw w) 1 w1 Hne) as (w2 & -> & Hn2)
    end.
    rewrite bind_run.
    destruct (probe_once_recorded url header_name header_value timeout
                ([] ++ recorded url header_name header_value timeout (ndraw w)
                         (S (nreq w)) 1)%list
                (ndraw w) 2 w2 Hne) as (w3 & Hrun3 & _).
    cbn [nreq app] in Hrun3 |- *. rewrite Hrun3. cbn [ret fst].
    rewrite Hn2. reflexivity. }
  rewrite Hrun. split; [reflexivity|]. split.
  - intros r. split.
    + intros [= Hv]. now apply validate_results_verified.
    + intros Hv. f_equal. now apply validate_results_verified.
  - intros Hnot. f_equal. apply validate_results_rejected.
    intros r Hv. apply (Hnot r). now rewrite Hv.
Qed.

End VerifierDecision.

Lemma verifier_decides_on_recorded_probes_witness :
  "evil.com" <> ""
  /\ exists result,
       fst (@verify_302_poisoning Stub.env_poisoned "https://example.com/login"
              "X-Forwarded-Host" "evil.com" 10 world0)
       = Ok (Verified result)
       /\ p_location result = "https://evil.com/dashboard".
Proof.
  split; [discriminate|].
  destruct (@verifier_decides_on_recorded_probes Stub.env_poisoned
              "https://example.com/login" "X-Forwarded-Host" "evil.com" 10
              world0 (mkResponse 200 [] "ok"))
    as (Hrun & _ & _).
  - discriminate.
  - reflexivity.
  - intros [Hs _]. discriminate Hs.
  - rewrite Hrun. eexists. split; [vm_compute; reflexivity | reflexivity].
Defined.

(** ** Relations between the worlds of a run *)

Section Relational.
Variable R : world -> world -> Prop.
Hypothesis R_refl : forall w, R w w.
Hypothesis R_trans : forall a b c, R a b -> R b c -> R a c.

Lemma rel_bind {A B} (c : M A) (k : A -> M B) (w : world) :
  R w (snd (c w)) ->
  (forall a w1, c w = (Ok a, w1) -> R w1 (snd (k a w1))) ->
  R w (snd (bind c k w)).
Proof.
  intros Hc Hk. rewrite bind_run.
  destruct (c w) as [[a | e] w1]; [|exact Hc].
  eapply R_trans; [exact Hc | now apply Hk].
Qed.

Lemma rel_for_each {A} (body : A -> M unit) (l : list A) :
  (forall x, In x l -> forall w, R w (snd (body x w))) ->
  forall w, R w (snd (for_each l body w)).
Proof.
  induction l as [|x l IH]; intros Hbody w; [apply R_refl|].
  cbn [for_each]. apply rel_bind.
  - apply Hbody. now left.
  - intros _ w1 _. apply IH. intros y Hy. apply Hbody. now right.
Qed.

Lemma rel_try_request {A} (body : M A) (handler : string -> M A) (w : world) :
  R w (snd (body w)) ->
  (forall msg w1, body w = (Raise (RequestException msg), w1) ->
                  R w1 (snd (handler msg w1))) ->
  R w (snd (try_except_request body handler w)).
Proof.
  intros Hb Hh. unfold try_except_request.
  destruct (body w) as [[a | e] w1]; [exact Hb|].
  destruct e; try exact Hb.
  eapply R_trans; [exact Hb | now apply Hh].
Qed.

Lemma rel_try {A} (body : M A) (handler : exn -> M A) (w : world) :
  R w (snd (body w)) ->
  (forall e w1, body w = (Raise e, w1) -> R w1 (snd (handler e w1))) ->
  R w (snd (try_except body handler w)).
Proof.
  intros Hb Hh. unfold try_except.
  destruct (body w) as [[a | e] w1]; [exact Hb|].
  eapply R_trans; [exact Hb | now apply Hh].
Qed.

End Relational.

Lemma emitting_refl (Q : event -> Prop) (w : world) : emitting Q w w.
Proof. exists []. now rewrite app_nil_r. Qed.

Lemma emitting_trans (Q : event -> Prop) (a b c : world) :
  emitting Q a b -> emitting Q b c -> emitting Q a c.
Proof.
  intros (e1 & H1 & Q1) (e2 & H2 & Q2). exists (e1 ++ e2)%list.
  split; [now rewrite H2, H1, <- app_assoc | now apply Forall_app].
Qed.

Lemma emitting_impl (P Q : event -> Prop) (w w' : world) :
  (forall e, P e -> Q e) -> emitting P w w' -> emitting Q w w'.
Proof.
  intros HPQ (evs & Hev & HP). exists evs. split; [exact Hev|].
  eapply Forall_impl; [exact HP | exact HPQ].
Qed.

Lemma emitting_emit (Q : event -> Prop) (e : event) (w : world) :
  Q e -> emitting Q w (snd (emit e w)).
Proof. intros He. exists [e]. split; [reflexivity | now constructor]. Qed.

Lemma emitting_silent (Q : event -> Prop) (w w' : world) :
  events w' = events w -> emitting Q w w'.
Proof. intros He. exists []. now rewrite app_nil_r. Qed.

Section DriverFacts.
Context `{Env}.

Lemma emitting_get (Q : event -> Prop) (rq : request) (w : world) :
  Q (EGet rq) -> emitting Q w (snd (requests_get rq w)).
Proof. intros He. exists [EGet rq]. split; [reflexivity | now constructor]. Qed.

Lemma probe_once_probing (url hn hv : string) (timeout : Z)
    (results : list probe) (cb : string) (w : world) :
  emitting probing w (snd (probe_once url hn hv timeout results cb w)).
Proof.
  destruct (probe_once_cases url hn hv timeout results cb w)
    as (evs & _ & _ & _).
  rewrite probe_once_run. cbv zeta.
  destruct (net (nreq w) _) as [resp | msg].
  - destruct (status_code resp =? 302)%Z.
    + destruct (validate_response_reflection _ _ _) as [|d].
      * eexists [_]. split; [reflexivity|]. now repeat constructor.
      * eexists [_; _]. cbn [snd events]. rewrite <- app_assoc.
        split; [reflexivity|]. now repeat constructor.
    + eexists [_; _]. cbn [snd events]. rewrite <- app_assoc.
      split; [reflexivity|]. now repeat constructor.
  - eexists [_]. split; [reflexivity|]. now repeat constructor.
Qed.

Lemma probe_loop_probing (url hn hv : string) (timeout : Z)
    (cbs : list string) :
  forall (results : list probe) (w : world),
    emitting probing w (snd (probe_loop url hn hv timeout results cbs w)).
Proof.
  induction cbs as [|cb cbs IH]; intros results w;
    [apply emitting_refl|].
  cbn [probe_loop].
  apply (rel_bind _ (emitting_trans probing)).
  - apply probe_once_probing.
  - intros results1 w1 _. apply IH.
Qed.

Lemma verify_probing (url hn hv : string) (timeout : Z) (w : world) :
  emitting probing w (snd (verify_302_poisoning url hn hv timeout w)).
Proof.
  rewrite verify_run. cbv zeta.
  set (b := baseline_request url timeout (ndraw w)).
  set (w1 := mkWorld _ _ _ _).
  assert (H1 : emitting probing w w1).
  { exists [EGet b]. split; [reflexivity | now repeat constructor]. }
  destruct (net (nreq w) b) as [baseline | msg]; [|exact H1].
  destruct (_ && _); [exact H1|].
  pose proof (probe_loop_probing url hn hv timeout
                [buster (ndraw w) 1; buster (ndraw w) 2] [] w1) as H2.
  destruct (probe_loop _ _ _ _ _ _ _) as [[rs | e] w2]; cbn [snd] in *.
  - exact (emitting_trans _ _ _ _ H1 H2).
  - destruct e; cbn [snd]; exact (emitting_trans _ _ _ _ H1 H2).
Qed.

(** What the loop over the cache busters records: a 302 whose Location holds
    the injected value, with the flag of the reflection dict set. *)
Lemma probe_once_keeps (url hn hv : string) (timeout : Z)
    (results results' : list probe) (cb : string) (w : world) :
  let recorded p :=
    reflecting hv p /\ location_reflection (p_reflection p) = true in
  Forall recorded results ->
  fst (probe_once url hn hv timeout results cb w) = Ok results' ->
  Forall recorded results'.
Proof.
  cbv zeta. intros Hres. rewrite probe_once_run. cbv zeta.
  destruct (net (nreq w) _) as [resp | msg].
  - destruct (status_code resp =? 302)%Z eqn:Hs.
    + destruct (validate_response_reflection _ _ _) as [|d] eqn:Hd;
        [discriminate|].
      destruct (location_reflection d) eqn:Hr.
      * intros [= <-]. apply Forall_app. split; [exact Hres|].
        constructor; [|constructor]. repeat split; cbn.
        -- now apply Z.eqb_eq.
        -- now apply (reflection_flag_spec _ _ _ _ Hd).
        -- exact Hr.
      * now intros [= <-].
    + now intros [= <-].
  - now intros [= <-].
Qed.

Lemma probe_loop_keeps (url hn hv : string) (timeout : Z)
    (cbs : list string) :
  let recorded p :=
    reflecting hv p /\ location_reflection (p_reflection p) = true in
  forall (results results' : list probe) (w : world),
    Forall recorded results ->
    fst (probe_loop url hn hv timeout results cbs w) = Ok results' ->
    Forall recorded results'.
Proof.
  cbv zeta. induction cbs as [|cb cbs IH]; intros results results' w Hres.
  - now intros [= <-].
  - cbn [probe_loop]. rewrite bind_run.
    pose proof (probe_once_keeps url hn hv timeout results) as Hone.
    cbv zeta in Hone. specialize (fun r => Hone r cb w Hres).
    destruct (probe_once url hn hv timeout results cb w)
      as [[results1 | e] w1]; [|discriminate].
    apply IH. now apply Hone.
Qed.

(** What the verifier hands back as a finding was recorded as a probe
    success. *)
Lemma verified_is_recorded (url hn hv : string) (timeout : Z)
    (w w' : world) (result : probe) :
  verify_302_poisoning url hn hv timeout w = (Ok (Verified result), w') ->
  reflecting hv result /\ location_reflection (p_reflection result) = true.
Proof.
  rewrite verify_run. cbv zeta.
  destruct (net (nreq w) _) as [baseline | msg]; [|discriminate].
  destruct (_ && _); [discriminate|].
  pose proof (probe_loop_keeps url hn hv timeout
                [buster (ndraw w) 1; buster (ndraw w) 2] []) as Hkeep.
  cbv zeta in Hkeep.
  match goal with |- context [probe_loop _ _ _ _ _ _ ?w1] =>
    specialize (fun r => Hkeep r w1 (List.Forall_nil _));
    destruct (probe_loop url hn hv timeout []
                [buster (ndraw w) 1; buster (ndraw w) 2] w1)
      as [[rs | e] w2]
  end; [|destruct e; discriminate].
  intros [= Hval _]. specialize (Hkeep rs eq_refl).
  apply validate_results_verified in Hval as (_ & _ & Hhd).
  destruct rs as [|p rs]; [discriminate|]. injection Hhd as ->.
  now apply Forall_inv in Hkeep.
Qed.

End DriverFacts.

Lemma spent_refl (w : world) : spent 0 w w.
Proof. unfold spent. lia. Qed.

Lemma spent_weaken (n m : nat) (w w' : world) :
  (n <= m)%nat -> spent n w w' -> spent m w w'.
Proof. unfold spent. lia. Qed.

Lemma spent_bind {A B} (n1 n2 : nat) (c : M A) (k : A -> M B) (w : world) :
  spent n1 w (snd (c w)) ->
  (forall a w1, c w = (Ok a, w1) -> spent n2 w1 (snd (k a w1))) ->
  spent (n1 + n2) w (snd (bind c k w)).
Proof.
  intros Hc Hk. rewrite bind_run.
  destruct (c w) as [[a | e] w1]; cbn [snd] in *.
  - specialize (Hk a w1 eq_refl). unfold spent in *. lia.
  - unfold spent in *. lia.
Qed.

Lemma spent_for_each {A} (cost : A -> nat) (body : A -> M unit) (l : list A) :
  (forall x w, spent (cost x) w (snd (body x w))) ->
  forall w, spent (list_sum (List.map cost l)) w (snd (for_each l body w)).
Proof.
  intros Hbody. induction l as [|x l IH]; intros w; [apply spent_refl|].
  cbn [for_each List.map]. change (list_sum (cost x :: List.map cost l))
    with (cost x + list_sum (List.map cost l))%nat.
  apply spent_bind; [apply Hbody|].
  intros _ w1 _. apply IH.
Qed.

Lemma spent_emit (e : event) (w : world) : spent 0 w (snd (emit e w)).
Proof. unfold spent. cbn. lia. Qed.

Section DriverTheorems.
Context `{Env}.

Lemma test_value_spent (url output_file hn hv : string) (timeout : Z)
    (w : world) :
  spent 3 w (snd (test_value url output_file hn hv timeout w)).
Proof.
  unfold test_value. apply (spent_bind 3 0).
  - destruct (verify_requests url hn hv timeout w) as (probes & _ & Hn & Hc).
    cbv zeta in Hn. unfold spent. rewrite Hn.
    destruct Hc as [-> | [-> | [-> _]]]; cbn [List.length]; lia.
  - intros v w1 _. apply (spent_bind 0 0); [|intros; apply spent_emit].
    destruct v as [result | reason]; [|apply spent_refl].
    apply (spent_bind 0 0); [apply spent_emit|]. intros _ w2 _.
    apply (spent_bind 0 0); [apply spent_emit|]. intros _ w3 _.
    apply spent_emit.
Qed.

Lemma test_value_sound (url payloads_file output_file : string)
    (payloads : catalog) (hn : string) (hvs : list string) (hv : string)
    (timeout : Z) (w : world) :
  payload_files payloads_file = Ok payloads ->
  In (hn, hvs) payloads -> In hv hvs ->
  emitting (sound_record url payloads_file output_file) w
           (snd (test_value url output_file hn hv timeout w)).
Proof.
  intros Hfile Hhn Hhv. unfold test_value.
  apply (rel_bind _ (emitting_trans _)).
  - eapply emitting_impl; [|apply verify_probing].
    intros [] He; now cbn in *.
  - intros v w1 Hrun.
    apply (rel_bind _ (emitting_trans _));
      [|intros; now apply emitting_emit].
    destruct v as [result | reason]; [|apply emitting_refl].
    apply verified_is_recorded in Hrun as [[Hs Hc] Hflag].
    apply (rel_bind _ (emitting_trans _)).
    + apply emitting_emit. cbn. repeat split; try assumption.
      exists payloads, hn, hvs, hv. repeat split; try assumption.
      now apply contains_lower_spec.
    + intros _ w2 _. apply (rel_bind _ (emitting_trans _));
        [now apply emitting_emit|].
      intros _ w3 _. now apply emitting_emit.
Qed.

(** X9.  [test_cache_poisoning] never raises: whatever goes wrong is
    logged and the call returns.  When the payload file cannot be read the
    call makes no request and leaves one ERROR line; with an empty payload
    file it does nothing. *)
Theorem test_cache_poisoning_contains_errors
    (url payloads_file output_file : string) (mode : scan_mode) (timeout : Z)
    (w : world) :
  fst (test_cache_poisoning url payloads_file output_file mode timeout w)
  = Ok tt
  /\ (forall e,
        payload_files payloads_file = Raise e ->
        test_cache_poisoning url payloads_file output_file mode timeout w
        = (Ok tt,
           mkWorld (events w
                    ++ [ELog "ERROR"
                          ("Error testing " +:+ url +:+ ": " +:+ exn_str e)])%list
                   (nreq w) (ndraw w) (discovered_urls w)))
  /\ (payload_files payloads_file = Ok [] ->
      test_cache_poisoning url payloads_file output_file mode timeout w
      = (Ok tt, w)).
Proof.
  unfold test_cache_poisoning, try_except. split; [|split].
  - destruct (bind _ _ w) as [[[] | e] w1]; reflexivity.
  - intros e He. rewrite bind_run, He. reflexivity.
  - intros He. rewrite bind_run, He. reflexivity.
Qed.

(** X10.  Every finding [test_cache_poisoning] writes goes to the given
    output file, names the tested URL, has status code 302 and the constant
    verification fields, and its header line is a header name and value of
    the payload file, that value being held (without regard to case) by the
    recorded Location. *)
Theorem recorded_findings_are_sound
    (url payloads_file output_file : string) (mode : scan_mode) (timeout : Z)
    (w : world) :
  exists evs,
    events (snd (test_cache_poisoning url payloads_file output_file mode
                   timeout w))
    = (events w ++ evs)%list
    /\ Forall (sound_record url payloads_file output_file) evs.
Proof.
  change (emitting (sound_record url payloads_file output_file) w
            (snd (test_cache_poisoning url payloads_file output_file mode
                    timeout w))).
  unfold test_cache_poisoning.
  apply (rel_try _ (emitting_trans _));
    [|intros e w1 _; now apply emitting_emit].
  apply (rel_bind _ (emitting_trans _)).
  - now apply emitting_silent.
  - intros payloads w1 Hfile.
    assert (Hp : payload_files payloads_file = Ok payloads).
    { now injection Hfile as -> _. }
    apply (rel_for_each _ (emitting_refl _) (emitting_trans _)).
    intros [hn hvs] Hhn w2.
    apply (rel_for_each _ (emitting_refl _) (emitting_trans _)).
    intros hv Hhv w3. now apply (test_value_sound _ _ _ payloads hn hvs).
Qed.

(** X11.  Testing one URL makes at most three requests for every header
    value of the payload file. *)
Theorem test_cache_poisoning_request_bound
    (url payloads_file output_file : string) (mode : scan_mode) (timeout : Z)
    (w : world) (payloads : catalog) :
  payload_files payloads_file = Ok payloads ->
  let w' := snd (test_cache_poisoning url payloads_file output_file mode
                   timeout w) in
  (nreq w <= nreq w' <= nreq w + 3 * total_headers payloads)%nat.
Proof.
  intros Hfile. cbv zeta.
  change (spent (3 * total_headers payloads) w
            (snd (test_cache_poisoning url payloads_file output_file mode
                    timeout w))).
  unfold test_cache_poisoning, try_except. rewrite bind_run, Hfile.
  assert (Hloop : spent (3 * total_headers payloads) w
                    (snd (for_each payloads (fun '(header_name, header_values) =>
                       for_each header_values (fun header_value =>
                         test_value url output_file header_name header_value
                                    timeout)) w))).
  { eapply spent_weaken;
      [|apply (spent_for_each
                 (fun '(_, header_values) => (3 * List.length header_values)%nat))].
    - unfold total_headers. clear. induction payloads as [|[hn hvs] l IH];
        unfold list_sum in *; cbn [List.map fold_right]; lia.
    - intros [hn hvs] w1.
      eapply spent_weaken;
        [|apply (spent_for_each (fun _ => 3%nat)); intros hv w2;
          apply test_value_spent].
      clear. induction hvs as [|hv l IH]; unfold list_sum in *;
        cbn [List.map fold_right List.length]; lia. }
  destruct (for_each payloads _ w) as [[[] | e] w1]; cbn [snd] in *;
    [exact Hloop|].
  unfold spent in *. cbn. lia.
Qed.

End DriverTheorems.

Lemma test_cache_poisoning_contains_errors_witness :
  @payload_files Stub.env_foreign_link "payloads.json"
    = Raise (OSError "No such file or directory")
  /\ gets (events (snd (@test_cache_poisoning Stub.env_foreign_link
                          "https://example.com/login" "payloads.json"
                          "results.txt" standard 10 world0))) = [].
Proof.
  split; [reflexivity|].
  rewrite (proj1 (proj2 (@test_cache_poisoning_contains_errors
                           Stub.env_foreign_link "https://example.com/login"
                           "payloads.json" "results.txt" standard 10 world0))
             (OSError "No such file or directory") eq_refl).
  reflexivity.
Defined.

Lemma test_cache_poisoning_request_bound_witness :
  @payload_files Stub.env_poisoned "payloads.json"
    = Ok [("X-Forwarded-Host", ["evil.com"])]
  /\ (nreq (snd (@test_cache_poisoning Stub.env_poisoned
                   "https://example.com/login" "payloads.json" "results.txt"
                   standard 10 world0)) <= 3)%nat.
Proof.
  split; [reflexivity|].
  apply (@test_cache_poisoning_request_bound Stub.env_poisoned
           "https://example.com/login" "payloads.json" "results.txt" standard
           10 world0 [("X-Forwarded-Host", ["evil.com"])] eq_refl).
Defined.

(** ** The results of the discovery *)

Section DiscoveryResults.
Context `{UrlLib} `{Env}.

Lemma filter_loop_step (target_domain url : string) (urls : list string)
    (filtered_urls : gset string) :
  filter_loop target_domain (url :: urls) filtered_urls
  = filter_loop target_domain urls
      (if keeps target_domain url && (size filtered_urls <? MAX_URLS)%nat
       then {[url]} ∪ filtered_urls else filtered_urls).
Proof.
  cbn [filter_loop]. unfold keeps.
  destruct (urlparse url) as [parsed|]; reflexivity.
Qed.

Lemma filter_loop_sound (target_domain : string) (urls : list string) :
  forall (filtered_urls : gset string) (u : string),
    u ∈ filter_loop target_domain urls filtered_urls ->
    u ∈ filtered_urls \/ (In u urls /\ keeps target_domain u = true).
Proof.
  induction urls as [|url urls IH]; intros acc u; [now left|].
  rewrite filter_loop_step. intros Hu. apply IH in Hu as [Hu | [Hu Hk]].
  - destruct (keeps target_domain url) eqn:Hk; [|now left].
    destruct (size acc <? MAX_URLS)%nat; [|now left]. cbn [andb] in Hu.
    apply elem_of_union in Hu as [Hu | Hu]; [|now left].
    apply elem_of_singleton in Hu as ->. right. split; [now left | exact Hk].
  - right. split; [now right | exact Hk].
Qed.

Lemma filter_loop_complete (target_domain : string) (urls : list string) :
  forall (filtered_urls : gset string) (u : string),
    (size filtered_urls + List.length urls <= MAX_URLS)%nat ->
    u ∈ filtered_urls \/ (In u urls /\ keeps target_domain u = true) ->
    u ∈ filter_loop target_domain urls filtered_urls.
Proof.
  induction urls as [|url urls IH]; intros acc u Hsz Hu.
  - destruct Hu as [Hu | [[] _]]. exact Hu.
  - rewrite filter_loop_step. cbn [List.length] in Hsz.
    assert (Hroom : (size acc <? MAX_URLS)%nat = true)
      by (apply Nat.ltb_lt; lia).
    rewrite Hroom, andb_true_r. apply IH.
    + destruct (keeps target_domain url); [|lia].
      pose proof (size_add_le url acc). lia.
    + destruct Hu as [Hu | [[-> | Hu] Hk]].
      * left. destruct (keeps target_domain url); [|exact Hu].
        apply elem_of_union. now right.
      * left. rewrite Hk. apply elem_of_union. left.
        now apply elem_of_singleton.
      * right. now split.
Qed.

(** The list [discover_urls] returns is the filtering loop run over the
    final discovered set. *)
Lemma discover_urls_result (target : string) (timeout : Z) (w : world)
    (urls : list string) :
  fst (discover_urls target timeout w) = Ok urls ->
  exists parsed_target,
    urlparse target = Some parsed_target
    /\ urls
       = elements
           (filter_loop (netloc parsed_target)
              (elements (discovered_urls
                           (snd (discover_urls target timeout w)))) ∅).
Proof.
  destruct (discover_urls target timeout w) as [r wf] eqn:Hrun.
  cbn [fst snd]. intros ->. revert Hrun.
  unfold discover_urls. rewrite bind_run. unfold reset_discovered at 1.
  rewrite bind_run.
  destruct (urlparse target) as [parsed_target|]; [|discriminate].
  cbn [or_value_error ret].
  rewrite bind_run. destruct (for_each common_endpoints _ _) as [[[] | e] w1];
    [|discriminate].
  rewrite bind_run. destruct (crawl_url _ _ _ _ _ _ _ w1) as [[[] | e] w2];
    [|discriminate].
  rewrite bind_run. unfold get_discovered, ret.
  intros [= <- <-]. now exists parsed_target.
Qed.

End DiscoveryResults.

Section DiscoveryTheorems.
Context `{UrlLib} `{Env}.

(** X12.  The list [discover_urls] returns has no duplicates and at most
    [MAX_URLS] entries, and each entry is a URL of the discovered set that
    parses, has no excluded extension and is accepted by [is_same_domain]. *)
Theorem discover_urls_returns_filtered (target : string) (timeout : Z)
    (w : world) (urls : list string) :
  fst (discover_urls target timeout w) = Ok urls ->
  NoDup urls
  /\ (List.length urls <= MAX_URLS)%nat
  /\ exists parsed_target,
       urlparse target = Some parsed_target
       /\ forall u, In u urls ->
            u ∈ discovered_urls (snd (discover_urls target timeout w))
            /\ keeps (netloc parsed_target) u = true.
Proof.
  intros Hrun. pose proof (discover_urls_bounded _ _ _ _ Hrun) as Hlen.
  apply discover_urls_result in Hrun as (parsed_target & Hparse & ->).
  split; [apply NoDup_elements|]. split; [exact Hlen|].
  exists parsed_target. split; [exact Hparse|]. intros u Hu.
  apply list_elem_of_In, elem_of_elements in Hu.
  apply filter_loop_sound in Hu as [Hu | [Hu Hk]].
  - now apply elem_of_empty in Hu.
  - split; [|exact Hk]. now apply list_elem_of_In, elem_of_elements in Hu.
Qed.

(** X13.  As long as the discovered set holds no more than [MAX_URLS]
    URLs, the filter drops nothing else than what fails its test: the
    returned URLs are exactly the discovered URLs that parse, have no
    excluded extension and are accepted by [is_same_domain]. *)
Theorem discover_urls_keeps_all_below_cap (target : string) (timeout : Z)
    (w : world) (urls : list string) (parsed_target : ParseResult) :
  fst (discover_urls target timeout w) = Ok urls ->
  urlparse target = Some parsed_target ->
  (size (discovered_urls (snd (discover_urls target timeout w)))
   <= MAX_URLS)%nat ->
  forall u,
    In u urls <->
    u ∈ discovered_urls (snd (discover_urls target timeout w))
    /\ keeps (netloc parsed_target) u = true.
Proof.
  intros Hrun Hparse Hsz u.
  apply discover_urls_result in Hrun as (parsed & Hparse' & ->).
  rewrite Hparse in Hparse'. injection Hparse' as <-.
  rewrite <- list_elem_of_In, elem_of_elements. split.
  - intros Hu. apply filter_loop_sound in Hu as [Hu | [Hu Hk]].
    + now apply elem_of_empty in Hu.
    + split; [|exact Hk]. now apply list_elem_of_In, elem_of_elements in Hu.
  - intros [Hu Hk]. apply filter_loop_complete.
    + rewrite size_empty. exact Hsz.
    + right. split; [|exact Hk]. now apply list_elem_of_In, elem_of_elements.
Qed.

End DiscoveryTheorems.

Lemma foreign_link_run_returns :
  exists urls wf,
    @discover_urls cpython_urllib Stub.env_foreign_link "https://example.com"
      10 world0 = (Ok urls, wf).
Proof.
  apply (@root_only_discover_returns cpython_urllib "https://example.com"
           Stub.page_foreign_link 10 world0
           (mkParse "https" "example.com" "" "" "" "") eq_refl).
  apply forallb_Forall. vm_compute. reflexivity.
Qed.

Lemma discover_urls_returns_filtered_witness :
  exists urls,
    fst (@discover_urls cpython_urllib Stub.env_foreign_link
           "https://example.com" 10 world0) = Ok urls
    /\ NoDup urls /\ (List.length urls <= MAX_URLS)%nat.
Proof.
  destruct foreign_link_run_returns as (urls & wf & Hrun).
  assert (Hfst : fst (@discover_urls cpython_urllib Stub.env_foreign_link
                        "https://example.com" 10 world0) = Ok urls)
    by now rewrite Hrun.
  exists urls. split; [exact Hfst|].
  destruct (@discover_urls_returns_filtered cpython_urllib
              Stub.env_foreign_link _ _ _ _ Hfst) as (Hnd & Hlen & _).
  now split.
Defined.

Lemma foreign_link_run_size :
  (size (discovered_urls
           (snd (@discover_urls cpython_urllib Stub.env_foreign_link
                   "https://example.com" 10 world0))) <= MAX_URLS)%nat.
Proof.
  destruct (@discover_urls_tracks cpython_urllib Stub.env_foreign_link
              "https://example.com" 10 world0) as (evs & Hev & -> & _).
  pose proof (size_adds evs) as Hsz.
  assert (Hlen : (List.length evs <= 100)%nat).
  { apply (f_equal (@List.length event)) in Hev.
    rewrite List.length_app in Hev. cbn [world0 events List.length Nat.add] in Hev.
    rewrite <- Hev. apply Nat.leb_le. vm_compute. reflexivity. }
  unfold MAX_URLS. lia.
Qed.

Lemma discover_urls_keeps_all_below_cap_witness :
  exists urls,
    fst (@discover_urls cpython_urllib Stub.env_foreign_link
           "https://example.com" 10 world0) = Ok urls
    /\ In "https://example.com/api" urls.
Proof.
  destruct foreign_link_run_returns as (urls & wf & Hrun).
  assert (Hfst : fst (@discover_urls cpython_urllib Stub.env_foreign_link
                        "https://example.com" 10 world0) = Ok urls)
    by now rewrite Hrun.
  exists urls. split; [exact Hfst|].
  apply (@discover_urls_keeps_all_below_cap cpython_urllib
           Stub.env_foreign_link "https://example.com" 10 world0 urls
           (mkParse "https" "example.com" "" "" "" "") Hfst eq_refl
           foreign_link_run_size).
  split; [|reflexivity].
  apply (proj1 (@discover_urls_collects cpython_urllib Stub.env_foreign_link
                  "https://example.com" 10 world0 urls
                  (mkParse "https" "example.com" "" "" "" "") eq_refl Hfst)
               "api").
  right. left. reflexivity.
Defined.

(** ** What a crawl raises, requests and logs *)

Lemma raises_only_ret {A} (P : exn -> Prop) (a : A) : raises_only P (ret a).
Proof. intros w e. discriminate. Qed.

Lemma raises_only_bind {A B} (P : exn -> Prop) (c : M A) (k : A -> M B) :
  raises_only P c -> (forall a, raises_only P (k a)) ->
  raises_only P (bind c k).
Proof.
  intros Hc Hk w e. rewrite bind_run. specialize (Hc w).
  destruct (c w) as [[a | e'] w1]; [apply Hk|].
  cbn [fst] in *. intros [= ->]. now apply Hc.
Qed.

Lemma raises_only_for_each {A} (P : exn -> Prop) (body : A -> M unit)
    (l : list A) :
  (forall x, raises_only P (body x)) -> raises_only P (for_each l body).
Proof.
  intros Hbody. induction l as [|x l IH]; [apply raises_only_ret|].
  cbn [for_each]. apply raises_only_bind; [apply Hbody | intros _; exact IH].
Qed.

Lemma raises_only_or_value_error {A} (P : exn -> Prop) (o : option A) :
  (forall msg, P (ValueError msg)) -> raises_only P (or_value_error o).
Proof. intros HP w e. destruct o; [discriminate|]. intros [= <-]. apply HP. Qed.

Lemma raises_only_silent {A} (P : exn -> Prop) (c : M A) :
  (forall w, exists a, fst (c w) = Ok a) -> raises_only P c.
Proof. intros Hc w e He. destruct (Hc w) as [a Ha]. congruence. Qed.

Lemma raises_only_impl {A} (P Q : exn -> Prop) (c : M A) :
  (forall e, P e -> Q e) -> raises_only P c -> raises_only Q c.
Proof. intros HPQ Hc w e He. apply HPQ. now apply (Hc w). Qed.

Lemma raises_only_try {A} (P : exn -> Prop) (body : M A)
    (handler : string -> M A) :
  raises_only (fun e => P e \/ exists msg, e = RequestException msg) body ->
  (forall msg, raises_only P (handler msg)) ->
  raises_only P (try_except_request body handler).
Proof.
  intros Hb Hh w e. unfold try_except_request. specialize (Hb w).
  destruct (body w) as [[a | e'] w1]; [discriminate|].
  cbn [fst] in Hb.
  destruct e' as [msg | msg | msg | msg | ];
    try (intros [= <-]; destruct (Hb _ eq_refl) as [HP | [m Hm]];
         [exact HP | discriminate Hm]).
  apply Hh.
Qed.

Section CrawlErrors.
Context `{UrlLib} `{Env}.

Lemma requests_get_raises (P : exn -> Prop) (rq : request) :
  raises_only (fun e => P e \/ exists msg, e = RequestException msg)
              (requests_get rq).
Proof.
  intros w e. unfold requests_get. cbn [fst].
  destruct (net (nreq w) rq) as [resp | msg]; [discriminate|].
  intros [= <-]. right. now exists msg.
Qed.

Lemma crawl_url_raises (target target_domain : string) (timeout : Z)
    (fuel : nat) :
  forall (url : string) (depth max_depth : nat),
    raises_only crawl_error
      (crawl_url fuel target target_domain timeout url depth max_depth).
Proof.
  assert (Hve : forall msg, crawl_error (ValueError msg)).
  { intros msg. left. now exists msg. }
  induction fuel as [|fuel IH]; intros url depth max_depth;
    cbn [crawl_url]; destruct (max_depth <=? depth)%nat;
    try apply raises_only_ret.
  - intros w e [= <-]. now right.
  - apply raises_only_try; [|intros _; apply raises_only_ret].
    apply raises_only_bind; [apply requests_get_raises|]. intros response.
    apply (raises_only_impl crawl_error); [now left|].
    destruct (status_code response =? 200)%Z; [|apply raises_only_ret].
    apply raises_only_for_each. intros found_url.
    apply raises_only_bind.
    { destruct (Py.startswith found_url "/");
        [now apply raises_only_or_value_error|].
      destruct (_ || _);
        [apply raises_only_ret | now apply raises_only_or_value_error]. }
    intros full_url. apply raises_only_bind; [intros w e; discriminate|].
    intros discovered. destruct (_ && _); [|apply raises_only_ret].
    apply raises_only_bind; [intros w e; discriminate|]. intros _.
    apply raises_only_bind; [intros w e; discriminate|]. intros discovered'.
    destruct (size discovered' <? MAX_URLS)%nat; [|apply raises_only_ret].
    destruct (depth <? max_depth - 1)%nat; [|apply raises_only_ret].
    apply IH.
Qed.

(** X14.  No transport failure and no answer of a server makes
    [discover_urls] raise: a [RequestException] never escapes it.  Up to the
    write of the result file, which [discover_urls] above leaves out and
    which can raise [OSError], the crawl and the filter fail in one way
    only, with the [ValueError] of a URL the library cannot parse or
    join. *)
Theorem discover_urls_raises_value_error_only (target : string)
    (timeout : Z) (w : world) (e : exn) :
  fst (discover_urls target timeout w) = Raise e ->
  exists msg, e = ValueError msg.
Proof.
  intros Hrun.
  assert (Hcrawl : raises_only crawl_error (discover_urls target timeout)).
  { unfold discover_urls.
    apply raises_only_bind; [intros w0 e0; discriminate|]. intros _.
    apply raises_only_bind.
    { apply raises_only_or_value_error. intros msg. left. now exists msg. }
    intros parsed_target.
    apply raises_only_bind.
    { apply raises_only_for_each. intros endpoint w0 e0. discriminate. }
    intros _. apply raises_only_bind; [apply crawl_url_raises|]. intros _.
    apply raises_only_bind; [intros w0 e0; discriminate|]. intros discovered.
    apply raises_only_ret. }
  destruct (Hcrawl w e Hrun) as [Hve | ->]; [exact Hve|].
  exfalso. revert Hrun.
  assert (Hfuel : fuelled (discover_urls target timeout)).
  { unfold discover_urls.
    apply fuelled_bind; [intros w0; discriminate|]. intros _.
    apply fuelled_bind; [apply fuelled_or_value_error|]. intros parsed_target.
    apply fuelled_bind.
    { apply fuelled_for_each. intros endpoint w0. discriminate. }
    intros _. apply fuelled_bind; [apply crawl_url_fuel; lia|]. intros _.
    apply fuelled_bind; [intros w0; discriminate|]. intros discovered.
    apply fuelled_ret. }
  apply Hfuel.
Qed.

End CrawlErrors.

Lemma discover_urls_raises_value_error_only_witness :
  fst (@discover_urls cpython_urllib Stub.env_foreign_link "https://[" 10
         world0) = Raise (ValueError "Invalid IPv6 URL")
  /\ exists msg, ValueError "Invalid IPv6 URL" = ValueError msg.
Proof.
  assert (Hrun : fst (@discover_urls cpython_urllib Stub.env_foreign_link
                        "https://[" 10 world0)
                 = Raise (ValueError "Invalid IPv6 URL")) by reflexivity.
  split; [exact Hrun|].
  exact (@discover_urls_raises_value_error_only cpython_urllib
           Stub.env_foreign_link _ _ _ _ Hrun).
Defined.

Section CrawlRequests.
Context `{UrlLib} `{Env}.

Lemma crawl_body_unfold (fuel : nat) (target target_domain : string)
    (timeout : Z) (url : string) (depth max_depth : nat) (found_url : string) :
  crawl_body fuel target target_domain timeout url depth max_depth found_url
  = bind (or_value_error (resolve target url found_url)) (fun full_url =>
      bind get_discovered (fun discovered =>
        if is_same_domain target_domain full_url
           && negb (bool_decide (full_url ∈ discovered)) then
          bind (add_discovered (normalize_path target full_url)) (fun _ =>
            bind get_discovered (fun discovered =>
              if (size discovered <? MAX_URLS)%nat then
                if (depth <? max_depth - 1)%nat then
                  crawl_url fuel target target_domain timeout full_url
                            (depth + 1) max_depth
                else ret tt
              else ret tt))
        else ret tt)).
Proof.
  unfold crawl_body, resolve.
  destruct (Py.startswith found_url "/"); [reflexivity|].
  destruct (_ || _); reflexivity.
Qed.

Lemma or_value_error_world {A} (o : option A) (w : world) :
  snd (or_value_error o w) = w.
Proof. now destruct o. Qed.

Lemma or_value_error_ok {A} (o : option A) (a : A) (w w1 : world) :
  or_value_error o w = (Ok a, w1) -> w1 = w.
Proof. destruct o; [now intros [= _ <-] | discriminate]. Qed.

Lemma crawl_body_spent (n fuel : nat) (target target_domain : string)
    (timeout : Z) (url : string) (depth max_depth : nat) (found_url : string) :
  (forall full_url w,
     (depth <? max_depth - 1)%nat = true ->
     spent n w (snd (crawl_url fuel target target_domain timeout full_url
                               (depth + 1) max_depth w))) ->
  forall w,
    spent n w (snd (crawl_body fuel target target_domain timeout url depth
                               max_depth found_url w)).
Proof.
  intros Hrec w. rewrite crawl_body_unfold.
  apply (spent_bind 0 n).
  { rewrite or_value_error_world. apply spent_refl. }
  intros full_url w1 _. apply (spent_bind 0 n); [apply spent_refl|].
  intros discovered w2 _.
  destruct (_ && _); [|apply (spent_weaken 0); [lia | apply spent_refl]].
  apply (spent_bind 0 n); [unfold spent; cbn; lia|]. intros _ w3 _.
  apply (spent_bind 0 n); [apply spent_refl|]. intros discovered' w4 _.
  destruct (size discovered' <? MAX_URLS)%nat;
    [|apply (spent_weaken 0); [lia | apply spent_refl]].
  destruct (depth <? max_depth - 1)%nat eqn:Hdeep;
    [|apply (spent_weaken 0); [lia | apply spent_refl]].
  now apply Hrec.
Qed.

Lemma try_ret_world {A} (body : M A) (a : A) (w : world) :
  snd (try_except_request body (fun _ => ret a) w) = snd (body w).
Proof.
  unfold try_except_request. destruct (body w) as [[x | e] w1]; [reflexivity|].
  now destruct e.
Qed.

(** One call of [crawl_url] makes its own request and at most [n] more for
    each reference on the page, when the nested calls make at most [n]. *)
Lemma crawl_url_spent (n fuel : nat) (target target_domain : string)
    (timeout : Z) (url : string) (depth max_depth : nat) :
  (forall full_url w,
     (depth <? max_depth - 1)%nat = true ->
     spent n w (snd (crawl_url fuel target target_domain timeout full_url
                               (depth + 1) max_depth w))) ->
  forall w,
    spent (1 + n * links_at url timeout w) w
          (snd (crawl_url (S fuel) target target_domain timeout url depth
                          max_depth w)).
Proof.
  intros Hrec w. rewrite crawl_url_unfold.
  destruct (max_depth <=? depth)%nat;
    [apply (spent_weaken 0); [lia | apply spent_refl]|].
  rewrite try_ret_world. rewrite bind_run. unfold links_at.
  unfold requests_get at 1. cbn [nreq].
  destruct (net (nreq w) (crawl_request url timeout)) as [response | msg];
    [|unfold spent; cbn; lia].
  destruct (status_code response =? 200)%Z; [|unfold spent; cbn; lia].
  set (w1 := mkWorld _ _ _ _).
  pose proof (spent_for_each (fun _ => n)
                (crawl_body fuel target target_domain timeout url depth
                            max_depth)
                (Scan.extract_urls (text response))
                (fun found_url => crawl_body_spent n fuel target target_domain
                                    timeout url depth max_depth found_url Hrec)
                w1) as Hloop.
  assert (Hsum : list_sum (List.map (fun _ : string => n)
                             (Scan.extract_urls (text response)))
                 = (n * List.length (Scan.extract_urls (text response)))%nat).
  { clear. induction (Scan.extract_urls (text response)) as [|x l IH];
      unfold list_sum in *; cbn [List.map fold_right List.length]; lia. }
  rewrite Hsum in Hloop. unfold spent in *. subst w1. cbn [nreq] in Hloop. lia.
Qed.

Lemma crawl_url_spent_none (fuel : nat) (target target_domain : string)
    (timeout : Z) (url : string) (depth max_depth : nat) (w : world) :
  (max_depth <= depth)%nat ->
  spent 0 w (snd (crawl_url fuel target target_domain timeout url depth
                            max_depth w)).
Proof.
  intros Hd. apply Nat.leb_le in Hd.
  destruct fuel; cbn [crawl_url]; rewrite Hd; apply spent_refl.
Qed.

(** A call at the last level makes one request at most. *)
Lemma crawl_url_spent_leaf (fuel : nat) (target target_domain : string)
    (timeout : Z) (url : string) (depth max_depth : nat) (w : world) :
  (max_depth <= depth + 1)%nat ->
  spent 1 w (snd (crawl_url fuel target target_domain timeout url depth
                            max_depth w)).
Proof.
  intros Hd. destruct fuel as [|fuel].
  - cbn [crawl_url]. destruct (max_depth <=? depth)%nat;
      apply (spent_weaken 0); try lia; apply spent_refl.
  - eapply spent_weaken; [|apply (crawl_url_spent 0)].
    + lia.
    + intros full_url w1 Hdeep. apply Nat.ltb_lt in Hdeep. lia.
Qed.

Lemma seed_loop_spent (f : string -> string) (l : list string) (w : world) :
  spent 0 w (snd (for_each l (fun endpoint => add_discovered (f endpoint)) w)).
Proof.
  destruct (for_each l (fun endpoint => add_discovered (f endpoint)) w)
    as [r w1] eqn:Hrun.
  apply seed_loop_nreq in Hrun. unfold spent. cbn [snd]. lia.
Qed.

(** X15.  [discover_urls] requests the target's root page and then, at
    most, one page for each reference found on it: the crawl stops at depth
    two.  When the root page cannot be fetched or is not answered with
    status 200, the discovery makes that one request only. *)
Theorem discovery_request_bound (target : string) (timeout : Z) (w : world) :
  let w' := snd (discover_urls target timeout w) in
  (nreq w <= nreq w' <= nreq w + 1 + links_at target timeout w)%nat.
Proof.
  cbv zeta.
  enough (spent (1 + links_at target timeout w) w
            (snd (discover_urls target timeout w)))
    by (unfold spent in *; lia).
  unfold discover_urls.
  apply (spent_bind 0); [unfold spent; cbn; lia|]. intros [] w0 Hreset.
  assert (Hw0 : nreq w0 = nreq w)
    by (injection Hreset as Hreset; now rewrite <- Hreset).
  replace (links_at target timeout w) with (links_at target timeout w0)
    by (unfold links_at; now rewrite Hw0).
  clear Hw0.
  apply (spent_bind 0).
  { rewrite or_value_error_world. apply spent_refl. }
  intros parsed_target w1 Hparse. apply or_value_error_ok in Hparse as ->.
  apply (spent_bind 0); [apply seed_loop_spent|]. intros [] w2 Hseed.
  apply seed_loop_nreq in Hseed.
  replace (links_at target timeout w0) with (links_at target timeout w2)
    by (unfold links_at; now rewrite Hseed).
  replace (1 + links_at target timeout w2)%nat
    with (1 + 1 * links_at target timeout w2 + 0)%nat by lia.
  apply spent_bind.
  { apply crawl_url_spent. intros full_url w3 _.
    apply crawl_url_spent_leaf. lia. }
  intros _ w3 _. apply (spent_bind 0 0); [apply spent_refl|].
  intros discovered w4 _. apply spent_refl.
Qed.

Lemma crawl_body_crawling (fuel : nat) (target target_domain : string)
    (timeout : Z) (url : string) (depth max_depth : nat) (found_url : string) :
  (forall full_url w,
     emitting (crawling timeout) w
       (snd (crawl_url fuel target target_domain timeout full_url
                       (depth + 1) max_depth w))) ->
  forall w,
    emitting (crawling timeout) w
      (snd (crawl_body fuel target target_domain timeout url depth max_depth
                       found_url w)).
Proof.
  intros Hrec w. rewrite crawl_body_unfold.
  apply (rel_bind _ (emitting_trans _)).
  { rewrite or_value_error_world. apply emitting_refl. }
  intros full_url w1 _. apply (rel_bind _ (emitting_trans _));
    [apply emitting_refl|].
  intros discovered w2 _. destruct (_ && _); [|apply emitting_refl].
  apply (rel_bind _ (emitting_trans _)).
  { eexists [_]. split; [reflexivity|]. now repeat constructor. }
  intros _ w3 _. apply (rel_bind _ (emitting_trans _)); [apply emitting_refl|].
  intros discovered' w4 _.
  destruct (size discovered' <? MAX_URLS)%nat; [|apply emitting_refl].
  destruct (depth <? max_depth - 1)%nat; [|apply emitting_refl].
  apply Hrec.
Qed.

Lemma crawl_url_crawling (target target_domain : string) (timeout : Z)
    (fuel : nat) :
  forall (url : string) (depth max_depth : nat) (w : world),
    emitting (crawling timeout) w
      (snd (crawl_url fuel target target_domain timeout url depth max_depth w)).
Proof.
  induction fuel as [|fuel IH]; intros url depth max_depth w.
  - cbn [crawl_url]. destruct (max_depth <=? depth)%nat; apply emitting_refl.
  - rewrite crawl_url_unfold.
    destruct (max_depth <=? depth)%nat; [apply emitting_refl|].
    rewrite try_ret_world. apply (rel_bind _ (emitting_trans _)).
    + apply emitting_get. reflexivity.
    + intros response w1 _.
      destruct (status_code response =? 200)%Z; [|apply emitting_refl].
      apply (rel_for_each _ (emitting_refl _) (emitting_trans _)).
      intros found_url _ w2. apply crawl_body_crawling. intros full_url w3.
      apply IH.
Qed.

(** X16.  The discovery only requests, adds to the discovered set and
    logs: it never pauses between its requests and writes no finding.  Each
    of its requests follows redirects and carries the given timeout and the
    User-Agent header only. *)
Theorem discovery_requests_follow_redirects (target : string) (timeout : Z)
    (w : world) :
  exists evs,
    events (snd (discover_urls target timeout w)) = (events w ++ evs)%list
    /\ Forall (crawling timeout) evs
    /\ Forall (fun r => allow_redirects r = true
                        /\ req_timeout r = timeout
                        /\ req_headers r = [("User-Agent", USER_AGENT)])
              (gets evs).
Proof.
  assert (Hrun : emitting (crawling timeout) w
                   (snd (discover_urls target timeout w))).
  { unfold discover_urls.
    apply (rel_bind _ (emitting_trans _)); [now apply emitting_silent|].
    intros _ w0 _. apply (rel_bind _ (emitting_trans _)).
    { rewrite or_value_error_world. apply emitting_refl. }
    intros parsed_target w1 _. apply (rel_bind _ (emitting_trans _)).
    { apply (rel_for_each _ (emitting_refl _) (emitting_trans _)).
      intros endpoint _ w2. eexists [_]. split; [reflexivity|].
      now repeat constructor. }
    intros _ w2 _. apply (rel_bind _ (emitting_trans _));
      [apply crawl_url_crawling|].
    intros _ w3 _. apply (rel_bind _ (emitting_trans _));
      [apply emitting_refl|].
    intros discovered w4 _. apply emitting_refl. }
  destruct Hrun as (evs & Hev & Hall). exists evs.
  split; [exact Hev|]. split; [exact Hall|].
  clear Hev. induction evs as [|e evs IH]; [constructor|].
  apply Forall_cons in Hall as [He Hall]. specialize (IH Hall).
  destruct e; cbn [gets]; try exact IH.
  constructor; [|exact IH]. cbn in He. rewrite He. now repeat split.
Qed.

(** X17.  When [discover_urls] returns, the discovered set holds the
    normalised form of every common endpoint of the target, and every
    reference of a root page answered with status 200 whose resolved URL is
    accepted by [is_same_domain] and is its own normalised form. *)
Theorem seeds_and_root_links_are_discovered (target : string) (timeout : Z)
    (w : world) (urls : list string) (parsed_target : ParseResult) :
  urlparse target = Some parsed_target ->
  fst (discover_urls target timeout w) = Ok urls ->
  (forall endpoint, In endpoint common_endpoints ->
     normalize_path target (target +:+ "/" +:+ endpoint +:+ "/")
     ∈ discovered_urls (snd (discover_urls target timeout w)))
  /\ (forall response found_url full_url,
        net (nreq w) (crawl_request target timeout) = Answer response ->
        status_code response = 200%Z ->
        In found_url (Scan.extract_urls (text response)) ->
        resolve target target found_url = Some full_url ->
        is_same_domain (netloc parsed_target) full_url = true ->
        normalize_path target full_url = full_url ->
        full_url ∈ discovered_urls (snd (discover_urls target timeout w))).
Proof. apply discover_urls_collects. Qed.

End CrawlRequests.

Lemma seeds_and_root_links_are_discovered_witness :
  exists urls,
    fst (@discover_urls cpython_urllib Stub.env_foreign_link
           "https://example.com" 10 world0) = Ok urls
    /\ "https://example.com/admin"
       ∈ discovered_urls
           (snd (@discover_urls cpython_urllib Stub.env_foreign_link
                   "https://example.com" 10 world0)).
Proof.
  destruct foreign_link_run_returns as (urls & wf & Hrun).
  assert (Hfst : fst (@discover_urls cpython_urllib Stub.env_foreign_link
                        "https://example.com" 10 world0) = Ok urls)
    by now rewrite Hrun.
  exists urls. split; [exact Hfst|].
  apply (proj1 (@seeds_and_root_links_are_discovered cpython_urllib
                  Stub.env_foreign_link "https://example.com" 10 world0 urls
                  (mkParse "https" "example.com" "" "" "" "") eq_refl Hfst)
               "admin").
  do 4 right. left. reflexivity.
Defined.

(** ** Target validation *)

Lemma normalize_url_shape (T : string) :
  exists r, rstripped Py.is_space r /\ normalize_url T = "https://" +:+ r.
Proof.
  exists (strip_scheme (Py.strip T)). split; [|reflexivity].
  apply strip_scheme_rstripped, rstrip_rstripped.
Qed.

Lemma normalize_url_fixed (T : string) :
  normalize_url (normalize_url T) = normalize_url T.
Proof.
  destruct (normalize_url_shape T) as (r & Hr & ->).
  unfold normalize_url at 1. f_equal. unfold Py.strip.
  change (Py.lstrip_with Py.is_space ("https://" +:+ r)) with ("https://" +:+ r).
  rewrite (rstripped_https r Hr). reflexivity.
Qed.

(** X18.  A target that [validate_domain] accepts is the normalised form
    of the input, an https URL that normalising leaves unchanged, whose HEAD
    request was answered with a status from 200 to 399; validating the
    accepted target again accepts it unchanged. *)
Theorem validated_target_is_normalised (head : request -> transport)
    (url : string) (timeout : Z) (valid_target : string) :
  validate_domain head url timeout = Some valid_target ->
  valid_target = normalize_url url
  /\ normalize_url valid_target = valid_target
  /\ Py.startswith valid_target "https://" = true
  /\ (exists response,
        head (head_request valid_target timeout) = Answer response
        /\ (200 <= status_code response < 400)%Z)
  /\ validate_domain head valid_target timeout = Some valid_target.
Proof.
  unfold validate_domain at 1.
  destruct (head (head_request (normalize_url url) timeout))
    as [response | msg] eqn:Hhead; [|discriminate].
  destruct ((200 <=? status_code response)%Z
            && (status_code response <? 400)%Z) eqn:Hstatus; [|discriminate].
  intros [= <-]. split; [reflexivity|].
  split; [apply normalize_url_fixed|]. split; [reflexivity|]. split.
  - exists response. split; [exact Hhead|].
    apply andb_true_iff in Hstatus as [Hlo Hhi].
    apply Z.leb_le in Hlo. apply Z.ltb_lt in Hhi. lia.
  - unfold validate_domain. rewrite normalize_url_fixed, Hhead, Hstatus.
    reflexivity.
Qed.

Lemma validated_target_is_normalised_witness :
  validate_domain (fun _ => Answer (mkResponse 301 [] "")) " http://example.com "
                  10 = Some "https://example.com"
  /\ normalize_url "https://example.com" = "https://example.com".
Proof.
  split; [reflexivity|].
  exact (proj1 (proj2 (validated_target_is_normalised
                         (fun _ => Answer (mkResponse 301 [] ""))
                         " http://example.com " 10 "https://example.com"
                         eq_refl))).
Defined.

(** ** The generated payloads *)

Lemma payload_names_plain (domain : string) (r : payload_entropy) :
  forallb (fun '(header_name, _) => negb (Py.contains ": " header_name))
          (payload_headers domain r) = true.
Proof. reflexivity. Qed.

Lemma payload_values_truthy (domain : string) (r : payload_entropy) :
  domain <> "" ->
  forallb (fun '(_, header_values) => forallb Py.truthy header_values)
          (payload_headers domain r) = true.
Proof.
  intros Hd. destruct domain as [|c d]; [congruence|].
  destruct r as [port sub att o1 o2 o3]. destruct sub; reflexivity.
Qed.

(** X19.  For every header name and value [generate_payloads] writes, the
    header line of a finding made with them is split by [generate_report]
    into that name and that value. *)
Theorem generated_headers_split_back (domain : string) (r : payload_entropy)
    (header_name : string) (header_values : list string)
    (header_value : string) :
  In (header_name, header_values) (payload_headers domain r) ->
  split_header (header_name +:+ ": " +:+ header_value)
  = Ok (header_name, header_value).
Proof.
  intros Hin. pose proof (payload_names_plain domain r) as Hall.
  rewrite forallb_forall in Hall. specialize (Hall _ Hin). cbn in Hall.
  apply negb_true_iff in Hall.
  unfold split_header. now rewrite split1_at_separator.
Qed.

Lemma generated_headers_split_back_witness :
  split_header ("X-Original-URL" +:+ ": " +:+ "/admin: 1")
  = Ok ("X-Original-URL", "/admin: 1").
Proof.
  apply (generated_headers_split_back "example.com"
           (mkEntropy 8080 "abcdefgh" 1234 1 2 3) "X-Original-URL"
           ["/admin"; "/wp-admin"; "/.env"; "/api/internal"; "/graphql";
            "/actuator"; "/private"; "/dashboard"; "/abcdefgh";
            "/api/v1/admin"]).
  right. left. reflexivity.
Defined.

(** ** Testing the generated payloads *)

Lemma tested_refl (w : world) : tested 0 w w.
Proof.
  exists []. rewrite app_nil_r. repeat split; cbn; lia.
Qed.

Lemma tested_trans (n1 n2 : nat) (a b c : world) :
  tested n1 a b -> tested n2 b c -> tested (n1 + n2) a c.
Proof.
  intros (e1 & H1 & He1 & Hp1 & Hn1) (e2 & H2 & He2 & Hp2 & Hn2).
  exists (e1 ++ e2)%list. split; [now rewrite H2, H1, <- app_assoc|].
  rewrite !List.filter_app, He1, He2, List.length_app, Hp1, Hp2.
  repeat split; lia.
Qed.

Lemma tested_for_each {A} (n : A -> nat) (body : A -> M unit) (l : list A) :
  (forall x, In x l ->
     forall w, exists w', body x w = (Ok tt, w') /\ tested (n x) w w') ->
  forall w, exists w',
    for_each l body w = (Ok tt, w')
    /\ tested (list_sum (List.map n l)) w w'.
Proof.
  induction l as [|x l IH]; intros Hbody w.
  - exists w. split; [reflexivity | apply tested_refl].
  - destruct (Hbody x (or_introl eq_refl) w) as (w1 & Hx & Hw1).
    destruct (IH (fun y Hy => Hbody y (or_intror Hy)) w1) as (w2 & Hl & Hw2).
    exists w2. cbn [for_each]. rewrite bind_run, Hx. split; [exact Hl|].
    change (list_sum (List.map n (x :: l)))
      with (n x + list_sum (List.map n l))%nat.
    exact (tested_trans _ _ _ _ _ Hw1 Hw2).
Qed.

Lemma probing_quiet (evs : list event) :
  Forall probing evs ->
  List.filter error_line evs = [] /\ List.filter rate_pause evs = [].
Proof.
  induction 1 as [|e evs He _ [IH1 IH2]]; [now split|].
  destruct e; cbn in He; try contradiction; cbn [List.filter error_line].
  - now split.
  - subst seconds. now split.
Qed.

Section GeneratedPayloads.
Context `{Env}.

(** With a non-empty header value the verifier returns. *)
Lemma verify_returns (url hn hv : string) (timeout : Z) (w : world) :
  hv <> "" ->
  exists v w', verify_302_poisoning url hn hv timeout w = (Ok v, w').
Proof.
  intros Hne. rewrite verify_run. cbv zeta.
  destruct (net (nreq w) _) as [baseline | msg]; [|eauto].
  destruct (_ && _); [eauto|].
  match goal with |- context [probe_loop ?u ?n ?v ?t ?r ?c ?w1] =>
    destruct (probe_loop_cases u n v t c r w1) as (evs & _ & _ & Hres);
    destruct (probe_loop u n v t r c w1) as [[rs | e] w2] end; [eauto|].
  cbn [fst] in Hres. destruct Hres as [Hempty _]. congruence.
Qed.

Lemma test_value_tested (url output_file hn hv : string) (timeout : Z)
    (w : world) :
  hv <> "" ->
  exists w',
    test_value url output_file hn hv timeout w = (Ok tt, w')
    /\ tested 1 w w'.
Proof.
  intros Hne.
  destruct (verify_returns url hn hv timeout w Hne) as (v & w1 & Hv).
  pose proof (verify_probing url hn hv timeout w) as (evs1 & Hev1 & Hq1).
  destruct (verify_requests url hn hv timeout w) as (probes & _ & Hn & Hc).
  cbv zeta in Hn. rewrite Hv in Hev1, Hn. cbn [snd] in Hev1, Hn.
  apply probing_quiet in Hq1 as [He1 Hp1].
  assert (Hreq : (nreq w + 1 <= nreq w1 <= nreq w + 3 * 1)%nat).
  { rewrite Hn. destruct Hc as [-> | [-> | [-> _]]]; cbn [List.length]; lia. }
  unfold test_value. rewrite bind_run, Hv.
  destruct v as [result | reason].
  - unfold bind, log, sleep, emit, ret.
    cbn [events nreq ndraw discovered_urls].
    eexists. split; [reflexivity|].
    exists (evs1 ++ [EAppend output_file
                       (mkVuln url (hn +:+ ": " +:+ hv) (p_status_code result)
                          (p_location result) (p_reflection result) "verified"
                          "302_redirect");
                     ELog "SUCCESS"
                       ("Found 302 cache poisoning: " +:+ hn +:+ ": " +:+ hv);
                     ELog "INFO"
                       ("→ Redirects to: " +:+ Py.take 60 (p_location result)
                        +:+ "...");
                     ESleep (1 # 2)])%list.
    cbn [events nreq].
    split; [rewrite Hev1, <- !app_assoc; reflexivity|].
    rewrite !List.filter_app, He1, Hp1. repeat split; try reflexivity; lia.
  - unfold bind, log, sleep, emit, ret.
    cbn [events nreq ndraw discovered_urls].
    eexists. split; [reflexivity|].
    exists (evs1 ++ [ESleep (1 # 2)])%list.
    cbn [events nreq].
    split; [rewrite Hev1, <- !app_assoc; reflexivity|].
    rewrite !List.filter_app, He1, Hp1. repeat split; try reflexivity; lia.
Qed.

(** X20.  With the payload file [generate_payloads] writes for a
    non-empty host, [test_cache_poisoning] tests every one of the 73 header
    values: it logs no error, makes 73 rate-limiting pauses, and between 73
    and 219 requests. *)
Theorem generated_payloads_are_all_tested
    (domain : string) (r : payload_entropy)
    (url payloads_file output_file : string) (mode : scan_mode) (timeout : Z)
    (w : world) :
  domain <> "" ->
  payload_files payloads_file = Ok (payload_headers domain r) ->
  let w' := snd (test_cache_poisoning url payloads_file output_file mode
                   timeout w) in
  exists evs,
    events w' = (events w ++ evs)%list
    /\ List.filter error_line evs = []
    /\ List.length (List.filter rate_pause evs) = 73%nat
    /\ (nreq w + 73 <= nreq w' <= nreq w + 219)%nat.
Proof.
  intros Hd Hfile. cbv zeta.
  pose proof (payload_values_truthy domain r Hd) as Hall.
  rewrite forallb_forall in Hall.
  destruct (tested_for_each
              (fun '(_, header_values) => List.length header_values)
              (fun '(header_name, header_values) =>
                 for_each header_values (fun header_value =>
                   test_value url output_file header_name header_value
                              timeout))
              (payload_headers domain r)) with (w := w) as (w1 & Hrun & Ht).
  { intros [hn hvs] Hin w0. specialize (Hall _ Hin). cbn in Hall.
    rewrite forallb_forall in Hall.
    destruct (tested_for_each (fun _ => 1%nat)
                (fun header_value =>
                   test_value url output_file hn header_value timeout) hvs)
      with (w := w0) as (w1 & Hrun & Ht).
    - intros hv Hhv w2. apply test_value_tested.
      apply truthy_true. now apply Hall.
    - exists w1. split; [exact Hrun|].
      replace (List.length hvs) with (list_sum (List.map (fun _ => 1%nat) hvs));
        [exact Ht|].
      clear. induction hvs as [|hv l IH]; [reflexivity|].
      change (list_sum (List.map (fun _ : string => 1%nat) (hv :: l)))
        with (1 + list_sum (List.map (fun _ : string => 1%nat) l))%nat.
      rewrite IH. reflexivity. }
  unfold test_cache_poisoning, try_except. rewrite bind_run, Hfile, Hrun.
  cbn [snd]. exact Ht.
Qed.

End GeneratedPayloads.

Lemma generated_payloads_are_all_tested_witness :
  "example.com" <> ""
  /\ (nreq world0 + 73
      <= nreq (snd (@test_cache_poisoning env_generated
                      "https://example.com/login" "payloads.json"
                      "results.txt" standard 10 world0)))%nat.
Proof.
  split; [discriminate|].
  destruct (@generated_payloads_are_all_tested env_generated "example.com"
              (mkEntropy 8080 "abcdefgh" 1234 1 2 3)
              "https://example.com/login" "payloads.json" "results.txt"
              standard 10 world0)
    as (evs & _ & _ & _ & Hn); [discriminate | reflexivity |].
  exact (proj1 Hn).
Defined.

(** ** Comparing with the empty payload *)

Section CompareEmpty.
Context `{DiffLib}.

(** X21.  With the empty payload value [compare_responses] returns, and a
    response compared with itself is reported as not different, with no
    status, length, header or reflection change, whatever score the
    sequence matcher gives. *)
Theorem compare_responses_self_empty (r : captured) (threshold : Q) :
  exists d,
    compare_responses r r "" threshold = Ok (false, d)
    /\ status_changed d = false
    /\ length_changed d = false
    /\ headers_changed d = false
    /\ reflection_found d = false.
Proof.
  unfold compare_responses.
  assert (Hh : List.filter (header_differs (headers r) (headers r))
                 important_headers = []).
  { unfold important_headers, header_differs. simpl.
    repeat (rewrite bool_decide_eq_true_2 by reflexivity; simpl). reflexivity. }
  rewrite Hh, !Z.sub_diag.
  assert (Hl : (if (0 <? length r)%Z
                then Qltb (15 # 100)
                       (inject_Z (Z.abs 0) / inject_Z (length r))
                else false) = false).
  { destruct (length r) as [|p|p]; reflexivity. }
  rewrite Hl.
  change (validate_response_reflection (content r) "" (Some (content r)))
    with Tuple_False_None.
  cbv iota zeta. eexists. split; [reflexivity|]. now repeat split.
Qed.

End CompareEmpty.
